(** * The command-execution orchestrator of deeproute-compile-commands

    A shallow embedding of the class [DeepRouteCompileCommands]
    (deepRouteCompileCommands.ts) and of the command lookup of
    [executeCommandInternal] (extension.ts), with the properties of the
    specification stated over it.

    The class is event driven: a call of [execute] runs up to the point where
    the child process has been spawned and its listeners are registered; what
    happens later (the process closes, fails, the user cancels, the stop timer
    expires) arrives as separate callbacks.  Each method and each callback is
    a statement of a small monad that threads the object's state, records
    every call that leaves the class in a trace, and has the three ways a
    JavaScript statement completes: normally, by [return], by a thrown
    exception.  What the outside world answers to a call (a dialog button, the
    result of [spawnSync], a file probe) is read from a record with one field
    per call site; the methods have no loops, so each call site is reached at
    most once per activation.

    Conventions.  An activation runs to its end without another callback in
    between, also across an [await].  A text is the sequence of the UTF-8
    bytes of the JavaScript string; the pictographs and the arrow the source
    puts into its messages are left out.  A [Date] is its [getTime()] value.  Of Node the model has what the class relies on: [kill] sets
    [killed] when the signal could be delivered, [spawnSync] returns [null]
    output buffers when the child could not be spawned, [execSync] throws on
    failure, [spawn] throws on an empty command and on a NUL byte in the
    command or an argument; [path.join] and [path.resolve] are parameters.

    Around the class stand the output channel it writes to
    (outputManager.ts), the tree of commands with its history
    (commandTreeProvider.ts) and the command handlers of the extension
    (extension.ts); they are pure functions of the settings, the stored
    history and the answers of the dialogs, and return what they write
    together with the calls they make. *)

From Stdlib Require Import ZArith Lia Ascii String.
From stdpp Require Import base list strings pretty.

Local Open Scope string_scope.
Local Open Scope list_scope.

(** ** JavaScript strings *)

Module JS.

Definition nl : string := String "010"%char "".
Definition dq : string := String "034"%char "".

(** [String.prototype.trim] removes the code points of ECMAScript's
    WhiteSpace and LineTerminator from both ends: U+0009 to U+000D, U+0020,
    U+00A0, U+1680, U+2000 to U+200A, U+2028, U+2029, U+202F, U+205F, U+3000
    and U+FEFF.  In UTF-8 the first six are one byte, U+00A0 is two bytes and
    the others are three. *)
Definition between (lo hi : nat) (c : ascii) : bool :=
  ((lo <=? nat_of_ascii c) && (nat_of_ascii c <=? hi))%nat.

(** The three bytes are one of the white-space code points from U+1680 on. *)
Definition wideSpace (c d e : ascii) : bool :=
  (Ascii.eqb c "225" && Ascii.eqb d "154" && Ascii.eqb e "128")
  || (Ascii.eqb c "226" && Ascii.eqb d "128"
      && (between 128 138 e || Ascii.eqb e "168" || Ascii.eqb e "169"
          || Ascii.eqb e "175"))
  || (Ascii.eqb c "226" && Ascii.eqb d "129" && Ascii.eqb e "159")
  || (Ascii.eqb c "227" && Ascii.eqb d "128" && Ascii.eqb e "128")
  || (Ascii.eqb c "239" && Ascii.eqb d "187" && Ascii.eqb e "191").

(** The number of bytes of the white-space code point [s] starts with, [0]
    when it starts with none. *)
Definition spaceWidth (s : string) : nat :=
  match s with
  | String c r =>
      if Ascii.is_space c then 1
      else
        match r with
        | String d r' =>
            if Ascii.eqb c "194" && Ascii.eqb d "160" then 2
            else
              match r' with
              | String e _ => if wideSpace c d e then 3 else 0
              | "" => 0
              end
        | "" => 0
        end
  | "" => 0
  end.

(** [String.prototype.trimStart]; [skip] counts the bytes of the current
    code point still to drop. *)
Fixpoint dropSpaces (skip : nat) (s : string) : string :=
  match s with
  | "" => ""
  | String _ r =>
      match skip with
      | S k => dropSpaces k r
      | O =>
          match spaceWidth s with
          | S k => dropSpaces k r
          | O => s
          end
      end
  end.

Definition trimStart (s : string) : string := dropSpaces 0 s.

(** The text is white space only. *)
Definition blank (s : string) : bool := String.eqb (trimStart s) "".

(** [String.prototype.trimEnd]: the text up to its white-space tail. *)
Fixpoint trimEnd (s : string) : string :=
  match s with
  | "" => ""
  | String c r => if blank s then "" else String c (trimEnd r)
  end.

Definition trim (s : string) : string := trimEnd (trimStart s).

(** [String.prototype.startsWith] *)
Definition startsWith (s p : string) : bool := String.prefix p s.

(** [String.prototype.includes] *)
Fixpoint includes (s p : string) : bool :=
  String.prefix p s ||
  match s with
  | String _ s' => includes s' p
  | "" => false
  end.

(** A string in a condition: the empty string is falsy. *)
Definition truthy (s : string) : bool :=
  match s with "" => false | _ => true end.

(** [s.replace(/^\.?\//, '')]: drops one leading [./] or [/]. *)
Definition stripLeadingSlash (s : string) : string :=
  match s with
  | String "."%char (String "/"%char r) => r
  | String "/"%char r => r
  | _ => s
  end.

End JS.

(** ** Data *)

Definition pid := nat.

Inductive Signal := SIGTERM | SIGKILL.

(** What the class reads of an [fs.Stats]: [mtime.getTime()] in milliseconds
    and [size] in bytes. *)
Record Stats := { st_mtime : Z; st_size : Z }.

(** The return type of [getFileStats]: [{ exists: boolean; mtime?: Date }]. *)
Record FileStats := { exists_ : bool; mtime : option Z }.

(** The result object of [child_process.spawnSync]; a field that is [null] or
    absent is [None], a Buffer is its text. *)
Record SpawnSyncReturns := {
  error : option string;
  status : option Z;
  stdout : option string;
  stderr : option string
}.

(** The options object of [child_process.spawn]. *)
Inductive ShellOption := ShellDefault | ShellCustom (sh : string) | ShellNone.
Record SpawnOptions := {
  so_cwd : string;
  so_env : option (list (string * string));
  so_shell : ShellOption
}.

(** What the listeners of one spawned process close over. *)
Record Closure := { beforeStats : FileStats; compileCommandsPath : string }.

(** A [ChildProcess] object.  [killed] is Node's flag: a signal was delivered
    through [kill]; it does not say that the process has ended.  [handle]
    tells whether the operating-system process is still there. *)
Record ChildProcess := {
  killed : bool;
  handle : bool;
  listeners : option Closure
}.

(** The fields of the class ([outputManager] is the sink of the events). *)
Record DeepRouteCompileCommands := {
  currentProcess : option pid;
  workspaceRoot : string;
  workspaceRootValid : bool
}.

(** The object together with the process objects it has created. *)
Record Runtime := {
  this : DeepRouteCompileCommands;
  procs : list ChildProcess
}.

(** Every call that leaves the class. *)
Inductive Event :=
| OutShow
| OutAppendLine (text : string)
| OutAppend (text : string)
| ShowWarningMessage (msg : string) (items : list string)
| ShowErrorMessage (msg : string) (items : list string)
| ShowInformationMessage (msg : string)
| GetConfiguration
| SpawnSync (cmd : string) (args : list string) (result : SpawnSyncReturns)
| ExecSync (cmd : string)
| ExistsSync (path : string)
| StatSync (path : string)
| Spawn (cmd : string) (args : list string) (opts : SpawnOptions) (p : pid)
| Kill (p : pid) (sig : Signal)
| SetTimeout (ms : Z)
| GetCommands
| ExecuteCommand (cmd : string)
| WithProgress (title : string)
| Homedir
| AddToHistory (command : string) (cwd : option string).

Definition Trace := list Event.

(** ** Statements *)

Inductive Result (A : Type) := Value (a : A) | Raised (message : string).
Arguments Value {A} a.
Arguments Raised {A} message.

Inductive Completion (R A : Type) :=
| Normal (a : A)
| Returned (r : R)
| Thrown (message : string).
Arguments Normal {R A} a.
Arguments Returned {R A} r.
Arguments Thrown {R A} message.

Definition Stmt (R A : Type) : Type :=
  Runtime -> Completion R A * Runtime * Trace.

Definition ret {R A} (a : A) : Stmt R A := fun rt => (Normal a, rt, []).
Definition return_ {R A} (r : R) : Stmt R A := fun rt => (Returned r, rt, []).
Definition throw {R A} (m : string) : Stmt R A := fun rt => (Thrown m, rt, []).

Definition bind {R A B} (m : Stmt R A) (k : A -> Stmt R B) : Stmt R B :=
  fun rt =>
    match m rt with
    | (Normal a, rt1, t1) =>
        match k a rt1 with (c, rt2, t2) => (c, rt2, t1 ++ t2) end
    | (Returned r, rt1, t1) => (Returned r, rt1, t1)
    | (Thrown e, rt1, t1) => (Thrown e, rt1, t1)
    end.

Notation "'let!' x ':=' m 'in' k" := (bind m (fun x => k))
  (at level 10, x name, m at level 100, k at level 200, only parsing).
Notation "m >> k" := (bind m (fun _ => k))
  (at level 100, k at level 200, right associativity, only parsing).

(** [try { body } catch (e) { handler }]: a [return] inside leaves the
    function, only an exception reaches the handler. *)
Definition try_catch {R A} (body : Stmt R A) (handler : string -> Stmt R A)
  : Stmt R A :=
  fun rt =>
    match body rt with
    | (Thrown e, rt1, t1) =>
        match handler e rt1 with (c, rt2, t2) => (c, rt2, t1 ++ t2) end
    | other => other
    end.

(** A function body: [return r] and falling off the end both hand a value
    to the caller. *)
Definition fn {R A} (body : Stmt A A) : Stmt R A :=
  fun rt =>
    match body rt with
    | (Normal a, rt1, t1) => (Normal a, rt1, t1)
    | (Returned a, rt1, t1) => (Normal a, rt1, t1)
    | (Thrown e, rt1, t1) => (Thrown e, rt1, t1)
    end.

Definition when {R} (c : bool) (body : Stmt R unit) : Stmt R unit :=
  if c then body else ret tt.

Definition emit {R} (e : Event) : Stmt R unit := fun rt => (Normal tt, rt, [e]).

Definition getThis {R} : Stmt R DeepRouteCompileCommands :=
  fun rt => (Normal (this rt), rt, []).

Definition setCurrentProcess {R} (p : option pid) : Stmt R unit :=
  fun rt =>
    (Normal tt,
     {| this := {| currentProcess := p;
                   workspaceRoot := workspaceRoot (this rt);
                   workspaceRootValid := workspaceRootValid (this rt) |};
        procs := procs rt |},
     []).

Definition setWorkspaceRootValid {R} (b : bool) : Stmt R unit :=
  fun rt =>
    (Normal tt,
     {| this := {| currentProcess := currentProcess (this rt);
                   workspaceRoot := workspaceRoot (this rt);
                   workspaceRootValid := b |};
        procs := procs rt |},
     []).

Definition getProcs {R} : Stmt R (list ChildProcess) :=
  fun rt => (Normal (procs rt), rt, []).

Definition setProcs {R} (ps : list ChildProcess) : Stmt R unit :=
  fun rt => (Normal tt, {| this := this rt; procs := ps |}, []).

Definition fromResult {R A} (r : Result A) : Stmt R A :=
  match r with Value a => ret a | Raised m => throw m end.

(** What a run leaves behind. *)
Definition completion {R A} (x : Completion R A * Runtime * Trace) := x.1.1.
Definition final {R A} (x : Completion R A * Runtime * Trace) := x.1.2.
Definition trace {R A} (x : Completion R A * Runtime * Trace) := x.2.

(** ** The calls into Node and VS Code *)

Definition appendLine {R} (text : string) : Stmt R unit := emit (OutAppendLine text).
Definition append {R} (text : string) : Stmt R unit := emit (OutAppend text).
Definition showInformationMessage {R} (msg : string) : Stmt R unit :=
  emit (ShowInformationMessage msg).
Definition showErrorMessage {R} (msg : string) : Stmt R unit :=
  emit (ShowErrorMessage msg []).

(** [await vscode.window.showWarningMessage(msg, ...items)]: the button the
    user chose, [None] ([undefined]) when the dialog was dismissed. *)
Definition showWarningMessage {R} (msg : string) (items : list string)
    (answer : option string) : Stmt R (option string) :=
  emit (ShowWarningMessage msg items) >> ret answer.

Definition spawnSync {R} (cmd : string) (args : list string)
    (answer : SpawnSyncReturns) : Stmt R SpawnSyncReturns :=
  emit (SpawnSync cmd args answer) >> ret answer.

(** [child_process.execSync]: throws when the command fails or times out. *)
Definition execSync {R} (cmd : string) (answer : Result string) : Stmt R string :=
  emit (ExecSync cmd) >> fromResult answer.

Definition existsSync {R} (path : string) (answer : bool) : Stmt R bool :=
  emit (ExistsSync path) >> ret answer.

Definition statSync {R} (path : string) (answer : Result Stats) : Stmt R Stats :=
  emit (StatSync path) >> fromResult answer.

(** [buffer.toString()] on a field of a [spawnSync] result: a [TypeError] when
    the field is [null], as it is when the child could not be spawned. *)
Definition toString {R} (field : option string) : Stmt R string :=
  match field with
  | Some s => ret s
  | None => throw "TypeError: Cannot read properties of null (reading 'toString')"
  end.

(** The text holds a NUL byte. *)
Fixpoint hasNul (s : string) : bool :=
  match s with
  | "" => false
  | String c r => Ascii.eqb c "000" || hasNul r
  end.

(** The arguments [child_process.spawn] does not accept: an empty command,
    a NUL byte in the command or in an argument. *)
Definition refused (cmd : string) (args : list string) : bool :=
  negb (JS.truthy cmd) || hasNul cmd || existsb hasNul args.

(** [child_process.spawn]: a fresh process object, [killed] unset; with
    arguments it does not accept it throws and no process is created. *)
Definition spawn {R} (cmd : string) (args : list string) (opts : SpawnOptions)
  : Stmt R pid :=
  if refused cmd args then
    throw "TypeError [ERR_INVALID_ARG_VALUE]: The argument is invalid"
  else
    let! ps := getProcs in
    let p := length ps in
    setProcs (ps ++ [{| killed := false; handle := true; listeners := None |}]) >>
    emit (Spawn cmd args opts p) >>
    ret p.

(** Registering the ['close'], ['error'] and data listeners of a process. *)
Definition on {R} (p : pid) (c : Closure) : Stmt R unit :=
  let! ps := getProcs in
  match ps !! p with
  | Some cp =>
      setProcs (<[p := {| killed := killed cp; handle := handle cp;
                          listeners := Some c |}]> ps)
  | None => ret tt
  end.

(** [subprocess.kill(signal)]: when the process is still there the signal is
    delivered and [killed] is set; when it is gone the call changes nothing. *)
Definition kill {R} (p : pid) (sig : Signal) : Stmt R unit :=
  emit (Kill p sig) >>
  let! ps := getProcs in
  match ps !! p with
  | Some cp =>
      when (handle cp)
        (setProcs (<[p := {| killed := true; handle := true;
                             listeners := listeners cp |}]> ps))
  | None => ret tt
  end.

Definition setTimeout {R} (ms : Z) : Stmt R unit := emit (SetTimeout ms).

(** ** The artifact change detector *)

(** The two probes of one [getFileStats] call. *)
Record FsProbe := { probe_exists : bool; probe_stat : Result Stats }.

(** [getFileStats(filePath)] *)
Definition getFileStats {R} (fs : FsProbe) (filePath : string) : Stmt R FileStats :=
  fn (
    try_catch
      (let! present := existsSync filePath (probe_exists fs) in
       if present then
         let! stats := statSync filePath (probe_stat fs) in
         return_ {| exists_ := true; mtime := Some (st_mtime stats) |}
       else ret tt)
      (fun _ => ret tt) >>
    return_ {| exists_ := false; mtime := None |}).

(** [isCompileCommandsUpdated(before, after)] *)
Definition isCompileCommandsUpdated (before after : FileStats) : bool :=
  if negb (exists_ before) && exists_ after then true
  else
    match exists_ before && exists_ after, mtime before, mtime after with
    | true, Some tb, Some ta => (tb <? ta)%Z
    | _, _, _ => false
    end.

(** ** Stopping *)

(** [stop()] *)
Definition stop {R} : Stmt R unit :=
  fn (
    let! self := getThis in
    match currentProcess self with
    | Some p =>
        appendLine (JS.nl +:+ "[Stop] Terminating command execution...") >>
        kill p SIGTERM >>
        setTimeout 3000 >>
        setCurrentProcess None >>
        showInformationMessage "Command execution stopped"
    | None =>
        showInformationMessage "No command is currently running"
    end).

(** The callback [stop] hands to [setTimeout]; it runs 3000 ms later and
    reads [this.currentProcess] then. *)
Definition stopTimeout {R} : Stmt R unit :=
  fn (
    let! self := getThis in
    match currentProcess self with
    | Some p =>
        let! ps := getProcs in
        match ps !! p with
        | Some cp => when (negb (killed cp)) (kill p SIGKILL)
        | None => ret tt
        end
    | None => ret tt
    end).

(** [dispose()] *)
Definition dispose {R} : Stmt R unit :=
  fn (
    let! self := getThis in
    match currentProcess self with
    | Some p => kill p SIGKILL >> setCurrentProcess None
    | None => ret tt
    end).

(** [isRunning()] *)
Definition isRunning (o : DeepRouteCompileCommands) : bool :=
  match currentProcess o with Some _ => true | None => false end.

(** ** The path rewriter *)

(** [(size / 1024 / 1024).toFixed(2)]: the division by a power of two is
    exact, [toFixed] rounds to the nearest hundredth, a tie upwards. *)
Definition two_digits (n : Z) : string :=
  if (n <? 10)%Z then "0" +:+ pretty n else pretty n.

Definition fileSizeMB (size : Z) : string :=
  let n := ((200 * size + 1048576) / 2097152)%Z in
  pretty (n / 100)%Z +:+ "." +:+ two_digits (n mod 100)%Z.

(** [text.split('\n')] *)
Fixpoint splitLines (s : string) : list string :=
  match s with
  | "" => [""]
  | String c s' =>
      if Ascii.eqb c "010"%char then "" :: splitLines s'
      else match splitLines s' with
           | h :: t => String c h :: t
           | [] => [String c ""]
           end
  end.

(** What the calls of one [replaceCompileCommandsPath] activation answer. *)
Record RewriteWorld := {
  rw_exists : bool;
  rw_stat : Result Stats;
  rw_grep_q : SpawnSyncReturns;
  rw_grep_o : SpawnSyncReturns;
  rw_sed : Result string;
  rw_duration : string
}.

(** [replaceCompileCommandsPath(filePath)] *)
Definition replaceCompileCommandsPath {R} (w : RewriteWorld) (filePath : string)
  : Stmt R bool :=
  fn (
    let! self := getThis in
    try_catch
      (appendLine "[Clangd] Updating real paths in compile_commands.json..." >>
       let! present := existsSync filePath (rw_exists w) in
       when (negb present)
         (appendLine ("[Clangd] File does not exist: " +:+ filePath) >>
          return_ false) >>
       let! stats := statSync filePath (rw_stat w) in
       appendLine ("[Clangd] File size: " +:+ fileSizeMB (st_size stats) +:+ " MB") >>
       let! grepResult := spawnSync "grep" ["-q"; "/sandbox"; filePath] (rw_grep_q w) in
       when (negb (bool_decide (status grepResult = Some 0%Z)))
         (appendLine "[Clangd] No /sandbox path found in file, no replacement needed" >>
          return_ false) >>
       appendLine "[Clangd] Using sed command for path replacement..." >>
       let! countBeforeResult :=
         spawnSync "grep" ["-o"; "/sandbox"; filePath] (rw_grep_o w) in
       let! out := toString (stdout countBeforeResult) in
       let countBefore :=
         length (List.filter (fun line => JS.truthy (JS.trim line)) (splitLines out)) in
       let sedCommand :=
         "sed -i 's|/sandbox|" +:+ workspaceRoot self +:+ "|g' "
           +:+ JS.dq +:+ filePath +:+ JS.dq in
       try_catch
         (execSync sedCommand (rw_sed w) >>
          appendLine ("[Clangd] Path replacement completed (" +:+ rw_duration w
                      +:+ "s, " +:+ pretty countBefore +:+ " occurrences): /sandbox -> "
                      +:+ workspaceRoot self) >>
          return_ true)
         (fun message =>
            appendLine ("[Clangd] sed command failed: " +:+ message) >>
            appendLine ("[Clangd] Hint: Run manually: sed -i 's|/sandbox|"
                        +:+ workspaceRoot self +:+ "|g' " +:+ filePath) >>
            return_ false))
      (fun message =>
         appendLine ("[Clangd] Path replacement failed: " +:+ message) >>
         return_ false)).

(** ** The refresh *)

Record RefreshWorld := {
  rf_getCommands : Result (list string);
  rf_restart : Result unit
}.

Definition getCommands {R} (answer : Result (list string)) : Stmt R (list string) :=
  emit GetCommands >> fromResult answer.

Definition executeCommand {R} (cmd : string) (answer : Result unit) : Stmt R unit :=
  emit (ExecuteCommand cmd) >> fromResult answer.

(** [text || fallback] *)
Definition orElse (text fallback : string) : string :=
  if JS.truthy text then text else fallback.

(** [error?.message || fallback] *)
Definition messageOr (err : option string) (fallback : string) : string :=
  match err with Some m => orElse m fallback | None => fallback end.

(** [restartClangd(compileCommandsPath)] *)
Definition restartClangd {R} (rw : RewriteWorld) (rf : RefreshWorld)
    (compileCommandsPath : string) : Stmt R unit :=
  fn (
    try_catch
      (appendLine "[Clangd] Preparing to reload compile_commands.json and index C++ symbols..." >>
       let! replaced := replaceCompileCommandsPath rw compileCommandsPath in
       let! allCommands := getCommands (rf_getCommands rf) in
       let clangdCommands :=
         List.filter (fun cmd => JS.startsWith cmd "clangd") allCommands in
       when (length clangdCommands =? 0)%nat
         (appendLine "[Clangd] clangd extension not detected, cannot auto-restart language server" >>
          appendLine ("[Clangd] Hint: Please manually execute " +:+ JS.dq
                      +:+ "clangd: Restart language server" +:+ JS.dq +:+ " command") >>
          emit (ShowWarningMessage
                  "clangd extension not detected. Please restart clangd manually or install the clangd extension" []) >>
          return_ tt) >>
       appendLine "[Clangd] Executing VS Code/Cursor command: clangd: Restart language server, please wait..." >>
       executeCommand "clangd.restart" (rf_restart rf) >>
       appendLine "[Clangd] clangd.restart command sent successfully" >>
       appendLine "[Clangd] clangd is reloading compile_commands.json and indexing C++ symbols in background..." >>
       appendLine "[Clangd] Hint: Indexing may take seconds to minutes, check VS Code/Cursor status bar (bottom right)" >>
       showInformationMessage "compile_commands.json updated, clangd is re-indexing (check status bar)")
      (fun message =>
         appendLine ("[Clangd] Failed to restart language server: "
                     +:+ orElse message "Command execution failed") >>
         appendLine ("[Clangd] Hint: Please manually execute " +:+ JS.dq
                     +:+ "clangd: Restart language server" +:+ JS.dq +:+ " command") >>
         showErrorMessage ("clangd restart failed: " +:+ orElse message "Unknown error"))).

(** ** The listeners of a spawned process *)

Definition dashes : string := "----------------------------------------".
Definition rule : string := "========================================".

Record CloseWorld := {
  cw_after : FsProbe;
  cw_rewrite : RewriteWorld;
  cw_refresh : RefreshWorld
}.

(** [`${code}`] for [code: number | null] *)
Definition showCode (code : option Z) : string :=
  match code with Some c => pretty c | None => "null" end.

(** A signal name in a condition: [null] and the empty string are falsy. *)
Definition signalled (signal : option string) : option string :=
  match signal with
  | Some s => if JS.truthy s then Some s else None
  | None => None
  end.

(** The ['close'] listener, the same text in [executeInDocker] and in
    [executeLocally]. *)
Definition onClose {R} (w : CloseWorld) (c : Closure)
    (code : option Z) (signal : option string) : Stmt R unit :=
  fn (
    appendLine (JS.nl +:+ dashes) >>
    match signalled signal with
    | Some s =>
        appendLine ("Command terminated by signal: " +:+ s) >>
        emit (ShowWarningMessage "Command terminated" [])
    | None =>
        if bool_decide (code = Some 0%Z) then
          appendLine ("Command executed successfully (exit code: " +:+ showCode code +:+ ")") >>
          let! afterStats := getFileStats (cw_after w) (compileCommandsPath c) in
          if isCompileCommandsUpdated (beforeStats c) afterStats then
            appendLine "[Clangd] compile_commands.json has been updated" >>
            restartClangd (cw_rewrite w) (cw_refresh w) (compileCommandsPath c)
          else
            showInformationMessage "Command executed successfully"
        else
          appendLine ("Command execution failed (exit code: " +:+ showCode code +:+ ")") >>
          showErrorMessage ("Command failed with exit code: " +:+ showCode code)
    end >>
    appendLine (dashes +:+ JS.nl) >>
    setCurrentProcess None).

(** The ['error'] listener. *)
Definition onError {R} (message : string) : Stmt R unit :=
  fn (
    appendLine (JS.nl +:+ "[Error] " +:+ message) >>
    showErrorMessage ("Command execution failed: " +:+ message) >>
    setCurrentProcess None).

(** The data listeners of stdout and stderr. *)
Definition onData {R} (data : string) : Stmt R unit := append data.

(** The cancellation listener of the progress notification. *)
Definition onCancellationRequested {R} : Stmt R unit := stop.

(** ** Configuration *)

(** An entry of the setting [predefinedCommands]: a bare command string or an
    object [{command, cwd?, alias?, executeLocally?}]. *)
Inductive PredefinedCommand :=
| CmdString (text : string)
| CmdObject (command : string) (cwd alias : option string)
            (executeLocally : option bool).

(** The settings of [deeproute-compile-commands]; [None] is a setting that
    is not set. *)
Record Configuration := {
  cfg_executeLocally : option bool;
  cfg_dockerContainerName : option string;
  cfg_shell : option string;
  cfg_env : option (list (string * string));
  cfg_predefinedCommands : option (list PredefinedCommand)
}.

(** [config.get(key, defaultValue)] *)
Definition config_get {A} (setting : option A) (defaultValue : A) : A :=
  match setting with Some v => v | None => defaultValue end.

(** [x === true] for [x: boolean | undefined] *)
Definition isTrue (x : option bool) : bool :=
  match x with Some true => true | _ => false end.

(** The loop of [executeCommandInternal] over the predefined commands:
    the first object entry with this command text decides. *)
Fixpoint findExecuteLocally (predefinedCommands : list PredefinedCommand)
    (command : string) : option bool :=
  match predefinedCommands with
  | [] => None
  | CmdObject c _ _ e :: rest =>
      if String.eqb c command then Some (isTrue e)
      else findExecuteLocally rest command
  | CmdString _ :: rest => findExecuteLocally rest command
  end.

(** ** Executing *)

(** What the calls of one [execute] activation answer. *)
Record ExecWorld := {
  w_config : Configuration;
  w_confirm : option string;
  w_configureNow : option string;
  w_now : string;
  w_inspect : SpawnSyncReturns;
  w_ps : SpawnSyncReturns;
  w_start : SpawnSyncReturns;
  w_verify : SpawnSyncReturns;
  w_id_u : Result string;
  w_id_g : Result string;
  w_cwdExists : bool;
  w_before : FsProbe;
  w_process_env : list (string * string)
}.

(** [cwd && cwd.trim()] *)
Definition cwdGiven (cwd : option string) : option string :=
  match cwd with
  | Some s => if JS.truthy s && JS.truthy (JS.trim s) then Some (JS.trim s) else None
  | None => None
  end.

(** [result.status !== 0] *)
Definition statusNonZero (r : SpawnSyncReturns) : bool :=
  negb (bool_decide (status r = Some 0%Z)).

Definition isSome {A} (x : option A) : bool :=
  match x with Some _ => true | None => false end.

Definition stopAndExecute : string := "Stop and Execute New Command".

(** The block both [executeInDocker] and [executeLocally] open with. *)
Definition stopCurrentIfAny (w : ExecWorld) : Stmt unit unit :=
  let! self := getThis in
  when (isSome (currentProcess self))
    (let! shouldStop :=
       showWarningMessage "A command is currently running. Stop it?"
         [stopAndExecute; "Cancel"] (w_confirm w) in
     when (negb (bool_decide (shouldStop = Some stopAndExecute)))
       (return_ tt) >>
     stop).

Section Paths.

(** Node's [path.join] and [path.resolve]. *)
Variable path_join : list string -> string.
Variable path_resolve : string -> string -> string.

Definition inspectArgs (containerName : string) : list string :=
  ["inspect"; "--format"; "{{.State.Running}}"; containerName].

(** [executeInDocker(containerName, command, cwd)] *)
Definition executeInDocker {R} (w : ExecWorld)
    (containerName command : string) (cwd : option string) : Stmt R unit :=
  fn (
    stopCurrentIfAny w >>
    let! self := getThis in
    let containerWorkDir :=
      match cwdGiven cwd with
      | Some trimmed => "/sandbox/" +:+ JS.stripLeadingSlash trimmed
      | None => "/sandbox"
      end in
    emit OutShow >>
    appendLine (JS.nl +:+ rule) >>
    appendLine ("Executing: " +:+ command) >>
    appendLine "Docker Mode: Yes" >>
    appendLine ("Container: " +:+ containerName) >>
    appendLine ("Working Dir: " +:+ containerWorkDir) >>
    appendLine ("Time: " +:+ w_now w) >>
    appendLine (rule +:+ JS.nl) >>
    let! inspectResult :=
      spawnSync "docker" (inspectArgs containerName) (w_inspect w) in
    match error inspectResult with
    | Some message =>
        appendLine ("Docker is not accessible: " +:+ message) >>
        appendLine "Please ensure Docker Desktop/Engine is running." >>
        showErrorMessage "Docker is not running. Please start Docker Desktop/Engine and try again." >>
        return_ tt
    | None => ret tt
    end >>
    when (statusNonZero inspectResult)
      (let! err := toString (stderr inspectResult) in
       let errorMsg := JS.trim err in
       when (JS.includes errorMsg "No such object"
             || JS.includes errorMsg "Error: No such container")
         (appendLine ("Container '" +:+ containerName +:+ "' does not exist") >>
          appendLine (JS.nl +:+ "Available containers:") >>
          let! listResult :=
            spawnSync "docker" ["ps"; "-a"; "--format"; "{{.Names}}"] (w_ps w) in
          let! out := toString (stdout listResult) in
          let availableContainers := JS.trim out in
          (if JS.truthy availableContainers
           then appendLine availableContainers
           else appendLine "   (No containers found)") >>
          showErrorMessage ("Docker container '" +:+ containerName
             +:+ "' does not exist. Please check container name in settings.") >>
          return_ tt) >>
       appendLine ("Docker error: " +:+ errorMsg) >>
       showErrorMessage ("Docker error: " +:+ errorMsg) >>
       return_ tt) >>
    let! out := toString (stdout inspectResult) in
    let isRunning := String.eqb (JS.trim out) "true" in
    when (negb isRunning)
      (appendLine ("Container '" +:+ containerName +:+ "' is stopped") >>
       appendLine "Starting container..." >>
       let! startResult := spawnSync "docker" ["start"; containerName] (w_start w) in
       when (isSome (error startResult) || statusNonZero startResult)
         (let errorMsg :=
            match stderr startResult with
            | Some e =>
                orElse (JS.trim e) (messageOr (error startResult) "Unknown error")
            | None => messageOr (error startResult) "Unknown error"
            end in
          appendLine ("Failed to start container: " +:+ errorMsg) >>
          appendLine (JS.nl +:+ "Possible reasons:") >>
          appendLine "   - Container configuration error" >>
          appendLine "   - Required resources not available" >>
          appendLine ("   - Check logs: docker logs " +:+ containerName) >>
          showErrorMessage ("Docker container failed to start: " +:+ errorMsg) >>
          return_ tt) >>
       let! verifyResult :=
         spawnSync "docker" (inspectArgs containerName) (w_verify w) in
       let! nowRunning :=
         (if bool_decide (status verifyResult = Some 0%Z) then
            let! v := toString (stdout verifyResult) in
            ret (String.eqb (JS.trim v) "true")
          else ret false) in
       when (negb nowRunning)
         (appendLine "Container started but not running (may have crashed)" >>
          appendLine ("Check container logs: docker logs " +:+ containerName) >>
          showErrorMessage "Container started but immediately stopped. Check Docker logs." >>
          return_ tt) >>
       appendLine ("Container started and verified running" +:+ JS.nl)) >>
    let hostWorkDir :=
      match cwdGiven cwd with
      | Some trimmed =>
          path_resolve (workspaceRoot self) (JS.stripLeadingSlash trimmed)
      | None => workspaceRoot self
      end in
    let compileCommandsPath := path_join [hostWorkDir; "compile_commands.json"] in
    let! beforeStats := getFileStats (w_before w) compileCommandsPath in
    let! u := execSync "id -u" (w_id_u w) in
    let uid := JS.trim u in
    let! g := execSync "id -g" (w_id_g w) in
    let gid := JS.trim g in
    let dockerArgs :=
      ["exec"; "-i"; "-w"; "/sandbox"; "-u"; uid +:+ ":" +:+ gid;
       containerName; "bash"; "-c";
       "cd " +:+ containerWorkDir +:+ " && " +:+ command] in
    emit (WithProgress ("Executing in container: " +:+ command)) >>
    (* [withProgress] is not awaited here: what its task throws is a rejected
       promise nobody waits for *)
    try_catch
      (let! p := spawn "docker" dockerArgs
                   {| so_cwd := workspaceRoot self; so_env := None;
                      so_shell := ShellNone |} in
       setCurrentProcess (Some p) >>
       on p {| beforeStats := beforeStats;
               compileCommandsPath := compileCommandsPath |})
      (fun _ => ret tt)).

(** [executeLocally(command, cwd)] *)
Definition executeLocally {R} (w : ExecWorld)
    (command : string) (cwd : option string) : Stmt R unit :=
  fn (
    stopCurrentIfAny w >>
    let! self := getThis in
    let! actualCwd :=
      match cwdGiven cwd with
      | Some trimmed =>
          let actualCwd := path_resolve (workspaceRoot self) trimmed in
          let! present := existsSync actualCwd (w_cwdExists w) in
          when (negb present)
            (showErrorMessage ("Specified directory does not exist: " +:+ actualCwd) >>
             return_ tt) >>
          ret actualCwd
      | None => ret (workspaceRoot self)
      end in
    let compileCommandsPath := path_join [actualCwd; "compile_commands.json"] in
    let! beforeStats := getFileStats (w_before w) compileCommandsPath in
    emit GetConfiguration >>
    let customShell := config_get (cfg_shell (w_config w)) "" in
    let customEnv := config_get (cfg_env (w_config w)) [] in
    let env := w_process_env w ++ customEnv in
    emit OutShow >>
    appendLine (JS.nl +:+ rule) >>
    appendLine ("Executing: " +:+ command) >>
    appendLine "Execution Mode: Local" >>
    appendLine ("Working Dir: " +:+ actualCwd) >>
    appendLine ("Time: " +:+ w_now w) >>
    appendLine (rule +:+ JS.nl) >>
    let spawnOptions :=
      {| so_cwd := actualCwd; so_env := Some env;
         so_shell := if JS.truthy customShell then ShellCustom customShell
                     else ShellDefault |} in
    emit (WithProgress ("Executing: " +:+ command)) >>
    let! p := spawn command [] spawnOptions in
    setCurrentProcess (Some p) >>
    on p {| beforeStats := beforeStats;
            compileCommandsPath := compileCommandsPath |}).

(** [shouldExecuteLocally] of [execute] *)
Definition shouldExecuteLocally (perCommand : option bool)
    (config : Configuration) : bool :=
  isTrue perCommand || config_get (cfg_executeLocally config) false.

Definition defaultContainerName : string := "deeproute-dev-x86-2004".

(** [!dockerContainerName || !dockerContainerName.trim()] *)
Definition containerNotConfigured (dockerContainerName : string) : bool :=
  negb (JS.truthy dockerContainerName)
  || negb (JS.truthy (JS.trim dockerContainerName)).

(** [execute(command, cwd, executeLocally)] *)
Definition execute {R} (w : ExecWorld) (command : string)
    (cwd : option string) (perCommand : option bool) : Stmt R unit :=
  fn (
    let! self := getThis in
    when (negb (workspaceRootValid self))
      (appendLine (JS.nl +:+ "[Error] Workspace root does not meet requirements, cannot execute command") >>
       showErrorMessage "Workspace root does not meet requirements. Please open the project in the correct directory" >>
       return_ tt) >>
    emit GetConfiguration >>
    let dockerContainerName :=
      config_get (cfg_dockerContainerName (w_config w)) defaultContainerName in
    if shouldExecuteLocally perCommand (w_config w) then
      executeLocally w command cwd
    else
      when (containerNotConfigured dockerContainerName)
        (emit OutShow >>
         appendLine (JS.nl +:+ rule) >>
         appendLine "Docker Container Not Configured" >>
         appendLine rule >>
         appendLine (JS.nl +:+ "This plugin requires Docker container configuration.") >>
         appendLine (JS.nl +:+ "How to configure:") >>
         appendLine "   1. Open Command Palette (Ctrl/Cmd + Shift + P)" >>
         appendLine ("   2. Search: " +:+ JS.dq
            +:+ "DeepRoute Compile Commands: Configure Docker Container" +:+ JS.dq) >>
         appendLine "   3. Enter your container name (e.g., deeproute-dev-x86-2004)" >>
         appendLine (JS.nl +:+ "   Or manually add to settings.json:") >>
         appendLine ("   " +:+ JS.dq +:+ "deeproute-compile-commands.dockerContainerName"
            +:+ JS.dq +:+ ": " +:+ JS.dq +:+ "your-container-name" +:+ JS.dq) >>
         appendLine (JS.nl +:+ rule +:+ JS.nl) >>
         emit (ShowErrorMessage
                 "Docker container is not configured. Please configure it in settings."
                 ["Configure Now"]) >>
         when (bool_decide (w_configureNow w = Some "Configure Now"))
           (emit (ExecuteCommand "deeproute-compile-commands.configureDocker")) >>
         return_ tt) >>
      executeInDocker w (JS.trim dockerContainerName) command cwd).

(** [checkWorkspaceRoot()] *)
Definition checkWorkspaceRoot {R} (homeDir : string) : Stmt R bool :=
  fn (
    let! self := getThis in
    emit Homedir >>
    let expectedRoot := path_join [homeDir; "codetree"; "repo"] in
    when (negb (String.eqb (workspaceRoot self) expectedRoot))
      (showErrorMessage
         ("Workspace root must be $HOME/codetree/repo" +:+ JS.nl
          +:+ "Expected: " +:+ expectedRoot +:+ JS.nl
          +:+ "Actual: " +:+ workspaceRoot self) >>
       return_ false) >>
    return_ true).

(** [new DeepRouteCompileCommands(workspaceRoot, outputManager)] *)
Definition constructor (homeDir workspaceRoot : string)
  : Completion unit unit * Runtime * Trace :=
  (let! valid := checkWorkspaceRoot homeDir in
   setWorkspaceRootValid valid)
    {| this := {| currentProcess := None;
                  workspaceRoot := workspaceRoot;
                  workspaceRootValid := false |};
       procs := [] |}.

(** [executeCommandInternal(command, cwd)] of the extension, on an
    orchestrator that exists. *)
Definition executeCommandInternal {R} (w : ExecWorld) (command : string)
    (cwd : option string) : Stmt R unit :=
  fn (
    emit (AddToHistory command cwd) >>
    emit GetConfiguration >>
    let predefinedCommands :=
      config_get (cfg_predefinedCommands (w_config w)) [] in
    execute w command cwd (findExecuteLocally predefinedCommands command)).

(** ** The life of the object *)

(** What can happen to the object after its construction. *)
Inductive Action :=
| Execute (w : ExecWorld) (command : string) (cwd : option string)
          (perCommand : option bool)
| ExecuteCommandInternal (w : ExecWorld) (command : string) (cwd : option string)
| Stop
| CancellationRequested
| StopTimeout
| DataEvent (p : pid) (data : string)
| ErrorEvent (p : pid) (message : string)
| CloseEvent (p : pid) (code : option Z) (signal : option string) (w : CloseWorld)
| Dispose.

(** The process is gone when ['close'] is emitted. *)
Definition released {R} (p : pid) : Stmt R unit :=
  let! ps := getProcs in
  match ps !! p with
  | Some cp =>
      setProcs (<[p := {| killed := killed cp; handle := false;
                          listeners := listeners cp |}]> ps)
  | None => ret tt
  end.

(** The listeners of process [p], if it has any. *)
Definition withListeners {R} (p : pid) (body : Closure -> Stmt R unit)
  : Stmt R unit :=
  let! ps := getProcs in
  match ps !! p with
  | Some {| listeners := Some c |} => body c
  | _ => ret tt
  end.

Definition step (a : Action) : Stmt unit unit :=
  match a with
  | Execute w command cwd perCommand => execute w command cwd perCommand
  | ExecuteCommandInternal w command cwd => executeCommandInternal w command cwd
  | Stop => stop
  | CancellationRequested => onCancellationRequested
  | StopTimeout => stopTimeout
  | DataEvent p data => withListeners p (fun _ => onData data)
  | ErrorEvent p message => withListeners p (fun _ => onError message)
  | CloseEvent p code signal w =>
      released p >> withListeners p (fun c => onClose w c code signal)
  | Dispose => dispose
  end.

(** A run of the object: an exception of one activation (a rejected
    promise) does not stop the following ones. *)
Fixpoint run (actions : list Action) (rt : Runtime) : Runtime * Trace :=
  match actions with
  | [] => (rt, [])
  | a :: rest =>
      let r := step a rt in
      let r' := run rest (final r) in
      (r'.1, trace r ++ r'.2)
  end.

End Paths.

(** * Observations *)

Definition absent : FileStats := {| exists_ := false; mtime := None |}.

(** The snapshot a pair of probe answers stands for. *)
Definition snapshot (fs : FsProbe) : FileStats :=
  match probe_exists fs, probe_stat fs with
  | true, Value st => {| exists_ := true; mtime := Some (st_mtime st) |}
  | _, _ => absent
  end.

(** The events of one [getFileStats] call. *)
Definition snapshotEvents (fs : FsProbe) (path : string) : Trace :=
  if probe_exists fs then [ExistsSync path; StatSync path] else [ExistsSync path].

(** A handle the object holds. *)
Definition handles (o : DeepRouteCompileCommands) : list pid :=
  match currentProcess o with Some p => [p] | None => [] end.

(** The dialog that asks whether the running command may be stopped. *)
Definition confirmPrompt : Event :=
  ShowWarningMessage "A command is currently running. Stop it?"
    [stopAndExecute; "Cancel"].

(** An event that creates a child process; every call of the container
    runtime is one, as [docker] is only ever run as a child process. *)
Definition startsProcess (e : Event) : bool :=
  match e with
  | Spawn _ _ _ _ | SpawnSync _ _ _ | ExecSync _ => true
  | _ => false
  end.

Definition isSpawn (e : Event) : bool :=
  match e with Spawn _ _ _ _ => true | _ => false end.

Definition isKill (e : Event) : bool :=
  match e with Kill _ _ => true | _ => false end.

(** An event that probes the file system. *)
Definition probesFile (e : Event) : bool :=
  match e with ExistsSync _ | StatSync _ => true | _ => false end.

(** The events in front of the first [Spawn], when there is one. *)
Fixpoint beforeSpawn (t : Trace) : option Trace :=
  match t with
  | [] => None
  | Spawn _ _ _ _ :: _ => Some []
  | e :: rest =>
      match beforeSpawn rest with
      | Some pre => Some (e :: pre)
      | None => None
      end
  end.

(** The last synchronous [docker] call of a trace: its arguments and what
    it answered. *)
Fixpoint lastContainerCall (t : Trace) : option (list string * SpawnSyncReturns) :=
  match t with
  | [] => None
  | e :: rest =>
      match lastContainerCall rest with
      | Some c => Some c
      | None =>
          match e with
          | SpawnSync cmd args r =>
              if String.eqb cmd "docker" then Some (args, r) else None
          | _ => None
          end
      end
  end.

(** An [inspect] answer that says the container is running. *)
Definition reportsRunning (r : SpawnSyncReturns) : bool :=
  bool_decide (status r = Some 0%Z) &&
  match stdout r with
  | Some out => String.eqb (JS.trim out) "true"
  | None => false
  end.

(** The refresh: the [clangd.restart] command of the clangd extension. *)
Definition isRefresh (e : Event) : bool :=
  match e with
  | ExecuteCommand c => String.eqb c "clangd.restart"
  | _ => false
  end.

(** The refresh was invoked. *)
Definition refreshed (t : Trace) : bool := existsb isRefresh t.

(** The process ended on its own with exit code 0. *)
Definition cleanExit (code : option Z) (signal : option string) : bool :=
  match signalled signal with
  | Some _ => false
  | None => bool_decide (code = Some 0%Z)
  end.

(** A notification shown to the user. *)
Definition isNotification (e : Event) : bool :=
  match e with
  | ShowWarningMessage _ _ | ShowErrorMessage _ _ | ShowInformationMessage _ => true
  | _ => false
  end.

(** The capability check of [restartClangd] finds a clangd command. *)
Definition clangdAvailable (rf : RefreshWorld) : bool :=
  match rf_getCommands rf with
  | Value allCommands =>
      negb (length (List.filter (fun cmd => JS.startsWith cmd "clangd") allCommands) =? 0)%nat
  | Raised _ => false
  end.

(** The text substitution of the rewriter: the [sed] call. *)
Definition isSubstitution (e : Event) : bool :=
  match e with ExecSync _ => true | _ => false end.

(** An event of the rewriter or of the refresh. *)
Definition rewritesOrRefreshes (e : Event) : bool :=
  match e with
  | SpawnSync _ _ _ | ExecSync _ | GetCommands | ExecuteCommand _ => true
  | _ => false
  end.

(** What [stop] emits when it stops process [p]. *)
Definition stopEvents (p : pid) : Trace :=
  [OutAppendLine (JS.nl +:+ "[Stop] Terminating command execution...");
   Kill p SIGTERM;
   SetTimeout 3000;
   ShowInformationMessage "Command execution stopped"].

(** A run with events in front. *)
Definition prepend {R A} (t0 : Trace) (x : Completion R A * Runtime * Trace)
  : Completion R A * Runtime * Trace := (x.1.1, x.1.2, t0 ++ x.2).

(** What [execute] emits when the workspace root is not the required one. *)
Definition rootRejected : Trace :=
  [OutAppendLine (JS.nl +:+ "[Error] Workspace root does not meet requirements, cannot execute command");
   ShowErrorMessage "Workspace root does not meet requirements. Please open the project in the correct directory" []].

(** The notification of a container that is not configured. *)
Definition notConfiguredMessage : Event :=
  ShowErrorMessage "Docker container is not configured. Please configure it in settings."
    ["Configure Now"].

(** The event is that notification. *)
Definition isNotConfigured (e : Event) : bool :=
  match e with
  | ShowErrorMessage msg _ =>
      String.eqb msg "Docker container is not configured. Please configure it in settings."
  | _ => false
  end.

(** No object entry of the list has this command text; bare strings do not
    count. *)
Definition noEntry (command : string) (entries : list PredefinedCommand) : bool :=
  forallb (fun entry =>
             match entry with
             | CmdObject c _ _ _ => negb (String.eqb c command)
             | CmdString _ => true
             end) entries.

(** The container name [execute] works with. *)
Definition containerIdentity (config : Configuration) : string :=
  config_get (cfg_dockerContainerName config) defaultContainerName.

(** A statement that leaves the workspace root and its validity flag alone
    and does not ask for the home directory. *)
Definition keepsRoot {R A} (m : Stmt R A) : Prop :=
  forall rt,
    workspaceRoot (this (final (m rt))) = workspaceRoot (this rt)
    /\ workspaceRootValid (this (final (m rt))) = workspaceRootValid (this rt)
    /\ ~ In Homedir (trace (m rt)).

(** The look at the home directory. *)
Definition asksHome (e : Event) : bool :=
  match e with Homedir => true | _ => false end.

(** The only workspace root [checkWorkspaceRoot] accepts. *)
Definition expectedRoot (path_join : list string -> string) (homeDir : string)
  : string := path_join [homeDir; "codetree"; "repo"].

(** ** Sample inputs *)

Definition posixJoin (parts : list string) : string := String.concat "/" parts.
Definition posixResolve (from to : string) : string := from +:+ "/" +:+ to.

Definition sampleHome : string := "/home/dev".
Definition sampleRoot : string := "/home/dev/codetree/repo".
Definition sampleArtifact : string := "/home/dev/codetree/repo/compile_commands.json".

Definition sampleClosure : Closure :=
  {| beforeStats := absent; compileCommandsPath := sampleArtifact |}.

(** An object with no command running. *)
Definition idle : Runtime :=
  {| this := {| currentProcess := None; workspaceRoot := sampleRoot;
                workspaceRootValid := true |};
     procs := [] |}.

(** An object whose command, process 0, is running. *)
Definition busy : Runtime :=
  {| this := {| currentProcess := Some 0; workspaceRoot := sampleRoot;
                workspaceRootValid := true |};
     procs := [{| killed := false; handle := true;
                  listeners := Some sampleClosure |}] |}.

Definition exited (code : Z) (out err : string) : SpawnSyncReturns :=
  {| error := None; status := Some code; stdout := Some out; stderr := Some err |}.

(** A child that could not be spawned: no status, no output buffers. *)
Definition notSpawned (message : string) : SpawnSyncReturns :=
  {| error := Some message; status := None; stdout := None; stderr := None |}.

Definition config (global : option bool) (container : option string)
    (commands : list PredefinedCommand) : Configuration :=
  {| cfg_executeLocally := global; cfg_dockerContainerName := container;
     cfg_shell := None; cfg_env := None;
     cfg_predefinedCommands := Some commands |}.

Definition world (cfg : Configuration) (confirm : option string)
    (inspect ps start verify : SpawnSyncReturns) : ExecWorld :=
  {| w_config := cfg; w_confirm := confirm; w_configureNow := None;
     w_now := "2024-01-01 10:00:00";
     w_inspect := inspect; w_ps := ps; w_start := start; w_verify := verify;
     w_id_u := Value ("1000" +:+ JS.nl); w_id_g := Value ("1000" +:+ JS.nl);
     w_cwdExists := true;
     w_before := {| probe_exists := false; probe_stat := Raised "ENOENT" |};
     w_process_env := [("PATH", "/usr/bin")] |}.

Definition running : SpawnSyncReturns := exited 0 ("true" +:+ JS.nl) "".
Definition stopped : SpawnSyncReturns := exited 0 ("false" +:+ JS.nl) "".

(** The container is there and running. *)
Definition containerUp (confirm : option string) : ExecWorld :=
  world (config None (Some "dev") []) confirm running (exited 0 "" "")
        (exited 0 "dev" "") running.

(** The container name is not set, and a container of the default name
    runs. *)
Definition nameUnset : ExecWorld :=
  world (config None None []) None running (exited 0 "" "")
        (exited 0 defaultContainerName "") running.

(** U+00A0, the no-break space. *)
Definition nbsp : string := String "194" (String "160" "").

(** The command is predefined as a bare string and, behind it, as an object
    with the switch on. *)
Definition entryLocal : ExecWorld :=
  world (config None (Some "dev")
           [CmdString "make"; CmdObject "make" None (Some "Build") (Some true)])
        None running (exited 0 "" "") (exited 0 "dev" "") running.

(** A rewrite whose [sed] fails. *)
Definition sedFails : RewriteWorld :=
  {| rw_exists := true;
     rw_stat := Value {| st_mtime := 7; st_size := 1572864 |};
     rw_grep_q := exited 0 "" "";
     rw_grep_o := exited 0 ("/sandbox" +:+ JS.nl +:+ "/sandbox" +:+ JS.nl) "";
     rw_sed := Raised "Command failed: sed";
     rw_duration := "0.01" |}.

(** A rewrite on a file that is not there. *)
Definition fileGone : RewriteWorld :=
  {| rw_exists := false; rw_stat := Raised "ENOENT";
     rw_grep_q := exited 2 "" ""; rw_grep_o := exited 2 "" "";
     rw_sed := Raised "Command failed: sed"; rw_duration := "0.00" |}.

(** A file without the marker: [grep -q] exits with 1. *)
Definition noMarker : RewriteWorld :=
  {| rw_exists := true;
     rw_stat := Value {| st_mtime := 7; st_size := 52428 |};
     rw_grep_q := exited 1 "" ""; rw_grep_o := exited 1 "" "";
     rw_sed := Value ""; rw_duration := "0.00" |}.

Definition clangdInstalled : RefreshWorld :=
  {| rf_getCommands := Value ["editor.action.formatDocument"; "clangd.restart"];
     rf_restart := Value tt |}.

Definition clangdMissing : RefreshWorld :=
  {| rf_getCommands := Value ["editor.action.formatDocument"];
     rf_restart := Value tt |}.

(** The artifact appeared during the run. *)
Definition artifactAppeared (rw : RewriteWorld) (rf : RefreshWorld) : CloseWorld :=
  {| cw_after := {| probe_exists := true;
                    probe_stat := Value {| st_mtime := 7; st_size := 1572864 |} |};
     cw_rewrite := rw; cw_refresh := rf |}.

(** Lines and messages the properties name. *)
Definition updatingLine : Event :=
  OutAppendLine "[Clangd] Updating real paths in compile_commands.json...".
Definition preparingLine : Event :=
  OutAppendLine "[Clangd] Preparing to reload compile_commands.json and index C++ symbols...".
Definition successLine : Event :=
  OutAppendLine "Command executed successfully (exit code: 0)".
Definition reindexingMessage : Event :=
  ShowInformationMessage "compile_commands.json updated, clangd is re-indexing (check status bar)".

Definition noSuchObject : SpawnSyncReturns :=
  exited 1 "" ("Error: No such object: dev" +:+ JS.nl).

(** The container is missing, and [docker ps] answers [ps]. *)
Definition containerMissing (ps : SpawnSyncReturns) : ExecWorld :=
  world (config None (Some "dev") []) None noSuchObject ps
        (exited 0 "dev" "") running.

Definition containerNotFound (name : string) : Event :=
  ShowErrorMessage ("Docker container '" +:+ name
     +:+ "' does not exist. Please check container name in settings.") [].

(** * The output channel (outputManager.ts) *)

Module OutputManager.

(** The calls on the [vscode.OutputChannel]. *)
Inductive ChannelEvent :=
| ChannelShow (preserveFocus : bool)
| ChannelHide
| ChannelAppend (text : string)
| ChannelAppendLine (text : string)
| ChannelClear
| ChannelDispose
| Notify (msg : string).

Definition esc : ascii := "027"%char.

(** The class [[0-9;]] *)
Definition isParam (c : ascii) : bool :=
  ((48 <=? nat_of_ascii c) && (nat_of_ascii c <=? 57))%nat
  || Ascii.eqb c ";"%char.

(** The class [[a-zA-Z]] *)
Definition isLetter (c : ascii) : bool :=
  (((97 <=? nat_of_ascii c) && (nat_of_ascii c <=? 122))
   || ((65 <=? nat_of_ascii c) && (nat_of_ascii c <=? 90)))%nat.

(** The length of the run [[0-9;]*] at the start of [s]; the classes
    [[0-9;]] and [[a-zA-Z]] are disjoint, so the longest run is the only one
    a letter can follow. *)
Fixpoint paramRun (s : string) : nat :=
  match s with
  | String c r => if isParam c then S (paramRun r) else 0
  | "" => 0
  end.

(** The length of the match of [/\x1b\[[0-9;]*[a-zA-Z]/] at the start of
    [s], if it matches there. *)
Definition csiLength (s : string) : option nat :=
  match s with
  | String e (String b r) =>
      if Ascii.eqb e esc && Ascii.eqb b "["%char then
        match String.get (paramRun r) r with
        | Some c => if isLetter c then Some (paramRun r + 3) else None
        | None => None
        end
      else None
  | _ => None
  end.

(** [text.replace(/\x1b\[[0-9;]*[a-zA-Z]/g, '')]: from left to right, where
    the expression matches the matched characters are dropped ([skip] counts
    those of the current match still to drop), elsewhere the character is
    kept. *)
Fixpoint replaceAll (skip : nat) (s : string) : string :=
  match s with
  | "" => ""
  | String c r =>
      match skip with
      | S k => replaceAll k r
      | O =>
          match csiLength s with
          | Some n => replaceAll (n - 1) r
          | None => String c (replaceAll 0 r)
          end
      end
  end.

(** [stripAnsiCodes(text)] *)
Definition stripAnsiCodes (text : string) : string := replaceAll 0 text.

(** [show(preserveFocus = false)] *)
Definition show (preserveFocus : option bool) : list ChannelEvent :=
  [ChannelShow (match preserveFocus with Some b => b | None => false end)].

(** [hide()] *)
Definition hide : list ChannelEvent := [ChannelHide].

(** [append(text)] *)
Definition append (text : string) : list ChannelEvent :=
  [ChannelAppend (stripAnsiCodes text)].

(** [appendLine(text)] *)
Definition appendLine (text : string) : list ChannelEvent :=
  [ChannelAppendLine (stripAnsiCodes text)].

(** The body shared by [appendError], [appendWarning] and [appendSuccess]:
    one line of the channel for every line that is not blank. *)
Definition appendTagged (tag text : string) : list ChannelEvent :=
  omap (fun line =>
          if JS.truthy (JS.trim line)
          then Some (ChannelAppendLine (tag +:+ " " +:+ line))
          else None)
       (splitLines (stripAnsiCodes text)).

(** [appendError(text)] *)
Definition appendError (text : string) : list ChannelEvent :=
  appendTagged "[ERROR]" text.

(** [appendWarning(text)] *)
Definition appendWarning (text : string) : list ChannelEvent :=
  appendTagged "[WARNING]" text.

(** [appendSuccess(text)] *)
Definition appendSuccess (text : string) : list ChannelEvent :=
  appendTagged "[SUCCESS]" text.

(** [clear()] *)
Definition clear : list ChannelEvent := [ChannelClear; Notify "Output cleared"].

(** [dispose()] *)
Definition dispose : list ChannelEvent := [ChannelDispose].

(** What an event of the orchestrator makes of the channel. *)
Definition channel (e : Event) : list ChannelEvent :=
  match e with
  | OutShow => show None
  | OutAppend text => append text
  | OutAppendLine text => appendLine text
  | _ => []
  end.

End OutputManager.

(** * The command tree (commandTreeProvider.ts) *)

Module Tree.

(** [HistoryItem] *)
Record HistoryItem := {
  hi_command : string;
  hi_cwd : option string;
  hi_timestamp : option Z
}.

Inductive CommandNodeType :=
| PREDEFINED_COMMANDS | CUSTOM_COMMAND | COMMAND_ITEM | HISTORY | HISTORY_ITEM.

(** [vscode.TreeItemCollapsibleState] *)
Inductive CollapsibleState := StateNone | Collapsed | Expanded.

(** The [command] of a tree item: what a click runs. *)
Record Click := {
  click_command : string;
  click_title : string;
  click_arguments : list (option string)
}.

(** [CommandTreeItem] *)
Record CommandTreeItem := {
  label : string;
  nodeType : CommandNodeType;
  collapsibleState : CollapsibleState;
  commandText : option string;
  cwd : option string;
  iconPath : string * string;
  contextValue : string;
  tooltip : string;
  command : option Click
}.

(** A value in a template literal: [undefined] prints as its name. *)
Definition shown (x : option string) : string :=
  match x with Some s => s | None => "undefined" end.

(** An optional string in a condition. *)
Definition given (x : option string) : bool :=
  match x with Some s => JS.truthy s | None => false end.

Definition executeTooltip (commandText cwd : option string) : string :=
  "Execute: " +:+ shown commandText
  +:+ (if given cwd then JS.nl +:+ "Directory: " +:+ shown cwd else "").

Definition executeFromTreeClick (commandText cwd : option string) : Click :=
  {| click_command := "deeproute-compile-commands.executeFromTree";
     click_title := "Execute Command";
     click_arguments := [commandText; cwd] |}.

(** [new CommandTreeItem(label, nodeType, collapsibleState, commandText, cwd)] *)
Definition newCommandTreeItem (label : string) (nodeType : CommandNodeType)
    (collapsibleState : CollapsibleState) (commandText cwd : option string)
  : CommandTreeItem :=
  match nodeType with
  | PREDEFINED_COMMANDS =>
      {| label := label; nodeType := nodeType; collapsibleState := collapsibleState;
         commandText := commandText; cwd := cwd;
         iconPath := ("layers", "charts.blue");
         contextValue := "predefinedGroup";
         tooltip := "Predefined Commands";
         command := None |}
  | HISTORY =>
      {| label := label; nodeType := nodeType; collapsibleState := collapsibleState;
         commandText := commandText; cwd := cwd;
         iconPath := ("timeline-view-icon", "charts.purple");
         contextValue := "historyGroup";
         tooltip := "Command History";
         command := None |}
  | CUSTOM_COMMAND =>
      {| label := label; nodeType := nodeType; collapsibleState := collapsibleState;
         commandText := commandText; cwd := cwd;
         iconPath := ("symbol-key", "charts.green");
         contextValue := "customCommand";
         tooltip := "Click to enter custom command";
         command :=
           Some {| click_command := "deeproute-compile-commands.executeCustomCommand";
                   click_title := "Execute Custom Command";
                   click_arguments := [] |} |}
  | COMMAND_ITEM =>
      {| label := label; nodeType := nodeType; collapsibleState := collapsibleState;
         commandText := commandText; cwd := cwd;
         iconPath := ("run", "terminal.ansiBlue");
         contextValue := "commandItem";
         tooltip := executeTooltip commandText cwd;
         command := Some (executeFromTreeClick commandText cwd) |}
  | HISTORY_ITEM =>
      {| label := label; nodeType := nodeType; collapsibleState := collapsibleState;
         commandText := commandText; cwd := cwd;
         iconPath := ("record", "charts.gray");
         contextValue := "historyItem";
         tooltip := executeTooltip commandText cwd;
         command := Some (executeFromTreeClick commandText cwd) |}
  end.

(** What [globalState] holds under the history key: nothing, something that
    is no array, or an array whose entries are command strings (the old
    format) or history objects. *)
Inductive StoredEntry := OldFormat (text : string) | NewFormat (item : HistoryItem).
Inductive Memento := Unset | NotAnArray | StoredArray (entries : list StoredEntry).

(** The fields of [CommandTreeProvider]. *)
Record CommandTreeProvider := {
  commandHistory : list HistoryItem;
  globalState : Memento
}.

Definition maxHistorySize : nat := 10.

(** What the provider does to the outside. *)
Inductive TreeEvent :=
| GlobalStateUpdate (history : list HistoryItem)
| TreeDataChanged.

(** [loadHistory()] *)
Definition loadHistory (p : CommandTreeProvider) : CommandTreeProvider :=
  match globalState p with
  | StoredArray savedHistory =>
      {| commandHistory :=
           map (fun item =>
                  match item with
                  | OldFormat text =>
                      {| hi_command := text; hi_cwd := None; hi_timestamp := None |}
                  | NewFormat h => h
                  end) savedHistory;
         globalState := globalState p |}
  | _ => p
  end.

(** [new CommandTreeProvider(context)] *)
Definition constructor (stored : Memento) : CommandTreeProvider :=
  loadHistory {| commandHistory := []; globalState := stored |}.

(** [saveHistory()] *)
Definition saveHistory (p : CommandTreeProvider) : CommandTreeProvider * list TreeEvent :=
  ({| commandHistory := commandHistory p;
      globalState := StoredArray (map NewFormat (commandHistory p)) |},
   [GlobalStateUpdate (commandHistory p)]).

(** [refresh()] *)
Definition refresh : list TreeEvent := [TreeDataChanged].

(** [a === b] on [string | undefined] *)
Definition sameText (a b : option string) : bool :=
  match a, b with
  | Some x, Some y => String.eqb x y
  | None, None => true
  | _, _ => false
  end.

(** [array.findIndex(f)]: [None] is [-1]. *)
Fixpoint findIndex {A} (f : A -> bool) (l : list A) : option nat :=
  match l with
  | [] => None
  | x :: rest => if f x then Some 0 else S <$> findIndex f rest
  end.

(** [addToHistory(command, cwd)]; [now] is [Date.now()]. *)
Definition addToHistory (now : Z) (command : string) (cwd : option string)
    (p : CommandTreeProvider) : CommandTreeProvider * list TreeEvent :=
  let removed :=
    match findIndex (fun item => String.eqb (hi_command item) command
                                 && sameText (hi_cwd item) cwd)
                    (commandHistory p) with
    | Some index => delete index (commandHistory p)
    | None => commandHistory p
    end in
  let pushed :=
    removed ++ [{| hi_command := command; hi_cwd := cwd; hi_timestamp := Some now |}] in
  let limited :=
    if (maxHistorySize <? length pushed)%nat then tail pushed else pushed in
  let saved := saveHistory {| commandHistory := limited; globalState := globalState p |} in
  (saved.1, saved.2 ++ refresh).

(** [clearHistory()] *)
Definition clearHistory (p : CommandTreeProvider) : CommandTreeProvider * list TreeEvent :=
  let saved := saveHistory {| commandHistory := []; globalState := globalState p |} in
  (saved.1, saved.2 ++ refresh).

(** [getHistory()] *)
Definition getHistory (p : CommandTreeProvider) : list HistoryItem := commandHistory p.

(** [cmd.alias || cmd.command] *)
Definition displayName (alias : option string) (command : string) : string :=
  match alias with
  | Some a => if JS.truthy a then a else command
  | None => command
  end.

(** [getPredefinedCommands()] *)
Definition getPredefinedCommands (config : Configuration) : list CommandTreeItem :=
  let commands := config_get (cfg_predefinedCommands config) [] in
  match commands with
  | [] => [newCommandTreeItem "No predefined commands" COMMAND_ITEM StateNone None None]
  | _ =>
      map (fun cmd =>
             match cmd with
             | CmdString text =>
                 newCommandTreeItem text COMMAND_ITEM StateNone (Some text) None
             | CmdObject command cwd alias _ =>
                 newCommandTreeItem (displayName alias command) COMMAND_ITEM StateNone
                   (Some command) cwd
             end) commands
  end.

(** [getHistoryCommands()] *)
Definition getHistoryCommands (p : CommandTreeProvider) : list CommandTreeItem :=
  match commandHistory p with
  | [] => [newCommandTreeItem "No execution history" HISTORY_ITEM StateNone None None]
  | _ =>
      map (fun historyItem =>
             let item :=
               newCommandTreeItem (hi_command historyItem) HISTORY_ITEM StateNone
                 (Some (hi_command historyItem)) (hi_cwd historyItem) in
             {| label := label item; nodeType := nodeType item;
                collapsibleState := collapsibleState item;
                commandText := commandText item; cwd := cwd item;
                iconPath := iconPath item; contextValue := contextValue item;
                tooltip :=
                  if given (hi_cwd historyItem)
                  then "Execute: " +:+ hi_command historyItem +:+ JS.nl
                       +:+ "Directory: " +:+ shown (hi_cwd historyItem)
                  else "Execute: " +:+ hi_command historyItem;
                command := command item |})
          (rev (commandHistory p))
  end.

(** [getChildren(element)] *)
Definition getChildren (config : Configuration) (p : CommandTreeProvider)
    (element : option CommandTreeItem) : list CommandTreeItem :=
  match element with
  | None =>
      [newCommandTreeItem "PREDEFINED COMMANDS" PREDEFINED_COMMANDS Expanded None None;
       newCommandTreeItem "EXECUTE CUSTOM COMMAND" CUSTOM_COMMAND Collapsed None None;
       newCommandTreeItem "COMMAND HISTORY" HISTORY Collapsed None None]
  | Some element =>
      match nodeType element with
      | PREDEFINED_COMMANDS => getPredefinedCommands config
      | HISTORY => getHistoryCommands p
      | _ => []
      end
  end.

End Tree.

(** * The commands of the extension (extension.ts) *)

(** The handlers as [activate] registers them, in the version of the module
    that knows the execution modes; each is a function of the settings and
    of what the dialogs answer, and returns the settings it leaves and the
    calls it makes.  The tree provider exists when a handler runs. *)

Module Extension.

(** What a command handler does to the user interface and the settings. *)
Inductive UiEvent :=
| ShowInputBox (prompt placeHolder value : string)
| ShowQuickPick (labels : list string) (placeHolder : string)
| ShowInformation (msg : string)
| ShowWarning (msg : string) (items : list string)
| ShowError (msg : string)
| GetConfig
| UpdatePredefinedCommands (commands : list PredefinedCommand)
| UpdateDockerContainerName (name : string)
| UpdateExecuteLocally (value : bool)
| SetContext (key : string) (value : bool)
| TreeRefresh.

(** [config.update(key, value)] on the three settings the handlers write. *)
Definition updatePredefinedCommands (config : Configuration)
    (commands : list PredefinedCommand) : Configuration :=
  {| cfg_executeLocally := cfg_executeLocally config;
     cfg_dockerContainerName := cfg_dockerContainerName config;
     cfg_shell := cfg_shell config; cfg_env := cfg_env config;
     cfg_predefinedCommands := Some commands |}.

Definition updateDockerContainerName (config : Configuration) (name : string)
  : Configuration :=
  {| cfg_executeLocally := cfg_executeLocally config;
     cfg_dockerContainerName := Some name;
     cfg_shell := cfg_shell config; cfg_env := cfg_env config;
     cfg_predefinedCommands := cfg_predefinedCommands config |}.

Definition updateExecuteLocally (config : Configuration) (value : bool)
  : Configuration :=
  {| cfg_executeLocally := Some value;
     cfg_dockerContainerName := cfg_dockerContainerName config;
     cfg_shell := cfg_shell config; cfg_env := cfg_env config;
     cfg_predefinedCommands := cfg_predefinedCommands config |}.

(** [typeof cmd === 'string' ? cmd : cmd.command] *)
Definition cmdText (cmd : PredefinedCommand) : string :=
  match cmd with
  | CmdString text => text
  | CmdObject command _ _ _ => command
  end.

(** [x?.trim() || undefined] *)
Definition trimmedOrUndefined (x : option string) : option string :=
  match x with
  | Some s => if JS.truthy (JS.trim s) then Some (JS.trim s) else None
  | None => None
  end.

(** [!x] and the truth of [x] for [x: boolean | undefined] *)
Definition truthyFlag (x : option bool) : bool :=
  match x with Some b => b | None => false end.

(** [String.prototype.toLowerCase], on the ASCII range. *)
Definition lowerChar (c : ascii) : ascii :=
  if ((65 <=? nat_of_ascii c) && (nat_of_ascii c <=? 90))%nat
  then ascii_of_nat (nat_of_ascii c + 32) else c.

Fixpoint toLowerCase (s : string) : string :=
  match s with
  | "" => ""
  | String c r => String (lowerChar c) (toLowerCase r)
  end.

(** The prompt for the execution directory, shared by the custom command and
    the add command dialogs; [workspaceRoot] is [getWorkspaceRoot()]. *)
Definition cwdPrompt (config : Configuration) (workspaceRoot : option string) : string :=
  if JS.truthy (config_get (cfg_dockerContainerName config) "") then
    "Enter execution directory (relative to /sandbox in container, leave empty for /sandbox)"
  else
    match workspaceRoot with
    | Some root =>
        if JS.truthy root then
          "Enter execution directory (relative path, will be joined to " +:+ root
          +:+ ", leave empty for workspace root)"
        else "Enter execution directory (relative to workspace root, leave empty for workspace root)"
    | None =>
        "Enter execution directory (relative to workspace root, leave empty for workspace root)"
    end.

Definition cwdPlaceHolder (config : Configuration) : string :=
  if JS.truthy (config_get (cfg_dockerContainerName config) "")
  then "e.g.: blc or ./blc or leave empty"
  else "e.g.: build or ./build or leave empty".

(** [updateExecuteLocallyContext()] *)
Definition updateExecuteLocallyContext (config : Configuration) : list UiEvent :=
  [GetConfig;
   SetContext "deeproute-compile-commands.globalExecuteLocally"
     (config_get (cfg_executeLocally config) false)].

(** What the dialogs of the add command answer: [None] is a dialog the user
    cancelled; [ans_mode] is the [value] of the picked execution mode. *)
Record AddAnswers := {
  ans_command : option string;
  ans_cwd : option string;
  ans_alias : option string;
  ans_mode : option bool
}.

Definition modeText (local : bool) : string := if local then "Local" else "Docker".

(** The handler of [deeproute-compile-commands.addCommand] *)
Definition addCommand (answers : AddAnswers) (workspaceRoot : option string)
    (config : Configuration) : Configuration * list UiEvent :=
  let ask := [ShowInputBox "Enter command to add" "e.g.: npm run dev" ""] in
  match ans_command answers with
  | None => (config, ask)
  | Some command =>
      if negb (JS.truthy command) then (config, ask)
      else
        let dialogs :=
          ask ++
          [GetConfig;
           ShowInputBox (cwdPrompt config workspaceRoot) (cwdPlaceHolder config) "";
           ShowInputBox "Enter command alias (optional, used for display in list)"
             "e.g.: Build Project or leave empty to use command itself" ""] in
        let globalExecuteLocally := config_get (cfg_executeLocally config) false in
        let picked :=
          if negb globalExecuteLocally
          then [ShowQuickPick ["Docker Container"; "Local (Host)"]
                  "Select execution mode for this command"]
          else [] in
        let executeLocally : option bool :=
          if negb globalExecuteLocally
          then Some (match ans_mode answers with Some v => v | None => false end)
          else None in
        let commands := config_get (cfg_predefinedCommands config) [] in
        if existsb (fun cmd => String.eqb (cmdText cmd) command) commands then
          (config, dialogs ++ picked ++ [ShowWarning "Command already exists" []])
        else
          let newCwd := trimmedOrUndefined (ans_cwd answers) in
          let newAlias := trimmedOrUndefined (ans_alias answers) in
          let newCommand :=
            CmdObject command newCwd newAlias
              (if truthyFlag executeLocally then Some true else None) in
          let updated := commands ++ [newCommand] in
          let effectiveExecuteLocally := isTrue executeLocally || globalExecuteLocally in
          let msg :=
            "Command added: " +:+ Tree.displayName newAlias command
            +:+ (match newCwd with
                 | Some d => " (directory: " +:+ d +:+ ")"
                 | None => ""
                 end)
            +:+ (if globalExecuteLocally
                 then JS.nl +:+ "Execution mode: " +:+ modeText effectiveExecuteLocally
                      +:+ " (Global setting)"
                 else JS.nl +:+ "Execution mode: " +:+ modeText effectiveExecuteLocally) in
          (updatePredefinedCommands config updated,
           dialogs ++ picked
           ++ [UpdatePredefinedCommands updated; ShowInformation msg; TreeRefresh])
  end.

(** The [commandText] of the tree item a context-menu handler was called
    with, when there is an item and its text is not empty. *)
Definition itemCommand (treeItem : option Tree.CommandTreeItem) : option string :=
  match treeItem with
  | Some item =>
      match Tree.commandText item with
      | Some text => if JS.truthy text then Some text else None
      | None => None
      end
  | None => None
  end.

(** The handler of [deeproute-compile-commands.removeCommand]; [confirm] is
    the button chosen in the warning. *)
Definition removeCommand (treeItem : option Tree.CommandTreeItem)
    (confirm : option string) (config : Configuration)
  : Configuration * list UiEvent :=
  match itemCommand treeItem with
  | None => (config, [])
  | Some command =>
      let ask :=
        [ShowWarning ("Are you sure you want to remove command " +:+ JS.dq
                      +:+ command +:+ JS.dq +:+ "?") ["Remove"; "Cancel"]] in
      if bool_decide (confirm = Some "Remove") then
        let commands := config_get (cfg_predefinedCommands config) [] in
        let newCommands :=
          List.filter (fun cmd => negb (String.eqb (cmdText cmd) command)) commands in
        if (length newCommands <? length commands)%nat then
          (updatePredefinedCommands config newCommands,
           ask ++ [GetConfig; UpdatePredefinedCommands newCommands;
                   ShowInformation ("Command removed: " +:+ command); TreeRefresh])
        else (config, ask ++ [GetConfig])
      else (config, ask)
  end.

(** The alias an entry has, for the input box. *)
Definition currentAlias (cmd : PredefinedCommand) : string :=
  match cmd with
  | CmdString _ => ""
  | CmdObject _ _ alias _ =>
      match alias with Some a => if JS.truthy a then a else "" | None => "" end
  end.

(** The entry with its alias replaced; a bare string becomes an object. *)
Definition withAlias (cmd : PredefinedCommand) (alias : option string)
  : PredefinedCommand :=
  match cmd with
  | CmdString text => CmdObject text None alias None
  | CmdObject command cwd _ executeLocally => CmdObject command cwd alias executeLocally
  end.

(** The handler of [deeproute-compile-commands.editCommandAlias]; [newAlias]
    is what the input box returned. *)
Definition editCommandAlias (treeItem : option Tree.CommandTreeItem)
    (newAlias : option string) (config : Configuration)
  : Configuration * list UiEvent :=
  match itemCommand treeItem with
  | None => (config, [])
  | Some command =>
      let commands := config_get (cfg_predefinedCommands config) [] in
      match Tree.findIndex (fun cmd => String.eqb (cmdText cmd) command) commands with
      | None => (config, [GetConfig; ShowError "Command not found"])
      | Some index =>
          match commands !! index with
          | None => (config, [GetConfig])
          | Some currentCommand =>
              let ask :=
                [GetConfig;
                 ShowInputBox "Enter new command alias (leave empty to not use alias)"
                   "e.g.: Build Project" (currentAlias currentCommand)] in
              match newAlias with
              | None => (config, ask)
              | Some typed =>
                  let alias := trimmedOrUndefined (Some typed) in
                  let updated := <[index := withAlias currentCommand alias]> commands in
                  (updatePredefinedCommands config updated,
                   ask ++ [UpdatePredefinedCommands updated;
                           ShowInformation
                             ("Alias updated: " +:+ Tree.displayName alias command);
                           TreeRefresh])
              end
          end
      end
  end.

(** The handler of [deeproute-compile-commands.configureDocker] *)
Definition configureDocker (containerName : option string) (config : Configuration)
  : Configuration * list UiEvent :=
  let ask :=
    [GetConfig;
     ShowInputBox "Enter Docker container name" "e.g./default: deeproute-dev-x86-2004"
       (config_get (cfg_dockerContainerName config) "")] in
  match containerName with
  | None => (config, ask)
  | Some typed =>
      let trimmedName := JS.trim typed in
      (updateDockerContainerName config trimmedName,
       ask ++ [UpdateDockerContainerName trimmedName;
               ShowInformation
                 (if JS.truthy trimmedName then
                    "Docker mode configured" +:+ JS.nl +:+ "Container name: "
                    +:+ trimmedName +:+ JS.nl +:+ JS.nl
                    +:+ "All commands will execute in container's /sandbox directory"
                  else
                    "Docker mode disabled" +:+ JS.nl +:+ JS.nl
                    +:+ "All commands will execute locally")])
  end.

Definition modeName (local : bool) : string :=
  if local then "Local (Host)" else "Docker Container".

(** [toggleGlobalExecutionMode()], the handler of both global toggles *)
Definition toggleGlobalExecutionMode (config : Configuration)
  : Configuration * list UiEvent :=
  let newValue := negb (config_get (cfg_executeLocally config) false) in
  (updateExecuteLocally config newValue,
   [GetConfig; UpdateExecuteLocally newValue;
    ShowInformation ("Global execution mode: " +:+ modeName newValue +:+ JS.nl +:+ JS.nl
                     +:+ "All commands will execute in " +:+ toLowerCase (modeName newValue));
    TreeRefresh]).

(** The entry after the per-command toggle of the command [text]. *)
Definition toggled (text : string) (cmd : PredefinedCommand) : PredefinedCommand :=
  match cmd with
  | CmdString s => if String.eqb s text then CmdObject s None None (Some true) else cmd
  | CmdObject command cwd alias executeLocally =>
      if String.eqb command text
      then CmdObject command cwd alias (Some (negb (truthyFlag executeLocally)))
      else cmd
  end.

(** [newCommands.find(c => typeof c === 'object' && c.command === text)] and
    the test [updatedCmd && updatedCmd.executeLocally === true] *)
Fixpoint announcedLocal (text : string) (commands : list PredefinedCommand) : bool :=
  match commands with
  | [] => false
  | CmdObject command _ _ executeLocally :: rest =>
      if String.eqb command text then isTrue executeLocally
      else announcedLocal text rest
  | CmdString _ :: rest => announcedLocal text rest
  end.

(** The handler of [deeproute-compile-commands.toggleCommandExecuteLocally] *)
Definition toggleCommandExecuteLocally (treeItem : option Tree.CommandTreeItem)
    (config : Configuration) : Configuration * list UiEvent :=
  match itemCommand treeItem with
  | None => (config, [])
  | Some text =>
      let predefinedCommands := config_get (cfg_predefinedCommands config) [] in
      let newCommands := map (toggled text) predefinedCommands in
      let updated :=
        existsb (fun cmd => String.eqb (cmdText cmd) text) predefinedCommands in
      if updated then
        (updatePredefinedCommands config newCommands,
         [GetConfig; UpdatePredefinedCommands newCommands;
          ShowInformation ("Command execution mode: "
                           +:+ modeName (announcedLocal text newCommands)
                           +:+ JS.nl +:+ JS.nl +:+ "Command: " +:+ text);
          TreeRefresh])
      else (config, [GetConfig])
  end.

(** The first argument of [executeFromTree]: the command text of a node
    click, the tree item of the context menu, or nothing. *)
Inductive TreeArgument :=
| ArgText (text : string)
| ArgItem (item : Tree.CommandTreeItem)
| ArgUndefined.

(** The arguments a click on a tree item passes to its command. *)
Definition clickArguments (item : Tree.CommandTreeItem)
  : option (TreeArgument * option string) :=
  match Tree.command item with
  | Some click =>
      match Tree.click_arguments click with
      | [Some text; cwd] => Some (ArgText text, cwd)
      | [None; cwd] => Some (ArgUndefined, cwd)
      | _ => None
      end
  | None => None
  end.

(** What the handler of [executeFromTree] passes to [executeCommandInternal],
    if it calls it. *)
Definition executeFromTreeTarget (commandOrTreeItem : TreeArgument)
    (cwd : option string) : option (string * option string) :=
  let actual :=
    match commandOrTreeItem with
    | ArgText text => Some (text, cwd)
    | ArgItem item =>
        match Tree.commandText item with
        | Some text => if JS.truthy text then Some (text, Tree.cwd item) else None
        | None => None
        end
    | ArgUndefined => None
    end in
  match actual with
  | Some (actualCommand, actualCwd) =>
      if JS.truthy actualCommand then Some (actualCommand, actualCwd) else None
  | None => None
  end.





End Extension.

(** * Observations on the channel, the tree and the extension *)

(** The text holds an escape character. *)
Fixpoint hasEscape (s : string) : bool :=
  match s with
  | "" => false
  | String c r => Ascii.eqb c OutputManager.esc || hasEscape r
  end.

(** Every character is of the class [[0-9;]]. *)
Fixpoint allParams (s : string) : bool :=
  match s with
  | "" => true
  | String c r => OutputManager.isParam c && allParams r
  end.

(** A control sequence: escape, bracket, parameters, a final letter. *)
Definition controlSequence (params : string) (letter : ascii) : string :=
  String OutputManager.esc (String "["%char (params +:+ String letter "")).

(** What identifies a history entry: command and directory. *)
Definition historyKey (item : Tree.HistoryItem) : string * option string :=
  (Tree.hi_command item, Tree.hi_cwd item).

(** A series of [addToHistory] calls: time, command, directory. *)
Fixpoint addAll (calls : list (Z * string * option string))
    (p : Tree.CommandTreeProvider) : Tree.CommandTreeProvider :=
  match calls with
  | [] => p
  | (now, command, cwd) :: rest =>
      addAll rest (Tree.addToHistory now command cwd p).1
  end.

(** The command texts of a list of predefined commands. *)
Definition texts (commands : list PredefinedCommand) : list string :=
  map Extension.cmdText commands.

(** The per-command switch [executeCommandInternal] finds is [true]. *)
Definition resolvesLocal (commands : list PredefinedCommand) (command : string) : bool :=
  isTrue (findExecuteLocally commands command).

(** The predefined commands of a configuration. *)
Definition predefined (config : Configuration) : list PredefinedCommand :=
  config_get (cfg_predefinedCommands config) [].

(** The history [addToHistory] leaves. *)
Definition added (now : Z) (command : string) (cwd : option string)
    (p : Tree.CommandTreeProvider) : list Tree.HistoryItem :=
  Tree.commandHistory (Tree.addToHistory now command cwd p).1.

(** The entry [addToHistory] appends. *)
Definition newEntry (now : Z) (command : string) (cwd : option string)
  : Tree.HistoryItem :=
  {| Tree.hi_command := command; Tree.hi_cwd := cwd; Tree.hi_timestamp := Some now |}.

(** What a click on a tree item makes [executeFromTree] execute. *)
Definition clickTarget (item : Tree.CommandTreeItem) : option (string * option string) :=
  match Extension.clickArguments item with
  | Some (argument, cwd) => Extension.executeFromTreeTarget argument cwd
  | None => None
  end.

(** What the context menu on a tree item makes [executeFromTree] execute. *)
Definition menuTarget (item : Tree.CommandTreeItem) : option (string * option string) :=
  Extension.executeFromTreeTarget (Extension.ArgItem item) None.

(** Command and directory, when the command is not empty. *)
Definition target (command : string) (cwd : option string)
  : option (string * option string) :=
  if JS.truthy command then Some (command, cwd) else None.

Definition entryTarget (cmd : PredefinedCommand) : option (string * option string) :=
  match cmd with
  | CmdString text => target text None
  | CmdObject command cwd _ _ => target command cwd
  end.

(** The per-command switch of an entry, as [=== true] reads it. *)
Definition switch (cmd : PredefinedCommand) : bool :=
  match cmd with
  | CmdString _ => false
  | CmdObject _ _ _ executeLocally => isTrue executeLocally
  end.

(** The directory of an entry. *)
Definition entryCwd (cmd : PredefinedCommand) : option string :=
  match cmd with
  | CmdString _ => None
  | CmdObject _ cwd _ _ => cwd
  end.

(** An entry without its alias: command text, directory and switch. *)
Definition sansAlias (cmd : PredefinedCommand) : string * option string * bool :=
  (Extension.cmdText cmd, entryCwd cmd, switch cmd).

(** The tree item the context menu of a predefined command passes. *)
Definition menuItem (command : string) : option Tree.CommandTreeItem :=
  Some (Tree.newCommandTreeItem command Tree.COMMAND_ITEM Tree.StateNone
          (Some command) None).

(** The state after a successful spawn from [rt]: the new process is the
    current one and has its listeners. *)
Definition started (rt : Runtime) (c : Closure) : Runtime :=
  {| this := {| currentProcess := Some (length (procs rt));
                workspaceRoot := workspaceRoot (this rt);
                workspaceRootValid := workspaceRootValid (this rt) |};
     procs := procs rt ++ [{| killed := false; handle := true; listeners := Some c |}] |}.

(** A synchronous child process: [spawnSync] or [execSync]. *)
Definition isSyncChild (e : Event) : bool :=
  match e with SpawnSync _ _ _ | ExecSync _ => true | _ => false end.

(** What an activation of [execute] that starts in state [base] (after the
    stop of a running command, if there was one) has done at its end:
    nothing to the state and no spawn, or exactly one spawn, the last event,
    whose process is the current one and carries the snapshot of the
    artifact taken before the spawn. *)
Definition activationFrom (w : ExecWorld) (base : Runtime)
    (r : Completion unit unit * Runtime * Trace) : Prop :=
  (final r = base /\ Forall (fun e => isSpawn e = false) (trace r))
  \/ (exists cmd args opts path,
        last (trace r) = Some (Spawn cmd args opts (length (procs base)))
        /\ length (List.filter isSpawn (trace r)) = 1%nat
        /\ completion r = Normal tt
        /\ final r = started base {| beforeStats := snapshot (w_before w);
                                     compileCommandsPath := path |}).

Definition activation (w : ExecWorld) (rt : Runtime)
    (r : Completion unit unit * Runtime * Trace) : Prop :=
  activationFrom w rt r \/ activationFrom w (final (stop (R:=unit) rt)) r.

(** The handle refers to a process the object has spawned, and every
    process the object has spawned has its listeners. *)
Definition sound (rt : Runtime) : Prop :=
  match currentProcess (this rt) with
  | Some p => (p < length (procs rt))%nat
  | None => True
  end
  /\ Forall (fun cp => isSome (listeners cp) = true) (procs rt).

(** The state with the handle cleared. *)
Definition cleared (rt : Runtime) : Runtime :=
  {| this := {| currentProcess := None;
                workspaceRoot := workspaceRoot (this rt);
                workspaceRootValid := workspaceRootValid (this rt) |};
     procs := procs rt |}.

(** The arguments of the [docker exec] that runs a command in a container. *)
Definition dockerExec (user containerName dir command : string) : list string :=
  ["exec"; "-i"; "-w"; "/sandbox"; "-u"; user; containerName; "bash"; "-c";
   "cd " +:+ dir +:+ " && " +:+ command].

(** A directory of the container that is [/sandbox] or written below it. *)
Definition inSandbox (dir : string) : Prop :=
  dir = "/sandbox" \/ exists sub, dir = "/sandbox/" +:+ sub.

(** A runtime with two processes, the second one current. *)
Definition replaced : Runtime :=
  {| this := {| currentProcess := Some 1; workspaceRoot := sampleRoot;
                workspaceRootValid := true |};
     procs := [{| killed := true; handle := true; listeners := Some sampleClosure |};
               {| killed := false; handle := true; listeners := Some sampleClosure |}] |}.

(** The entry the quick pick item with this index stands for. *)
Definition picked (config : Configuration) (selected : option nat)
  : option (string * option string) :=
  match selected with
  | Some index =>
      match predefined config !! index with
      | Some cmd => Some (Extension.cmdText cmd, entryCwd cmd)
      | None => None
      end
  | None => None
  end.

(** ** Sample inputs of the handlers and the callbacks *)

(** A bare string and an object entry with alias, directory and switch. *)
Definition sampleCommands : list PredefinedCommand :=
  [CmdString "make"; CmdObject "ninja" (Some "build") (Some "Build") (Some true)].

Definition sampleConfig : Configuration := config None (Some "dev") sampleCommands.

(** A bare string in front of an object entry with the same command text. *)
Definition shadowed : Configuration :=
  config None (Some "dev") [CmdString "make"; CmdObject "make" None None (Some true)].

(** A history with one entry. *)
Definition sampleHistory : Tree.CommandTreeProvider :=
  (Tree.addToHistory 1 "make" None (Tree.constructor Tree.Unset)).1.

(** The container runs, but the user id cannot be determined. *)
Definition userUnknown : ExecWorld :=
  {| w_config := config None (Some "dev") []; w_confirm := None;
     w_configureNow := None; w_now := "2024-01-01 10:00:00";
     w_inspect := running; w_ps := exited 0 "" ""; w_start := exited 0 "dev" "";
     w_verify := running;
     w_id_u := Raised "Command failed: id -u"; w_id_g := Value ("1000" +:+ JS.nl);
     w_cwdExists := true;
     w_before := {| probe_exists := false; probe_stat := Raised "ENOENT" |};
     w_process_env := [("PATH", "/usr/bin")] |}.

(** The directory of the command is not there. *)
Definition noDirectory : ExecWorld :=
  {| w_config := config (Some true) None []; w_confirm := None;
     w_configureNow := None; w_now := "2024-01-01 10:00:00";
     w_inspect := running; w_ps := exited 0 "" ""; w_start := exited 0 "dev" "";
     w_verify := running;
     w_id_u := Value ("1000" +:+ JS.nl); w_id_g := Value ("1000" +:+ JS.nl);
     w_cwdExists := false;
     w_before := {| probe_exists := false; probe_stat := Raised "ENOENT" |};
     w_process_env := [("PATH", "/usr/bin")] |}.

(** The world after the configure handler stored the answer [typed]. *)
Definition configuredWith (typed : string) : ExecWorld :=
  world (Extension.configureDocker (Some typed) (config None None [])).1
        None running (exited 0 "" "") (exited 0 "dev" "") running.

(** * Properties *)

(** ** The artifact change detector *)

Lemma getFileStats_run {R} (fs : FsProbe) (path : string) (rt : Runtime) :
  getFileStats (R:=R) fs path rt = (Normal (snapshot fs), rt, snapshotEvents fs path).
Proof.
  destruct fs as [[] [st|m]]; reflexivity.
Qed.

Lemma isCompileCommandsUpdated_spec (before after : FileStats) :
  isCompileCommandsUpdated before after = true <->
  (exists_ before = false /\ exists_ after = true) \/
  (exists_ before = true /\ exists_ after = true /\
   exists tb ta, mtime before = Some tb /\ mtime after = Some ta /\ (tb < ta)%Z).
Proof.
  unfold isCompileCommandsUpdated.
  destruct before as [eb mb], after as [ea ma]; simpl.
  split.
  - destruct eb, ea; simpl; intros H; try discriminate H; auto.
    destruct mb as [tb|], ma as [ta|]; try discriminate H.
    apply Z.ltb_lt in H. right. do 2 (split; [reflexivity|]).
    exists tb, ta. auto.
  - intros [[-> ->]|(-> & -> & tb & ta & -> & -> & H)]; simpl.
    + reflexivity.
    + apply Z.ltb_lt, H.
Qed.

(** C3: [getFileStats] always completes with a snapshot and never throws; a
    missing file and a failing [statSync] both give [{exists: false}]; and
    [isCompileCommandsUpdated] is true exactly when the file went from absent
    to present, or is present in both snapshots with a strictly later
    modification time, so that equal timestamps are no change. *)
Theorem C3_change_detector :
  (forall (fs : FsProbe) (path : string) (rt : Runtime),
      completion (getFileStats (R:=unit) fs path rt) = Normal (snapshot fs)
      /\ final (getFileStats (R:=unit) fs path rt) = rt)
  /\ (forall answer, snapshot {| probe_exists := false; probe_stat := answer |} = absent)
  /\ (forall present message,
        snapshot {| probe_exists := present; probe_stat := Raised message |} = absent)
  /\ (forall st,
        snapshot {| probe_exists := true; probe_stat := Value st |}
        = {| exists_ := true; mtime := Some (st_mtime st) |})
  /\ (forall before after : FileStats,
        isCompileCommandsUpdated before after = true <->
        (exists_ before = false /\ exists_ after = true) \/
        (exists_ before = true /\ exists_ after = true /\
         exists tb ta, mtime before = Some tb /\ mtime after = Some ta /\ (tb < ta)%Z))
  /\ (forall t : Z,
        isCompileCommandsUpdated {| exists_ := true; mtime := Some t |}
                                 {| exists_ := true; mtime := Some t |} = false).
Proof.
  split; [|split; [|split; [|split; [|split]]]].
  - intros fs path rt. rewrite getFileStats_run. split; reflexivity.
  - intros answer. reflexivity.
  - intros [] message; reflexivity.
  - intros st. reflexivity.
  - apply isCompileCommandsUpdated_spec.
  - intros t. unfold isCompileCommandsUpdated. simpl. apply Z.ltb_irrefl.
Qed.

(** ** Statements that leave the root alone *)

Lemma keepsRoot_ret {R A} (a : A) : keepsRoot (ret (R:=R) a).
Proof. intros rt. simpl. auto. Qed.

Lemma keepsRoot_return {R A} (r : R) : keepsRoot (return_ (A:=A) r).
Proof. intros rt. simpl. auto. Qed.

Lemma keepsRoot_throw {R A} (e : string) : keepsRoot (throw (R:=R) (A:=A) e).
Proof. intros rt. simpl. auto. Qed.

Lemma keepsRoot_emit {R} (e : Event) : e <> Homedir -> keepsRoot (emit (R:=R) e).
Proof. intros H rt. simpl. intuition. Qed.

Lemma keepsRoot_getThis {R} : keepsRoot (getThis (R:=R)).
Proof. intros rt. simpl. auto. Qed.

Lemma keepsRoot_getProcs {R} : keepsRoot (getProcs (R:=R)).
Proof. intros rt. simpl. auto. Qed.

Lemma keepsRoot_setProcs {R} ps : keepsRoot (setProcs (R:=R) ps).
Proof. intros rt. simpl. auto. Qed.

Lemma keepsRoot_setCurrentProcess {R} p : keepsRoot (setCurrentProcess (R:=R) p).
Proof. intros rt. simpl. auto. Qed.

Lemma keepsRoot_bind {R A B} (m : Stmt R A) (k : A -> Stmt R B) :
  keepsRoot m -> (forall a, keepsRoot (k a)) -> keepsRoot (bind m k).
Proof.
  intros Hm Hk rt. unfold keepsRoot, bind, final, trace in *.
  specialize (Hm rt). destruct (m rt) as [[[a|r|e] rt1] t1]; simpl in *; auto.
  specialize (Hk a rt1). destruct (k a rt1) as [[c rt2] t2]; simpl in *.
  destruct Hm as (Hm1 & Hm2 & Hm3), Hk as (Hk1 & Hk2 & Hk3).
  repeat split; [congruence | congruence | rewrite in_app_iff; tauto].
Qed.

Lemma keepsRoot_try_catch {R A} (m : Stmt R A) (h : string -> Stmt R A) :
  keepsRoot m -> (forall e, keepsRoot (h e)) -> keepsRoot (try_catch m h).
Proof.
  intros Hm Hh rt. unfold keepsRoot, try_catch, final, trace in *.
  specialize (Hm rt). destruct (m rt) as [[[a|r|e] rt1] t1]; simpl in *; auto.
  specialize (Hh e rt1). destruct (h e rt1) as [[c rt2] t2]; simpl in *.
  destruct Hm as (Hm1 & Hm2 & Hm3), Hh as (Hh1 & Hh2 & Hh3).
  repeat split; [congruence | congruence | rewrite in_app_iff; tauto].
Qed.

Lemma keepsRoot_fn {R A} (m : Stmt A A) : keepsRoot m -> keepsRoot (fn (R:=R) m).
Proof.
  intros Hm rt. unfold keepsRoot, fn, final, trace in *.
  specialize (Hm rt). destruct (m rt) as [[[a|r|e] rt1] t1]; simpl in *; auto.
Qed.

Lemma keepsRoot_when {R} (c : bool) (m : Stmt R unit) :
  keepsRoot m -> keepsRoot (when c m).
Proof. destruct c; simpl; auto using keepsRoot_ret. Qed.

Lemma keepsRoot_fromResult {R A} (r : Result A) : keepsRoot (fromResult (R:=R) r).
Proof. destruct r; simpl; auto using keepsRoot_ret, keepsRoot_throw. Qed.

(** Unfolds the calls into Node and VS Code down to [emit]. *)
Ltac open_calls :=
  unfold appendLine, append, setTimeout, showInformationMessage, showErrorMessage,
    showWarningMessage, spawnSync, execSync, existsSync, statSync, toString,
    spawn, on, getCommands, executeCommand in *.

Create HintDb keeps.

#[local] Hint Resolve keepsRoot_ret keepsRoot_return keepsRoot_throw
  keepsRoot_getThis keepsRoot_getProcs keepsRoot_setProcs
  keepsRoot_setCurrentProcess keepsRoot_fromResult : keeps.

(** Walks a statement along its structure; what is known of the methods a
    statement calls is taken from the hints. *)
Ltac keeps :=
  repeat first
    [ solve [auto with keeps nocore]
    | apply keepsRoot_fn
    | apply keepsRoot_bind; [|intros ?]
    | apply keepsRoot_try_catch; [|intros ?]
    | apply keepsRoot_when
    | apply keepsRoot_emit; discriminate
    | match goal with
      | |- keepsRoot (match ?x with _ => _ end) => destruct x
      end ].

Lemma keepsRoot_kill {R} p sig : keepsRoot (kill (R:=R) p sig).
Proof. unfold kill. keeps. Qed.
#[local] Hint Resolve keepsRoot_kill : keeps.

Lemma keepsRoot_stop {R} : keepsRoot (stop (R:=R)).
Proof. unfold stop. open_calls. keeps. Qed.
#[local] Hint Resolve keepsRoot_stop : keeps.

Lemma keepsRoot_stopTimeout {R} : keepsRoot (stopTimeout (R:=R)).
Proof. unfold stopTimeout. keeps. Qed.

Lemma keepsRoot_dispose {R} : keepsRoot (dispose (R:=R)).
Proof. unfold dispose. keeps. Qed.

Lemma keepsRoot_stopCurrentIfAny w : keepsRoot (stopCurrentIfAny w).
Proof. unfold stopCurrentIfAny. open_calls. keeps. Qed.
#[local] Hint Resolve keepsRoot_stopCurrentIfAny : keeps.

Lemma keepsRoot_getFileStats {R} fs path : keepsRoot (getFileStats (R:=R) fs path).
Proof. unfold getFileStats. open_calls. keeps. Qed.
#[local] Hint Resolve keepsRoot_getFileStats : keeps.

Lemma keepsRoot_replaceCompileCommandsPath {R} rw path :
  keepsRoot (replaceCompileCommandsPath (R:=R) rw path).
Proof. unfold replaceCompileCommandsPath. open_calls. cbv zeta. keeps. Qed.
#[local] Hint Resolve keepsRoot_replaceCompileCommandsPath : keeps.

Lemma keepsRoot_restartClangd {R} rw rf path :
  keepsRoot (restartClangd (R:=R) rw rf path).
Proof. unfold restartClangd. open_calls. cbv zeta. keeps. Qed.
#[local] Hint Resolve keepsRoot_restartClangd : keeps.

Lemma keepsRoot_onClose {R} w c code signal :
  keepsRoot (onClose (R:=R) w c code signal).
Proof. unfold onClose. open_calls. keeps. Qed.

Lemma keepsRoot_onError {R} message : keepsRoot (onError (R:=R) message).
Proof. unfold onError. open_calls. keeps. Qed.

(** ** Running a statement *)

(** Unfolds the statement constructors. *)
Ltac open_monad :=
  unfold fn, bind, try_catch, when, getThis, getProcs, setProcs,
    setCurrentProcess, emit, ret, return_, throw, fromResult,
    completion, final, trace, prepend in *.

(** Splits on the innermost test the run is stuck on. *)
Ltac case_step :=
  match goal with
  | |- context [match ?x with _ => _ end] =>
      lazymatch x with
      | context [match _ with _ => _ end] => fail
      | _ => destruct x eqn:?
      end
  end.

Ltac run_cases := repeat (case_step; simpl).

Lemma fn_bind_run {R A B} (m : Stmt B A) (k : A -> Stmt B B) (rt : Runtime) :
  fn (R:=R) (bind m k) rt
  = match m rt with
    | (Normal a, rt1, t1) => prepend t1 (fn (k a) rt1)
    | (Returned r, rt1, t1) => (Normal r, rt1, t1)
    | (Thrown e, rt1, t1) => (Thrown e, rt1, t1)
    end.
Proof.
  unfold fn, bind, prepend.
  destruct (m rt) as [[[a|r|e] rt1] t1]; simpl; try reflexivity.
  destruct (k a rt1) as [[[b|r|e] rt2] t2]; reflexivity.
Qed.

Lemma stop_busy {R} (rt : Runtime) (p : pid) :
  currentProcess (this rt) = Some p ->
  completion (stop (R:=R) rt) = Normal tt
  /\ trace (stop (R:=R) rt) = stopEvents p
  /\ currentProcess (this (final (stop (R:=R) rt))) = None
  /\ workspaceRoot (this (final (stop (R:=R) rt))) = workspaceRoot (this rt).
Proof.
  intros H. unfold stop, kill. open_calls. open_monad. rewrite H. simpl.
  run_cases; auto.
Qed.

Lemma stop_idle {R} (rt : Runtime) :
  currentProcess (this rt) = None ->
  stop (R:=R) rt
  = (Normal tt, rt, [ShowInformationMessage "No command is currently running"]).
Proof.
  intros H. unfold stop. open_calls. open_monad. rewrite H. reflexivity.
Qed.

Lemma stopTimeout_idle {R} (rt : Runtime) :
  currentProcess (this rt) = None ->
  stopTimeout (R:=R) rt = (Normal tt, rt, []).
Proof.
  intros H. unfold stopTimeout. open_monad. rewrite H. reflexivity.
Qed.

Lemma stopCurrentIfAny_idle (w : ExecWorld) (rt : Runtime) :
  currentProcess (this rt) = None ->
  stopCurrentIfAny w rt = (Normal tt, rt, []).
Proof.
  intros H. unfold stopCurrentIfAny. open_monad. rewrite H. reflexivity.
Qed.

Lemma stopCurrentIfAny_decline (w : ExecWorld) (rt : Runtime) (p : pid) :
  currentProcess (this rt) = Some p ->
  w_confirm w <> Some stopAndExecute ->
  stopCurrentIfAny w rt = (Returned tt, rt, [confirmPrompt]).
Proof.
  intros H Hd. unfold stopCurrentIfAny. open_calls. open_monad. rewrite H. simpl.
  rewrite bool_decide_eq_false_2 by exact Hd. reflexivity.
Qed.

Lemma stopCurrentIfAny_confirm (w : ExecWorld) (rt : Runtime) (p : pid) :
  currentProcess (this rt) = Some p ->
  w_confirm w = Some stopAndExecute ->
  stopCurrentIfAny w rt
  = (Normal tt, final (stop (R:=unit) rt), confirmPrompt :: stopEvents p).
Proof.
  intros H Hc. destruct (stop_busy (R:=unit) rt p H) as (H1 & H2 & _).
  unfold stopCurrentIfAny. open_calls.
  generalize dependent (stop (R:=unit)). intros S H1 H2.
  open_monad. rewrite H. simpl. rewrite bool_decide_eq_true_2 by exact Hc. simpl.
  destruct (S rt) as [[c rt1] t1]. simpl in *. subst. reflexivity.
Qed.

(** ** Traces with a quiet front *)

Lemma beforeSpawn_app_quiet (t1 t2 : Trace) :
  Forall (fun e => isSpawn e = false) t1 ->
  beforeSpawn (t1 ++ t2) = option_map (app t1) (beforeSpawn t2).
Proof.
  induction 1 as [|e t1 He Ht IH]; simpl.
  - destruct (beforeSpawn t2); reflexivity.
  - rewrite IH. destruct e; try discriminate He;
      destruct (beforeSpawn t2); reflexivity.
Qed.

Lemma lastContainerCall_app (t1 t2 : Trace) :
  lastContainerCall (t1 ++ t2)
  = match lastContainerCall t2 with
    | Some c => Some c
    | None => lastContainerCall t1
    end.
Proof.
  induction t1 as [|e t1 IH]; simpl.
  - destruct (lastContainerCall t2); reflexivity.
  - rewrite IH. destruct (lastContainerCall t2); reflexivity.
Qed.

Section Properties.

Variable path_join : list string -> string.
Variable path_resolve : string -> string -> string.

Local Abbreviation execute' := (execute path_join path_resolve (R:=unit)).
Local Abbreviation executeInDocker' :=
  (executeInDocker path_join path_resolve (R:=unit)).
Local Abbreviation executeLocally' :=
  (executeLocally path_join path_resolve (R:=unit)).
Local Abbreviation executeCommandInternal' :=
  (executeCommandInternal path_join path_resolve (R:=unit)).
Local Abbreviation constructor' := (constructor path_join).
Local Abbreviation step' := (step path_join path_resolve).
Local Abbreviation run' := (run path_join path_resolve).
Local Abbreviation expectedRoot' := (expectedRoot path_join).

Lemma keepsRoot_executeInDocker w name command cwd :
  keepsRoot (executeInDocker' w name command cwd).
Proof. unfold executeInDocker. open_calls. cbv zeta. keeps. Qed.

Lemma keepsRoot_executeLocally w command cwd :
  keepsRoot (executeLocally' w command cwd).
Proof. unfold executeLocally. open_calls. cbv zeta. keeps. Qed.

Lemma keepsRoot_execute w command cwd perCommand :
  keepsRoot (execute' w command cwd perCommand).
Proof.
  pose proof keepsRoot_executeInDocker. pose proof keepsRoot_executeLocally.
  unfold execute. open_calls. cbv zeta. keeps.
Qed.

Lemma keepsRoot_executeCommandInternal w command cwd :
  keepsRoot (executeCommandInternal' w command cwd).
Proof.
  pose proof keepsRoot_execute.
  unfold executeCommandInternal. cbv zeta. keeps.
Qed.

Lemma keepsRoot_step (a : Action) : keepsRoot (step' a).
Proof.
  destruct a; simpl; unfold released, withListeners, onCancellationRequested, onData;
    open_calls.
  - apply keepsRoot_execute.
  - apply keepsRoot_executeCommandInternal.
  - apply keepsRoot_stop.
  - apply keepsRoot_stop.
  - apply keepsRoot_stopTimeout.
  - keeps.
  - pose proof (@keepsRoot_onError unit). keeps.
  - pose proof (@keepsRoot_onClose unit). keeps.
  - apply keepsRoot_dispose.
Qed.

(** No sequence of calls and callbacks changes the root, the validity flag,
    or asks for the home directory again. *)
Lemma run_keepsRoot (actions : list Action) (rt : Runtime) :
  workspaceRoot (this (run' actions rt).1) = workspaceRoot (this rt)
  /\ workspaceRootValid (this (run' actions rt).1) = workspaceRootValid (this rt)
  /\ ~ In Homedir (run' actions rt).2.
Proof.
  revert rt. induction actions as [|a rest IH]; intros rt; simpl.
  - auto.
  - destruct (keepsRoot_step a rt) as (H1 & H2 & H3).
    destruct (IH (final (step' a rt))) as (I1 & I2 & I3).
    repeat split; [congruence | congruence | rewrite in_app_iff; tauto].
Qed.

(** What the constructor leaves: the flag is the comparison of the root with
    the expected one, made with one look at the home directory. *)
Lemma constructor_run (homeDir root : string) :
  final (constructor' homeDir root)
  = {| this := {| currentProcess := None; workspaceRoot := root;
                  workspaceRootValid := String.eqb root (expectedRoot' homeDir) |};
       procs := [] |}
  /\ List.filter asksHome (trace (constructor' homeDir root))
     = [Homedir].
Proof.
  unfold constructor, checkWorkspaceRoot, expectedRoot, fn, bind, when, getThis,
    emit, showErrorMessage, return_, setWorkspaceRootValid, final, trace.
  simpl. destruct (String.eqb root (path_join [homeDir; "codetree"; "repo"]));
    simpl; split; reflexivity.
Qed.

(** ** How [execute] dispatches *)

Lemma execute_invalid w command cwd perCommand rt :
  workspaceRootValid (this rt) = false ->
  execute' w command cwd perCommand rt = (Normal tt, rt, rootRejected).
Proof.
  intros H. unfold execute, fn, bind, when, getThis. simpl. rewrite H. reflexivity.
Qed.

Lemma execute_local w command cwd perCommand rt :
  workspaceRootValid (this rt) = true ->
  shouldExecuteLocally perCommand (w_config w) = true ->
  execute' w command cwd perCommand rt
  = prepend [GetConfiguration] (executeLocally' w command cwd rt).
Proof.
  intros H1 H2. unfold execute. rewrite H2.
  set (L := executeLocally _ _ _ _ _).
  assert (HL : exists b, L = fn b) by (eexists; reflexivity).
  clearbody L. destruct HL as [b ->].
  unfold fn, bind, when, getThis, emit, ret, prepend. simpl. rewrite H1. simpl.
  destruct (b rt) as [[[a|a|e] rt1] t1]; reflexivity.
Qed.

Lemma execute_container w command cwd perCommand rt :
  workspaceRootValid (this rt) = true ->
  shouldExecuteLocally perCommand (w_config w) = false ->
  containerNotConfigured (containerIdentity (w_config w)) = false ->
  execute' w command cwd perCommand rt
  = prepend [GetConfiguration]
      (executeInDocker' w (JS.trim (containerIdentity (w_config w))) command cwd rt).
Proof.
  intros H1 H2 H3. unfold execute. fold (containerIdentity (w_config w)).
  rewrite H2, H3.
  set (L := executeInDocker _ _ _ _ _ _).
  assert (HL : exists b, L = fn b) by (eexists; reflexivity).
  clearbody L. destruct HL as [b ->].
  unfold fn, bind, when, getThis, emit, ret, prepend. simpl. rewrite H1. simpl.
  destruct (b rt) as [[[a|a|e] rt1] t1]; reflexivity.
Qed.

Lemma execute_notConfigured w command cwd perCommand rt :
  workspaceRootValid (this rt) = true ->
  shouldExecuteLocally perCommand (w_config w) = false ->
  containerNotConfigured (containerIdentity (w_config w)) = true ->
  completion (execute' w command cwd perCommand rt) = Normal tt
  /\ final (execute' w command cwd perCommand rt) = rt
  /\ Forall (fun e => startsProcess e = false) (trace (execute' w command cwd perCommand rt))
  /\ In notConfiguredMessage (trace (execute' w command cwd perCommand rt))
  /\ Forall (fun e => isKill e = false) (trace (execute' w command cwd perCommand rt)).
Proof.
  intros H1 H2 H3. unfold execute. fold (containerIdentity (w_config w)).
  rewrite H2, H3.
  set (L := executeInDocker _ _ _ _ _ _). clearbody L.
  unfold fn, bind, when, getThis, emit, ret, return_, appendLine, completion,
    final, trace, notConfiguredMessage.
  simpl. rewrite H1. simpl.
  destruct (bool_decide (w_configureNow w = Some "Configure Now")); simpl;
    (split; [reflexivity|split; [reflexivity|split; [|split]]]);
    solve [ repeat constructor | simpl; auto 20 ].
Qed.

Lemma executeCommandInternal_run w command cwd rt :
  executeCommandInternal' w command cwd rt
  = prepend [AddToHistory command cwd; GetConfiguration]
      (execute' w command cwd
         (findExecuteLocally (config_get (cfg_predefinedCommands (w_config w)) [])
            command) rt).
Proof.
  unfold executeCommandInternal.
  set (E := execute _ _ _ _ _ _).
  assert (HE : exists b, E = fn b) by (eexists; reflexivity).
  clearbody E. destruct HE as [b ->].
  unfold fn, bind, emit, prepend. simpl.
  destruct (b rt) as [[[a|a|e] rt1] t1]; reflexivity.
Qed.

Lemma shouldExecuteLocally_spec perCommand config :
  shouldExecuteLocally perCommand config = true <->
  perCommand = Some true \/ config_get (cfg_executeLocally config) false = true.
Proof.
  unfold shouldExecuteLocally, isTrue.
  destruct perCommand as [[]|], (config_get (cfg_executeLocally config) false);
    simpl; split; auto; intros [H|H]; congruence.
Qed.

Lemma findExecuteLocally_strings texts command :
  findExecuteLocally (map CmdString texts) command = None.
Proof. induction texts as [|t rest IH]; simpl; auto. Qed.

Lemma findExecuteLocally_entry command before entryCwd alias switch rest :
  noEntry command before = true ->
  findExecuteLocally (before ++ CmdObject command entryCwd alias switch :: rest) command
  = Some (isTrue switch).
Proof.
  induction before as [|[text|c d a e] more IH]; simpl.
  - intros _. rewrite String.eqb_refl. reflexivity.
  - exact IH.
  - intros H. apply andb_true_iff in H as [Hc Hmore].
    apply negb_true_iff in Hc. rewrite Hc. apply IH, Hmore.
Qed.

Lemma findExecuteLocally_noEntry command entries :
  noEntry command entries = true -> findExecuteLocally entries command = None.
Proof.
  induction entries as [|[text|c d a e] more IH]; simpl; auto.
  intros H. apply andb_true_iff in H as [Hc Hmore].
  apply negb_true_iff in Hc. rewrite Hc. apply IH, Hmore.
Qed.

Lemma noEntry_strings command texts : noEntry command (map CmdString texts) = true.
Proof. induction texts as [|t rest IH]; simpl; auto. Qed.

(** C7: the mode is local exactly when the per-command switch is [true] or
    the global setting is [true], and the container otherwise: a local
    invocation runs [executeLocally] whatever the container name is, any
    other one [executeInDocker] on the trimmed name, or nothing when there is
    no name.  The per-command switch is what the configuration entries carry:
    [executeCommandInternal] hands [execute] the switch of the first object
    entry with the command text, read as [=== true]; entries written as bare
    strings are passed over, also when their text is the command, so that a
    command without an object entry has no switch. *)
Theorem C7_mode_resolution (w : ExecWorld) (command : string)
    (cwd : option string) (perCommand : option bool) (rt : Runtime) :
  workspaceRootValid (this rt) = true ->
  let name := containerIdentity (w_config w) in
  let entries := config_get (cfg_predefinedCommands (w_config w)) [] in
  (shouldExecuteLocally perCommand (w_config w) = true <->
   perCommand = Some true \/ config_get (cfg_executeLocally (w_config w)) false = true)
  /\ (shouldExecuteLocally perCommand (w_config w) = true ->
      execute' w command cwd perCommand rt
      = prepend [GetConfiguration] (executeLocally' w command cwd rt))
  /\ (shouldExecuteLocally perCommand (w_config w) = false ->
      if containerNotConfigured name
      then final (execute' w command cwd perCommand rt) = rt
           /\ Forall (fun e => startsProcess e = false)
                (trace (execute' w command cwd perCommand rt))
      else execute' w command cwd perCommand rt
           = prepend [GetConfiguration]
               (executeInDocker' w (JS.trim name) command cwd rt))
  /\ executeCommandInternal' w command cwd rt
     = prepend [AddToHistory command cwd; GetConfiguration]
         (execute' w command cwd (findExecuteLocally entries command) rt)
  /\ (forall before entryCwd alias switch rest,
        noEntry command before = true ->
        findExecuteLocally
          (before ++ CmdObject command entryCwd alias switch :: rest) command
        = Some (isTrue switch))
  /\ (forall others,
        noEntry command others = true -> findExecuteLocally others command = None)
  /\ (forall texts, noEntry command (map CmdString texts) = true)
  /\ (forall text rest,
        findExecuteLocally (CmdString text :: rest) command
        = findExecuteLocally rest command).
Proof.
  intros Hvalid name entries.
  split; [apply shouldExecuteLocally_spec|].
  split; [intros Hl; apply execute_local; assumption|].
  split.
  - intros Hl. destruct (containerNotConfigured name) eqn:Hname.
    + destruct (execute_notConfigured w command cwd perCommand rt Hvalid Hl Hname)
        as (_ & H2 & H3 & _).
      split; assumption.
    + apply execute_container; assumption.
  - split; [apply executeCommandInternal_run|].
    split; [apply findExecuteLocally_entry|].
    split; [apply findExecuteLocally_noEntry|].
    split; [apply noEntry_strings|reflexivity].
Qed.

(** C10: the flag set by the constructor is the comparison of the workspace
    root with [$HOME/codetree/repo], made with a single look at the home
    directory; whatever happens to the object afterwards the flag stays and
    the home directory is not asked for again; and with a root that differs
    every [execute] leaves the object as it is and only reports the error:
    no configuration is read, no process or container call is made, no file
    is probed.  With the expected root the configuration is read. *)
Theorem C10_workspace_root_gate (homeDir root : string) (actions : list Action)
    (w : ExecWorld) (command : string) (cwd : option string)
    (perCommand : option bool) :
  let rt := (run' actions (final (constructor' homeDir root))).1 in
  workspaceRootValid (this rt) = String.eqb root (expectedRoot' homeDir)
  /\ List.filter asksHome (trace (constructor' homeDir root)) = [Homedir]
  /\ ~ In Homedir (run' actions (final (constructor' homeDir root))).2
  /\ ~ In Homedir (trace (execute' w command cwd perCommand rt))
  /\ (if String.eqb root (expectedRoot' homeDir)
      then exists rest, trace (execute' w command cwd perCommand rt)
                        = GetConfiguration :: rest
      else execute' w command cwd perCommand rt = (Normal tt, rt, rootRejected))
  /\ Forall (fun e => startsProcess e = false /\ probesFile e = false
                      /\ e <> GetConfiguration) rootRejected.
Proof.
  intros rt.
  destruct (constructor_run homeDir root) as [Hc Hh].
  destruct (run_keepsRoot actions (final (constructor' homeDir root)))
    as (_ & Hv & Hn).
  assert (Hvalid : workspaceRootValid (this rt)
                   = String.eqb root (expectedRoot' homeDir)).
  { subst rt. rewrite Hv, Hc. reflexivity. }
  split; [exact Hvalid|]. split; [exact Hh|]. split; [exact Hn|].
  split; [apply keepsRoot_execute|]. split.
  - destruct (String.eqb root (expectedRoot' homeDir)).
    + destruct (shouldExecuteLocally perCommand (w_config w)) eqn:Hl.
      * rewrite execute_local by assumption. eexists. reflexivity.
      * destruct (containerNotConfigured (containerIdentity (w_config w))) eqn:Hn'.
        -- unfold execute. fold (containerIdentity (w_config w)). rewrite Hl, Hn'.
           unfold fn, bind, when, getThis, emit, ret, return_, appendLine, trace.
           simpl. rewrite Hvalid. simpl.
           destruct (bool_decide _); simpl; eexists; reflexivity.
        -- rewrite execute_container by assumption. eexists. reflexivity.
    + apply execute_invalid. exact Hvalid.
  - unfold rootRejected. repeat constructor; discriminate.
Qed.

(** C4: when the mode is the container and the container name read from the
    configuration, which is the default name when none is set, is empty or
    white space only, [execute] completes without touching the object, shows
    the not-configured error, and creates no child process at all: nothing
    is spawned and [docker] is not called. *)
Theorem C4_container_not_configured (w : ExecWorld) (command : string)
    (cwd : option string) (perCommand : option bool) (rt : Runtime) :
  workspaceRootValid (this rt) = true ->
  shouldExecuteLocally perCommand (w_config w) = false ->
  containerNotConfigured (containerIdentity (w_config w)) = true ->
  completion (execute' w command cwd perCommand rt) = Normal tt
  /\ final (execute' w command cwd perCommand rt) = rt
  /\ Forall (fun e => startsProcess e = false)
       (trace (execute' w command cwd perCommand rt))
  /\ In notConfiguredMessage (trace (execute' w command cwd perCommand rt)).
Proof.
  intros Hv Hm Hn.
  destruct (execute_notConfigured w command cwd perCommand rt Hv Hm Hn)
    as (H1 & H2 & H3 & H4 & _).
  auto.
Qed.

(** ** Single flight *)

Lemma executeInDocker_decline w name command cwd rt p :
  currentProcess (this rt) = Some p ->
  w_confirm w <> Some stopAndExecute ->
  executeInDocker' w name command cwd rt = (Normal tt, rt, [confirmPrompt]).
Proof.
  intros H Hd. unfold executeInDocker.
  rewrite fn_bind_run, (stopCurrentIfAny_decline _ _ p) by assumption.
  reflexivity.
Qed.

Lemma executeLocally_decline w command cwd rt p :
  currentProcess (this rt) = Some p ->
  w_confirm w <> Some stopAndExecute ->
  executeLocally' w command cwd rt = (Normal tt, rt, [confirmPrompt]).
Proof.
  intros H Hd. unfold executeLocally.
  rewrite fn_bind_run, (stopCurrentIfAny_decline _ _ p) by assumption.
  reflexivity.
Qed.

Lemma executeInDocker_replace w name command cwd rt p :
  currentProcess (this rt) = Some p ->
  w_confirm w = Some stopAndExecute ->
  executeInDocker' w name command cwd rt
  = prepend (confirmPrompt :: stopEvents p)
      (executeInDocker' w name command cwd (final (stop (R:=unit) rt))).
Proof.
  intros H Hc. destruct (stop_busy (R:=unit) rt p H) as (_ & _ & Hidle & _).
  unfold executeInDocker. rewrite !fn_bind_run.
  rewrite (stopCurrentIfAny_confirm _ _ p) by assumption.
  rewrite stopCurrentIfAny_idle by assumption.
  reflexivity.
Qed.

Lemma executeLocally_replace w command cwd rt p :
  currentProcess (this rt) = Some p ->
  w_confirm w = Some stopAndExecute ->
  executeLocally' w command cwd rt
  = prepend (confirmPrompt :: stopEvents p)
      (executeLocally' w command cwd (final (stop (R:=unit) rt))).
Proof.
  intros H Hc. destruct (stop_busy (R:=unit) rt p H) as (_ & _ & Hidle & _).
  unfold executeLocally. rewrite !fn_bind_run.
  rewrite (stopCurrentIfAny_confirm _ _ p) by assumption.
  rewrite stopCurrentIfAny_idle by assumption.
  reflexivity.
Qed.

Lemma handles_at_most_one (o : DeepRouteCompileCommands) :
  (length (handles o) <= 1)%nat.
Proof. unfold handles. destruct (currentProcess o); simpl; lia. Qed.

(** C1: the object holds at most one process handle, whatever has happened to
    it; with a handle in place, [executeLocally] and [executeInDocker] both
    begin by asking whether the running command may be stopped; and unless
    the answer is to stop it, both return with the object exactly as it
    was, after that one question, and [execute] as a whole leaves the object
    as it was, spawns nothing and signals nothing. *)
Theorem C1_single_flight (w : ExecWorld) (containerName command : string)
    (cwd : option string) (perCommand : option bool) (actions : list Action)
    (rt : Runtime) (p : pid) :
  currentProcess (this rt) = Some p ->
  (length (handles (this (run' actions rt).1)) <= 1)%nat
  /\ (exists rest,
        trace (executeLocally' w command cwd rt) = confirmPrompt :: rest)
  /\ (exists rest,
        trace (executeInDocker' w containerName command cwd rt)
        = confirmPrompt :: rest)
  /\ (w_confirm w <> Some stopAndExecute ->
      executeLocally' w command cwd rt = (Normal tt, rt, [confirmPrompt])
      /\ executeInDocker' w containerName command cwd rt
         = (Normal tt, rt, [confirmPrompt])
      /\ final (execute' w command cwd perCommand rt) = rt
      /\ Forall (fun e => isSpawn e = false /\ isKill e = false)
           (trace (execute' w command cwd perCommand rt))).
Proof.
  intros H. split; [apply handles_at_most_one|].
  assert (Hl : exists rest,
             trace (executeLocally' w command cwd rt) = confirmPrompt :: rest).
  { destruct (decide (w_confirm w = Some stopAndExecute)) as [Hc|Hd].
    - rewrite (executeLocally_replace _ _ _ _ p) by assumption.
      eexists. reflexivity.
    - rewrite (executeLocally_decline _ _ _ _ p) by assumption.
      eexists. reflexivity. }
  assert (Hk : exists rest,
             trace (executeInDocker' w containerName command cwd rt)
             = confirmPrompt :: rest).
  { destruct (decide (w_confirm w = Some stopAndExecute)) as [Hc|Hd].
    - rewrite (executeInDocker_replace _ _ _ _ _ p) by assumption.
      eexists. reflexivity.
    - rewrite (executeInDocker_decline _ _ _ _ _ p) by assumption.
      eexists. reflexivity. }
  split; [exact Hl|]. split; [exact Hk|].
  intros Hd.
  split; [apply (executeLocally_decline _ _ _ _ p); assumption|].
  split; [apply (executeInDocker_decline _ _ _ _ _ p); assumption|].
  destruct (workspaceRootValid (this rt)) eqn:Hv.
  - destruct (shouldExecuteLocally perCommand (w_config w)) eqn:Hm.
    + rewrite execute_local by assumption.
      rewrite (executeLocally_decline _ _ _ _ p) by assumption.
      split; [reflexivity|]. repeat constructor.
    + destruct (containerNotConfigured (containerIdentity (w_config w))) eqn:Hn.
      * destruct (execute_notConfigured w command cwd perCommand rt Hv Hm Hn)
          as (_ & Hf & Hq & _ & Hk').
        split; [exact Hf|].
        apply Forall_and. split; [|exact Hk'].
        eapply Forall_impl; [exact Hq|].
        intros e He. destruct e; simpl in *; auto; discriminate.
      * rewrite execute_container by assumption.
        rewrite (executeInDocker_decline _ _ _ _ _ p) by assumption.
        split; [reflexivity|]. repeat constructor.
  - rewrite execute_invalid by assumption.
    split; [reflexivity|]. repeat constructor.
Qed.

(** ** The container is checked before the spawn *)

(** The start call of [executeInDocker]. *)
Local Abbreviation startCall name w := (SpawnSync "docker" ["start"; name] (w_start w)).

Lemma executeInDocker_guarded_idle w name command cwd rt pre :
  currentProcess (this rt) = None ->
  beforeSpawn (trace (executeInDocker' w name command cwd rt)) = Some pre ->
  exists r,
    lastContainerCall pre = Some (inspectArgs name, r)
    /\ reportsRunning r = true
    /\ (r = w_inspect w \/ (r = w_verify w /\ In (startCall name w) pre)).
Proof.
  intros Hidle.
  unfold executeInDocker, stopCurrentIfAny, getFileStats. open_calls. open_monad.
  cbv zeta. rewrite Hidle. simpl.
  run_cases; try discriminate.
  all: intros Hpre; simplify_eq; simpl.
  all: eexists; split; [reflexivity|].
  all: unfold reportsRunning, statusNonZero in *.
  all: repeat match goal with
         | H : negb _ = false |- _ => apply negb_false_iff in H
         | H : negb _ = true |- _ => apply negb_true_iff in H
         end.
  all: split;
    [ repeat match goal with H : ?x = _ |- context [?x] => rewrite H end;
      reflexivity
    | first [ left; reflexivity | right; split; [reflexivity|simpl; auto 20] ] ].
Qed.

(** The same for an object in any state. *)
Lemma executeInDocker_guarded (w : ExecWorld)
    (containerName command : string) (cwd : option string) (rt : Runtime)
    (pre : Trace) :
  beforeSpawn (trace (executeInDocker' w containerName command cwd rt)) = Some pre ->
  exists r,
    lastContainerCall pre = Some (inspectArgs containerName, r)
    /\ reportsRunning r = true
    /\ (r = w_inspect w
        \/ (r = w_verify w /\ In (startCall containerName w) pre)).
Proof.
  destruct (currentProcess (this rt)) as [p|] eqn:Hcur.
  - destruct (decide (w_confirm w = Some stopAndExecute)) as [Hc|Hd].
    + rewrite (executeInDocker_replace _ _ _ _ _ p) by assumption.
      destruct (stop_busy (R:=unit) rt p Hcur) as (_ & _ & Hidle & _).
      unfold prepend at 1, trace at 1. cbn [snd].
      rewrite beforeSpawn_app_quiet by (repeat constructor).
      destruct (beforeSpawn _) as [pre'|] eqn:Hpre'; [|discriminate].
      intros Heq.
      assert (Hp : pre = (confirmPrompt :: stopEvents p) ++ pre')
        by (injection Heq as <-; reflexivity).
      subst pre. clear Heq.
      destruct (executeInDocker_guarded_idle _ _ _ _ _ _ Hidle Hpre')
        as (r & Hlast & Hrun & Hwhich).
      exists r. rewrite lastContainerCall_app, Hlast.
      split; [reflexivity|]. split; [exact Hrun|].
      destruct Hwhich as [->|[-> Hin]]; [left; reflexivity|].
      right. split; [reflexivity|]. apply in_or_app. right. exact Hin.
    + rewrite (executeInDocker_decline _ _ _ _ _ p) by assumption.
      discriminate.
  - apply executeInDocker_guarded_idle. exact Hcur.
Qed.

(** C5: whenever [executeInDocker] reaches the spawn, the last call made to
    the container runtime before it, in this same activation, is an
    [inspect] of the container that answered with status 0 and [true]: either
    the first inspect, or the one that follows a [docker start]. *)
Theorem C5_spawn_after_running_check (w : ExecWorld)
    (containerName command : string) (cwd : option string) (rt : Runtime)
    (pre : Trace) :
  beforeSpawn (trace (executeInDocker' w containerName command cwd rt)) = Some pre ->
  exists r,
    lastContainerCall pre = Some (inspectArgs containerName, r)
    /\ reportsRunning r = true
    /\ (r = w_inspect w
        \/ (r = w_verify w /\ In (startCall containerName w) pre)).
Proof. apply executeInDocker_guarded. Qed.

Lemma beforeSpawn_quiet (t : Trace) :
  Forall (fun e => isSpawn e = false) t -> beforeSpawn t = None.
Proof.
  induction 1 as [|e t He _ IH]; simpl; [reflexivity|].
  rewrite IH. destruct e; try reflexivity. discriminate He.
Qed.

(** The same at the level of [execute], for an invocation that goes to the
    container. *)
Lemma execute_spawn_after_running_check w command cwd perCommand rt pre :
  shouldExecuteLocally perCommand (w_config w) = false ->
  beforeSpawn (trace (execute' w command cwd perCommand rt)) = Some pre ->
  exists r,
    lastContainerCall pre
    = Some (inspectArgs (JS.trim (containerIdentity (w_config w))), r)
    /\ reportsRunning r = true.
Proof.
  intros Hm.
  destruct (workspaceRootValid (this rt)) eqn:Hv.
  - destruct (containerNotConfigured (containerIdentity (w_config w))) eqn:Hn.
    + destruct (execute_notConfigured w command cwd perCommand rt Hv Hm Hn)
        as (_ & _ & Hq & _).
      rewrite beforeSpawn_quiet; [discriminate|].
      eapply Forall_impl; [exact Hq|].
      intros e He. destruct e; simpl in *; auto; discriminate.
    + rewrite execute_container by assumption.
      unfold prepend at 1, trace at 1. cbn [snd].
      rewrite beforeSpawn_app_quiet by (repeat constructor).
      destruct (beforeSpawn _) as [pre'|] eqn:Hpre'; [|discriminate].
      intros Heq.
      assert (Hp : pre = [GetConfiguration] ++ pre')
        by (injection Heq as <-; reflexivity).
      subst pre. clear Heq.
      destruct (executeInDocker_guarded _ _ _ _ _ _ Hpre') as (r & Hlast & Hrun & _).
      exists r. rewrite lastContainerCall_app, Hlast. auto.
  - rewrite execute_invalid by assumption. discriminate.
Qed.

(** A container name that is not set reads as the default name, which is a
    configured one. *)
Lemma unset_container_reads_default (config : Configuration) :
  cfg_dockerContainerName config = None ->
  containerIdentity config = defaultContainerName
  /\ containerNotConfigured (containerIdentity config) = false.
Proof.
  intros H. unfold containerIdentity. rewrite H. split; reflexivity.
Qed.

End Properties.

(** ** After the process has closed *)

Lemma not_refreshed (t : Trace) :
  Forall (fun e => isNotification e = false /\ isRefresh e = false) t ->
  refreshed t = false.
Proof.
  unfold refreshed. induction 1 as [|e t [_ He] _ IH]; simpl.
  - reflexivity.
  - rewrite He, IH. reflexivity.
Qed.

(** The rewriter always completes with a boolean, leaves the object alone,
    and only logs: it shows no notification and does not refresh. *)
Lemma replaceCompileCommandsPath_total {R} (rw : RewriteWorld) (path : string)
    (rt : Runtime) :
  exists b,
    replaceCompileCommandsPath (R:=R) rw path rt
    = (Normal b, rt, trace (replaceCompileCommandsPath (R:=R) rw path rt))
    /\ Forall (fun e => isNotification e = false /\ isRefresh e = false)
         (trace (replaceCompileCommandsPath (R:=R) rw path rt)).
Proof.
  unfold replaceCompileCommandsPath. open_calls. open_monad. cbv zeta. simpl.
  run_cases; eexists; (split; [reflexivity|repeat constructor]).
Qed.

Lemma onClose_refreshed (w : CloseWorld) (c : Closure) (code : option Z)
    (signal : option string) (rt : Runtime) :
  refreshed (trace (onClose (R:=unit) w c code signal rt))
  = cleanExit code signal
    && isCompileCommandsUpdated (beforeStats c) (snapshot (cw_after w))
    && clangdAvailable (cw_refresh w).
Proof.
  unfold cleanExit, onClose, restartClangd.
  destruct (replaceCompileCommandsPath_total (R:=unit) (cw_rewrite w)
              (compileCommandsPath c) rt) as (b & Hb & Hq).
  apply not_refreshed in Hq.
  generalize dependent
    (replaceCompileCommandsPath (R:=unit) (cw_rewrite w) (compileCommandsPath c)).
  intros X HX Hq.
  unfold getFileStats, snapshot, clangdAvailable, absent. open_calls. open_monad.
  simpl. set (t := (X rt).2) in *. clearbody t.
  run_cases; simpl; try reflexivity.
  all: try (rewrite HX in *; simplify_eq).
  all: unfold refreshed in *; rewrite ?existsb_app; simpl; rewrite ?Hq.
  all: repeat match goal with H : ?x = _ |- context [?x] => rewrite H end.
  all: reflexivity.
Qed.

Lemma onClose_unclean (w : CloseWorld) (c : Closure) (code : option Z)
    (signal : option string) (rt : Runtime) :
  cleanExit code signal = false ->
  Forall (fun e => probesFile e = false /\ rewritesOrRefreshes e = false)
    (trace (onClose (R:=unit) w c code signal rt)).
Proof.
  unfold cleanExit, onClose. intros H.
  destruct (signalled signal) as [s|].
  - open_calls. open_monad. simpl. repeat constructor.
  - rewrite H. open_calls. open_monad. simpl. repeat constructor.
Qed.

(** C6, as the code has it: the refresh command is sent exactly when the
    process ended on its own with exit code 0, the artifact snapshots compare
    as changed, and the capability check found a clangd command; what the
    rewrite did has no part in it.  After a signal or a non-zero exit code
    the file is not probed and neither the rewriter nor the refresh is
    called. *)
Theorem C6_refresh_condition (w : CloseWorld) (c : Closure) (code : option Z)
    (signal : option string) (rt : Runtime) :
  refreshed (trace (onClose (R:=unit) w c code signal rt))
  = cleanExit code signal
    && isCompileCommandsUpdated (beforeStats c) (snapshot (cw_after w))
    && clangdAvailable (cw_refresh w)
  /\ (forall rw : RewriteWorld,
        refreshed (trace (onClose (R:=unit)
                     {| cw_after := cw_after w; cw_rewrite := rw;
                        cw_refresh := cw_refresh w |} c code signal rt))
        = refreshed (trace (onClose (R:=unit) w c code signal rt)))
  /\ (cleanExit code signal = false ->
      Forall (fun e => probesFile e = false /\ rewritesOrRefreshes e = false)
        (trace (onClose (R:=unit) w c code signal rt))).
Proof.
  split; [apply onClose_refreshed|]. split.
  - intros rw. rewrite !onClose_refreshed. reflexivity.
  - apply onClose_unclean.
Qed.

(** C6 as stated fails: exit code 0 and a changed artifact, yet no refresh,
    because no clangd command is registered. *)
Lemma C6_exit_0_changed_no_refresh :
  cleanExit (Some 0%Z) None = true
  /\ isCompileCommandsUpdated (beforeStats sampleClosure)
       (snapshot (cw_after (artifactAppeared sedFails clangdMissing))) = true
  /\ refreshed (trace (onClose (R:=unit) (artifactAppeared sedFails clangdMissing)
                         sampleClosure (Some 0%Z) None busy)) = false.
Proof. repeat split. Qed.

(** The refresh is sent when the rewrite has failed, and not when the exit
    code is 2. *)
Lemma C6_refresh_condition_sample :
  refreshed (trace (onClose (R:=unit) (artifactAppeared sedFails clangdInstalled)
                      sampleClosure (Some 0%Z) None busy)) = true
  /\ Forall (fun e => probesFile e = false /\ rewritesOrRefreshes e = false)
       (trace (onClose (R:=unit) (artifactAppeared sedFails clangdInstalled)
                 sampleClosure (Some 2%Z) None busy)).
Proof.
  destruct (C6_refresh_condition (artifactAppeared sedFails clangdInstalled)
              sampleClosure (Some 2%Z) None busy) as (_ & _ & H).
  split.
  - rewrite (proj1 (C6_refresh_condition (artifactAppeared sedFails clangdInstalled)
                      sampleClosure (Some 0%Z) None busy)).
    reflexivity.
  - apply H. reflexivity.
Defined.

(** ** The rewrite is best effort *)

Lemma replaceCompileCommandsPath_absent {R} (rw : RewriteWorld) (path : string)
    (rt : Runtime) :
  rw_exists rw = false ->
  replaceCompileCommandsPath (R:=R) rw path rt
  = (Normal false, rt,
     [updatingLine; ExistsSync path;
      OutAppendLine ("[Clangd] File does not exist: " +:+ path)]).
Proof.
  intros H. unfold replaceCompileCommandsPath. open_calls. open_monad.
  rewrite H. reflexivity.
Qed.

Lemma replaceCompileCommandsPath_no_marker {R} (rw : RewriteWorld)
    (path content : string) (rt : Runtime) :
  (status (rw_grep_q rw) = Some 0%Z -> JS.includes content "/sandbox" = true) ->
  JS.includes content "/sandbox" = false ->
  Forall (fun e => isSubstitution e = false)
    (trace (replaceCompileCommandsPath (R:=R) rw path rt)).
Proof.
  intros Hgrep Hno.
  unfold replaceCompileCommandsPath. open_calls. open_monad. cbv zeta. simpl.
  run_cases; try (repeat constructor; fail).
  all: exfalso;
    match goal with
    | H : negb (bool_decide _) = false |- _ =>
        apply negb_false_iff, bool_decide_eq_true in H;
        specialize (Hgrep H); congruence
    end.
Qed.

(** What [restartClangd] does after the rewrite does not depend on the
    rewrite, and it never throws. *)
Lemma restartClangd_run (rf : RefreshWorld) (path : string) (rt : Runtime) :
  exists tail,
    forall rw : RewriteWorld,
      restartClangd (R:=unit) rw rf path rt
      = (Normal tt, rt,
         preparingLine
         :: trace (replaceCompileCommandsPath (R:=unit) rw path rt) ++ tail).
Proof.
  destruct (rf_getCommands rf) as [cmds|message] eqn:Hg;
    [ destruct (length (List.filter (fun cmd => JS.startsWith cmd "clangd") cmds)
                =? 0)%nat eqn:Hn;
      [ | destruct (rf_restart rf) as [[]|message] eqn:Hr ] | ].
  all: eexists; intros rw;
    destruct (replaceCompileCommandsPath_total (R:=unit) rw path rt)
      as (b & HX & _);
    unfold restartClangd;
    generalize dependent (replaceCompileCommandsPath (R:=unit) rw path);
    intros X HX;
    open_calls; open_monad; simpl; rewrite HX, Hg; simpl;
    rewrite ?Hn, ?Hr; simpl; rewrite <- ?app_assoc; reflexivity.
Qed.

Lemma restartClangd_refreshes (rw : RewriteWorld) (rf : RefreshWorld)
    (path : string) (rt : Runtime) :
  clangdAvailable rf = true ->
  rf_restart rf = Value tt ->
  refreshed (trace (restartClangd (R:=unit) rw rf path rt)) = true
  /\ In reindexingMessage (trace (restartClangd (R:=unit) rw rf path rt)).
Proof.
  unfold clangdAvailable. intros Ha Hr.
  destruct (rf_getCommands rf) as [cmds|message] eqn:Hg; [|discriminate].
  apply negb_true_iff in Ha.
  destruct (replaceCompileCommandsPath_total (R:=unit) rw path rt)
    as (b & HX & _).
  unfold restartClangd.
  generalize dependent (replaceCompileCommandsPath (R:=unit) rw path).
  intros X HX.
  open_calls. open_monad. simpl. rewrite HX, Hg. simpl. rewrite Ha, Hr. simpl.
  unfold refreshed. rewrite existsb_app. simpl. split.
  - apply orb_true_r.
  - right. apply in_or_app. right. unfold reindexingMessage. simpl. auto 10.
Qed.

Lemma onClose_success (w : CloseWorld) (c : Closure) (rt : Runtime) :
  completion (onClose (R:=unit) w c (Some 0%Z) None rt) = Normal tt
  /\ exists rest,
       trace (onClose (R:=unit) w c (Some 0%Z) None rt)
       = OutAppendLine (JS.nl +:+ dashes) :: successLine :: rest.
Proof.
  destruct (restartClangd_run (cw_refresh w) (compileCommandsPath c) rt)
    as (tail & Hrun).
  specialize (Hrun (cw_rewrite w)).
  unfold onClose.
  generalize dependent
    (restartClangd (R:=unit) (cw_rewrite w) (cw_refresh w) (compileCommandsPath c)).
  intros X HX.
  unfold getFileStats. open_calls. open_monad. simpl.
  run_cases.
  all: try simplify_eq.
  all: split; [reflexivity|eexists; reflexivity].
Qed.

(** C8: on a file that is not there the rewriter logs it and returns
    [false], with no exception and no notification; when the marker does not
    occur in the file, so that [grep -q] cannot have reported a match, [sed]
    is not run; the rewriter always completes, leaves the object alone and
    shows no notification; what [restartClangd] does after the rewrite is the
    same whatever the rewrite did, and never throws, so with a clangd command
    registered the refresh is sent and the update is announced; and the close
    handler of an exit with code 0 has logged the success before. *)
Theorem C8_rewrite_best_effort (w : CloseWorld) (c : Closure)
    (path content : string) (rt : Runtime) :
  (rw_exists (cw_rewrite w) = false ->
   replaceCompileCommandsPath (R:=unit) (cw_rewrite w) path rt
   = (Normal false, rt,
      [updatingLine; ExistsSync path;
       OutAppendLine ("[Clangd] File does not exist: " +:+ path)]))
  /\ ((status (rw_grep_q (cw_rewrite w)) = Some 0%Z ->
       JS.includes content "/sandbox" = true) ->
      JS.includes content "/sandbox" = false ->
      Forall (fun e => isSubstitution e = false)
        (trace (replaceCompileCommandsPath (R:=unit) (cw_rewrite w) path rt)))
  /\ (exists b,
        replaceCompileCommandsPath (R:=unit) (cw_rewrite w) path rt
        = (Normal b, rt,
           trace (replaceCompileCommandsPath (R:=unit) (cw_rewrite w) path rt))
        /\ Forall (fun e => isNotification e = false /\ isRefresh e = false)
             (trace (replaceCompileCommandsPath (R:=unit) (cw_rewrite w) path rt)))
  /\ (exists tail,
        forall rw : RewriteWorld,
          restartClangd (R:=unit) rw (cw_refresh w) path rt
          = (Normal tt, rt,
             preparingLine
             :: trace (replaceCompileCommandsPath (R:=unit) rw path rt) ++ tail))
  /\ (clangdAvailable (cw_refresh w) = true ->
      rf_restart (cw_refresh w) = Value tt ->
      refreshed (trace (restartClangd (R:=unit) (cw_rewrite w) (cw_refresh w)
                          path rt)) = true
      /\ In reindexingMessage
           (trace (restartClangd (R:=unit) (cw_rewrite w) (cw_refresh w) path rt)))
  /\ (completion (onClose (R:=unit) w c (Some 0%Z) None rt) = Normal tt
      /\ exists rest,
           trace (onClose (R:=unit) w c (Some 0%Z) None rt)
           = OutAppendLine (JS.nl +:+ dashes) :: successLine :: rest).
Proof.
  split; [apply replaceCompileCommandsPath_absent|].
  split; [apply replaceCompileCommandsPath_no_marker|].
  split; [apply replaceCompileCommandsPath_total|].
  split; [apply restartClangd_run|].
  split; [apply restartClangd_refreshes|].
  apply onClose_success.
Qed.

(** ** The forced kill *)

(** Once [stop] has run, the timer callback finds no current process: it
    sends nothing, whether or not the stopped process is still there. *)
Lemma stopTimeout_after_stop (rt : Runtime) (p : pid) :
  currentProcess (this rt) = Some p ->
  stopTimeout (R:=unit) (final (stop (R:=unit) rt))
  = (Normal tt, final (stop (R:=unit) rt), []).
Proof.
  intros H. apply stopTimeout_idle.
  destruct (stop_busy (R:=unit) rt p H) as (_ & _ & Hidle & _). exact Hidle.
Qed.

(** C2 fails on the code.  [stop] on the running process 0 sends SIGTERM
    and arms the 3 s timer, but clears [currentProcess] at once: when the
    timer fires, the process being still there, no SIGKILL is sent.  And
    after a confirmed stop-and-replace the timer finds the replacement,
    process 1, and sends SIGKILL to it, which never received SIGTERM. *)
Theorem C2_forced_kill_misses_the_stopped_process :
  trace (stop (R:=unit) busy) = stopEvents 0
  /\ procs (final (stop (R:=unit) busy)) !! 0
     = Some {| killed := true; handle := true; listeners := Some sampleClosure |}
  /\ stopTimeout (R:=unit) (final (stop (R:=unit) busy))
     = (Normal tt, final (stop (R:=unit) busy), [])
  /\ List.filter isKill
       (run posixJoin posixResolve
          [Execute (containerUp (Some stopAndExecute)) "make" None None;
           StopTimeout] busy).2
     = [Kill 0 SIGTERM; Kill 1 SIGKILL].
Proof. repeat split. Qed.

(** ** The container that does not exist *)

Section Enumeration.

Variable path_join : list string -> string.
Variable path_resolve : string -> string -> string.

(** When [docker ps] did run, whatever its exit status and output, the
    missing container is reported and nothing is spawned. *)
Lemma executeInDocker_container_missing (w : ExecWorld) (name command : string)
    (cwd : option string) (rt : Runtime) (err out : string) :
  currentProcess (this rt) = None ->
  error (w_inspect w) = None ->
  statusNonZero (w_inspect w) = true ->
  stderr (w_inspect w) = Some err ->
  JS.includes (JS.trim err) "No such object"
  || JS.includes (JS.trim err) "Error: No such container" = true ->
  stdout (w_ps w) = Some out ->
  completion (executeInDocker path_join path_resolve (R:=unit) w name command cwd rt)
  = Normal tt
  /\ final (executeInDocker path_join path_resolve (R:=unit) w name command cwd rt) = rt
  /\ In (containerNotFound name)
       (trace (executeInDocker path_join path_resolve (R:=unit) w name command cwd rt))
  /\ Forall (fun e => isSpawn e = false)
       (trace (executeInDocker path_join path_resolve (R:=unit) w name command cwd rt)).
Proof.
  intros Hidle He Hs Herr Hinc Hout.
  unfold executeInDocker, stopCurrentIfAny. open_calls. open_monad. cbv zeta.
  rewrite Hidle. simpl. rewrite He. simpl. rewrite Hs, Herr. simpl.
  rewrite Hinc, Hout. simpl.
  destruct (JS.truthy (JS.trim out)); simpl;
    (split; [reflexivity|split; [reflexivity|split]]);
    solve [ unfold containerNotFound; simpl; auto 20 | repeat constructor ].
Qed.

(** When [docker ps] could not be spawned, its result has no output
    buffer and [executeInDocker] ends with the [TypeError] of
    [listResult.stdout.toString()], before it reports the missing container. *)
Lemma executeInDocker_enumeration_throws (w : ExecWorld) (name command : string)
    (cwd : option string) (rt : Runtime) (err : string) :
  currentProcess (this rt) = None ->
  error (w_inspect w) = None ->
  statusNonZero (w_inspect w) = true ->
  stderr (w_inspect w) = Some err ->
  JS.includes (JS.trim err) "No such object"
  || JS.includes (JS.trim err) "Error: No such container" = true ->
  stdout (w_ps w) = None ->
  completion (executeInDocker path_join path_resolve (R:=unit) w name command cwd rt)
  = Thrown "TypeError: Cannot read properties of null (reading 'toString')"
  /\ List.filter isNotification
       (trace (executeInDocker path_join path_resolve (R:=unit) w name command cwd rt))
     = [].
Proof.
  intros Hidle He Hs Herr Hinc Hout.
  unfold executeInDocker, stopCurrentIfAny. open_calls. open_monad. cbv zeta.
  rewrite Hidle. simpl. rewrite He. simpl. rewrite Hs, Herr. simpl.
  rewrite Hinc, Hout. simpl. split; reflexivity.
Qed.

End Enumeration.

(** C9 fails on the code.  The container does not exist and the listing
    [docker ps] cannot be spawned: [executeInDocker] and with it [execute]
    end with an uncaught [TypeError], and the missing container is never
    reported; with a listing that ran and failed the report is made. *)
Theorem C9_enumeration_failure_escapes :
  completion (executeInDocker posixJoin posixResolve (R:=unit)
                (containerMissing (notSpawned "spawnSync docker EAGAIN"))
                "dev" "make" None idle)
  = Thrown "TypeError: Cannot read properties of null (reading 'toString')"
  /\ completion (execute posixJoin posixResolve (R:=unit)
                  (containerMissing (notSpawned "spawnSync docker EAGAIN"))
                  "make" None None idle)
     = Thrown "TypeError: Cannot read properties of null (reading 'toString')"
  /\ List.filter isNotification
       (trace (execute posixJoin posixResolve (R:=unit)
                 (containerMissing (notSpawned "spawnSync docker EAGAIN"))
                 "make" None None idle))
     = []
  /\ List.filter isNotification
       (trace (execute posixJoin posixResolve (R:=unit)
                 (containerMissing (exited 1 "" "Cannot connect to the Docker daemon"))
                 "make" None None idle))
     = [containerNotFound "dev"].
Proof. repeat split. Qed.

(** ** The theorems at sample inputs *)

(** A second command is declined while process 0 runs. *)
Lemma C1_single_flight_sample :
  executeLocally posixJoin posixResolve (R:=unit) (containerUp (Some "Cancel"))
    "make" None busy = (Normal tt, busy, [confirmPrompt])
  /\ executeInDocker posixJoin posixResolve (R:=unit) (containerUp (Some "Cancel"))
       "dev" "make" None busy = (Normal tt, busy, [confirmPrompt])
  /\ final (execute posixJoin posixResolve (R:=unit) (containerUp (Some "Cancel"))
              "make" None None busy) = busy.
Proof.
  destruct (C1_single_flight posixJoin posixResolve (containerUp (Some "Cancel"))
              "dev" "make" None None [] busy 0 eq_refl) as (_ & _ & _ & H).
  destruct H as (H1 & H2 & H3 & _); [discriminate|].
  split; [exact H1|]. split; [exact H2|exact H3].
Defined.

(** A container name of white space only: a blank, a no-break space, a
    tab. *)
Lemma C4_container_not_configured_sample :
  completion (execute posixJoin posixResolve (R:=unit)
                (world (config None (Some (" " +:+ nbsp +:+ String "009" "")) [])
                       None running running running running)
                "make" None None idle) = Normal tt
  /\ Forall (fun e => startsProcess e = false)
       (trace (execute posixJoin posixResolve (R:=unit)
                 (world (config None (Some (" " +:+ nbsp +:+ String "009" "")) [])
                        None running running running running)
                 "make" None None idle)).
Proof.
  destruct (C4_container_not_configured posixJoin posixResolve
              (world (config None (Some (" " +:+ nbsp +:+ String "009" "")) [])
                     None running running running running)
              "make" None None idle eq_refl eq_refl eq_refl) as (H1 & _ & H3 & _).
  split; [exact H1|exact H3].
Defined.

(** C4 as stated fails: with the container name not configured at all the
    setting reads as the default name; the invocation is not rejected, the
    container runtime is called and the command is spawned. *)
Lemma C4_unset_name_runs_the_default :
  cfg_dockerContainerName (w_config nameUnset) = None
  /\ shouldExecuteLocally None (w_config nameUnset) = false
  /\ existsb isNotConfigured
       (trace (execute posixJoin posixResolve (R:=unit) nameUnset "make" None None
                 idle)) = false
  /\ lastContainerCall
       (trace (execute posixJoin posixResolve (R:=unit) nameUnset "make" None None
                 idle))
     = Some (inspectArgs defaultContainerName, running)
  /\ existsb isSpawn
       (trace (execute posixJoin posixResolve (R:=unit) nameUnset "make" None None
                 idle)) = true.
Proof. repeat split. Qed.

(** The container is stopped, is started, and is then found running. *)
Lemma C5_spawn_after_running_check_sample :
  exists r,
    lastContainerCall
      (default []
         (beforeSpawn
            (trace (executeInDocker posixJoin posixResolve (R:=unit)
                      (world (config None (Some "dev") []) None stopped
                             (exited 0 "" "") (exited 0 "dev" "") running)
                      "dev" "make" (Some "./src") idle))))
    = Some (inspectArgs "dev", r)
    /\ reportsRunning r = true
    /\ (r = stopped
        \/ (r = running
            /\ In (SpawnSync "docker" ["start"; "dev"] (exited 0 "dev" ""))
                 (default []
                    (beforeSpawn
                       (trace (executeInDocker posixJoin posixResolve (R:=unit)
                                 (world (config None (Some "dev") []) None stopped
                                        (exited 0 "" "") (exited 0 "dev" "") running)
                                 "dev" "make" (Some "./src") idle)))))).
Proof.
  apply (C5_spawn_after_running_check posixJoin posixResolve
           (world (config None (Some "dev") []) None stopped
                  (exited 0 "" "") (exited 0 "dev" "") running)
           "dev" "make" (Some "./src") idle).
  reflexivity.
Defined.

(** The switch of the object entry sends the command to the host, though a
    bare string with the same text stands in front of it; a switch that is
    not [true] sends it to the container. *)
Lemma C7_mode_resolution_sample :
  executeCommandInternal posixJoin posixResolve (R:=unit) entryLocal "make" None idle
  = prepend [AddToHistory "make" None; GetConfiguration]
      (prepend [GetConfiguration]
         (executeLocally posixJoin posixResolve (R:=unit) entryLocal "make" None idle))
  /\ execute posixJoin posixResolve (R:=unit) (containerUp None) "make" None
       (Some false) idle
     = prepend [GetConfiguration]
         (executeInDocker posixJoin posixResolve (R:=unit) (containerUp None)
            "dev" "make" None idle).
Proof.
  split.
  - destruct (C7_mode_resolution posixJoin posixResolve entryLocal "make" None
                (Some true) idle eq_refl) as (_ & Hlocal & _ & Hlookup & Hentry & _).
    refine (eq_trans Hlookup _).
    refine (eq_trans
              (f_equal
                 (fun switch =>
                    prepend [AddToHistory "make" None; GetConfiguration]
                      (execute posixJoin posixResolve (R:=unit) entryLocal "make" None
                         switch idle))
                 (Hentry [CmdString "make"] None (Some "Build") (Some true) [] eq_refl))
              _).
    cbn [isTrue]. rewrite (Hlocal eq_refl). reflexivity.
  - destruct (C7_mode_resolution posixJoin posixResolve (containerUp None) "make"
                None (Some false) idle eq_refl) as (_ & _ & Hcontainer & _).
    exact (Hcontainer eq_refl).
Defined.

(** A missing file, and a file without the marker. *)
Lemma C8_rewrite_best_effort_sample :
  replaceCompileCommandsPath (R:=unit) fileGone sampleArtifact idle
  = (Normal false, idle,
     [updatingLine; ExistsSync sampleArtifact;
      OutAppendLine ("[Clangd] File does not exist: " +:+ sampleArtifact)])
  /\ Forall (fun e => isSubstitution e = false)
       (trace (replaceCompileCommandsPath (R:=unit) noMarker sampleArtifact idle))
  /\ refreshed (trace (restartClangd (R:=unit) sedFails clangdInstalled
                         sampleArtifact idle)) = true.
Proof.
  split; [|split].
  - apply (C8_rewrite_best_effort (artifactAppeared fileGone clangdInstalled)
             sampleClosure sampleArtifact "[]" idle).
    reflexivity.
  - apply (C8_rewrite_best_effort (artifactAppeared noMarker clangdInstalled)
             sampleClosure sampleArtifact "[]" idle).
    + discriminate.
    + reflexivity.
  - apply (C8_rewrite_best_effort (artifactAppeared sedFails clangdInstalled)
             sampleClosure sampleArtifact "[]" idle); reflexivity.
Defined.

(** An [execute] on an object made for another root. *)
Lemma C10_workspace_root_gate_sample :
  execute posixJoin posixResolve (R:=unit) (containerUp None) "make" None None
    (final (constructor posixJoin sampleHome "/tmp/project"))
  = (Normal tt, final (constructor posixJoin sampleHome "/tmp/project"), rootRejected)
  /\ workspaceRootValid (this (final (constructor posixJoin sampleHome sampleRoot)))
     = true.
Proof.
  split.
  - apply (C10_workspace_root_gate posixJoin posixResolve sampleHome "/tmp/project"
             [] (containerUp None) "make" None None).
  - apply (C10_workspace_root_gate posixJoin posixResolve sampleHome sampleRoot
             [] (containerUp None) "make" None None).
Defined.

(** After a confirmed stop-and-replace, the ['close'] of the replaced
    process 0 clears [currentProcess] while its replacement, process 1, is
    running: the object then holds no handle for a process that is there. *)
Remark close_of_replaced_process_clears_handle :
  currentProcess
    (this (run posixJoin posixResolve
             [Execute (containerUp (Some stopAndExecute)) "make" None None;
              CloseEvent 0 None (Some "SIGTERM")
                (artifactAppeared sedFails clangdInstalled)] busy).1) = None
  /\ handle <$> (procs (run posixJoin posixResolve
             [Execute (containerUp (Some stopAndExecute)) "make" None None;
              CloseEvent 0 None (Some "SIGTERM")
                (artifactAppeared sedFails clangdInstalled)] busy).1 !! 1)
     = Some true.
Proof. split; reflexivity. Qed.

(** * Properties of the channel, the tree and the handlers *)

(** ** The output channel *)

Lemma append_cons (c : ascii) (a b : string) :
  String c a +:+ b = String c (a +:+ b).
Proof. reflexivity. Qed.

Lemma append_nil (b : string) : "" +:+ b = b.
Proof. reflexivity. Qed.

Lemma length_append (a b : string) :
  String.length (a +:+ b) = String.length a + String.length b.
Proof.
  induction a as [|c r IH]; [reflexivity|].
  rewrite append_cons. cbn [String.length]. rewrite IH. reflexivity.
Qed.

Lemma append_assoc (a b c : string) : (a +:+ b) +:+ c = a +:+ (b +:+ c).
Proof.
  induction a as [|x a IH]; [rewrite !append_nil; reflexivity|].
  rewrite !append_cons, IH. reflexivity.
Qed.

Lemma append_empty (a : string) : a +:+ "" = a.
Proof. induction a as [|x a IH]; [reflexivity|]. rewrite append_cons, IH. reflexivity. Qed.

Lemma csiLength_plain (c : ascii) (r : string) :
  Ascii.eqb c OutputManager.esc = false ->
  OutputManager.csiLength (String c r) = None.
Proof.
  intros H. unfold OutputManager.csiLength. destruct r; [reflexivity|].
  rewrite H. reflexivity.
Qed.

Lemma replaceAll_plain (s : string) :
  hasEscape s = false -> OutputManager.replaceAll 0 s = s.
Proof.
  induction s as [|c r IH]; simpl; [reflexivity|].
  intros H. apply orb_false_iff in H as [Hc Hr].
  change (match OutputManager.csiLength (String c r) with
          | Some n => OutputManager.replaceAll (n - 1) r
          | None => String c (OutputManager.replaceAll 0 r)
          end = String c r).
  rewrite csiLength_plain by exact Hc. rewrite IH by exact Hr. reflexivity.
Qed.

Lemma replaceAll_plain_app (plain rest : string) :
  hasEscape plain = false ->
  OutputManager.replaceAll 0 (plain +:+ rest)
  = plain +:+ OutputManager.replaceAll 0 rest.
Proof.
  induction plain as [|c r IH]; [reflexivity|].
  simpl hasEscape. intros H. apply orb_false_iff in H as [Hc Hr].
  rewrite !append_cons.
  change (match OutputManager.csiLength (String c (r +:+ rest)) with
          | Some n => OutputManager.replaceAll (n - 1) (r +:+ rest)
          | None => String c (OutputManager.replaceAll 0 (r +:+ rest))
          end = String c (r +:+ OutputManager.replaceAll 0 rest)).
  rewrite csiLength_plain by exact Hc. rewrite IH by exact Hr. reflexivity.
Qed.

Lemma replaceAll_skip (a b : string) :
  OutputManager.replaceAll (String.length a) (a +:+ b) = OutputManager.replaceAll 0 b.
Proof.
  induction a as [|c r IH]; [destruct b; reflexivity|].
  rewrite append_cons. simpl. exact IH.
Qed.

Lemma letter_is_no_param (c : ascii) :
  OutputManager.isLetter c = true -> OutputManager.isParam c = false.
Proof.
  unfold OutputManager.isLetter, OutputManager.isParam.
  intros H. apply orb_false_iff. split.
  - apply andb_false_iff.
    destruct (Nat.leb_spec (nat_of_ascii c) 57) as [Hle|]; [|auto].
    exfalso. apply orb_true_iff in H as [H|H];
      apply andb_true_iff in H as [H1 H2];
      apply Nat.leb_le in H1, H2; lia.
  - destruct (Ascii.eqb_spec c ";"%char) as [->|]; [|reflexivity].
    discriminate H.
Qed.

Lemma paramRun_params (params rest : string) (letter : ascii) :
  allParams params = true ->
  OutputManager.isParam letter = false ->
  OutputManager.paramRun (params +:+ String letter rest) = String.length params
  /\ String.get (String.length params) (params +:+ String letter rest) = Some letter.
Proof.
  intros Hp Hl. induction params as [|c r IH].
  - change ("" +:+ String letter rest) with (String letter rest).
    cbn [OutputManager.paramRun String.length String.get]. rewrite Hl. auto.
  - simpl in Hp. apply andb_true_iff in Hp as [Hc Hr].
    rewrite append_cons. simpl. rewrite Hc.
    destruct (IH Hr) as [-> ->]. auto.
Qed.

(** X1: a text without an escape character passes [stripAnsiCodes]
    unchanged. *)
Theorem X1_strip_keeps_plain_text (text : string) :
  hasEscape text = false -> OutputManager.stripAnsiCodes text = text.
Proof. apply replaceAll_plain. Qed.

Lemma strip_sequence (plain params rest : string) (letter : ascii) :
  hasEscape plain = false ->
  allParams params = true ->
  OutputManager.isLetter letter = true ->
  OutputManager.stripAnsiCodes (plain +:+ controlSequence params letter +:+ rest)
  = plain +:+ OutputManager.stripAnsiCodes rest.
Proof.
  intros Hplain Hparams Hletter. unfold OutputManager.stripAnsiCodes.
  rewrite replaceAll_plain_app by exact Hplain. f_equal.
  unfold controlSequence. rewrite !append_cons.
  assert (Hshape : (params +:+ String letter "") +:+ rest
                   = params +:+ String letter rest).
  { clear. induction params as [|c r IH]; [reflexivity|].
    rewrite !append_cons. rewrite IH. reflexivity. }
  rewrite Hshape.
  destruct (paramRun_params params rest letter Hparams
              (letter_is_no_param letter Hletter)) as [Hrun Hget].
  cbn [OutputManager.replaceAll].
  unfold OutputManager.csiLength.
  rewrite Ascii.eqb_refl. simpl andb. cbv iota.
  rewrite Hrun, Hget, Hletter.
  assert (Hlen : String.length (String "["%char (params +:+ String letter ""))
                 = String.length params + 3 - 1).
  { cbn [String.length]. rewrite length_append. simpl. lia. }
  rewrite <- Hlen, <- Hshape.
  apply (replaceAll_skip (String "["%char (params +:+ String letter "")) rest).
Qed.

(** X2: a control sequence (escape, bracket, any run of digits and
    semicolons, one letter) that follows plain text is removed whole, and
    the rest is stripped in turn. *)
Theorem X2_strip_removes_control_sequence (plain params rest : string)
    (letter : ascii) :
  hasEscape plain = false ->
  allParams params = true ->
  OutputManager.isLetter letter = true ->
  OutputManager.stripAnsiCodes (plain +:+ controlSequence params letter +:+ rest)
  = plain +:+ OutputManager.stripAnsiCodes rest.
Proof. apply strip_sequence. Qed.

Lemma replaceAll_sublist (skip : nat) (s : string) :
  sublist (list_ascii_of_string (OutputManager.replaceAll skip s))
          (list_ascii_of_string s).
Proof.
  revert skip. induction s as [|c r IH]; intros skip.
  - destruct skip; simpl; constructor.
  - destruct skip as [|k].
    + cbn [OutputManager.replaceAll].
      destruct (OutputManager.csiLength (String c r)).
      * simpl. apply sublist_cons. apply IH.
      * simpl. apply sublist_skip. apply IH.
    + simpl. apply sublist_cons. apply IH.
Qed.

(** X3: [stripAnsiCodes] only ever removes characters: what it returns is
    a subsequence of the text, and never longer. *)
Theorem X3_strip_only_removes (text : string) :
  sublist (list_ascii_of_string (OutputManager.stripAnsiCodes text))
          (list_ascii_of_string text)
  /\ (String.length (OutputManager.stripAnsiCodes text) <= String.length text)%nat.
Proof.
  pose proof (replaceAll_sublist 0 text) as H. split; [exact H|].
  apply sublist_length in H.
  assert (L : forall s, length (list_ascii_of_string s) = String.length s).
  { clear. induction s; simpl; auto. }
  rewrite !L in H. exact H.
Qed.

Lemma paramRun_all (params : string) :
  allParams params = true ->
  String.get (OutputManager.paramRun params) params = None.
Proof.
  induction params as [|c r IH]; [reflexivity|].
  simpl. intros H. apply andb_true_iff in H as [Hc Hr].
  rewrite Hc. simpl. apply IH, Hr.
Qed.

(** X4: each chunk of process output is stripped on its own, so a control
    sequence that is cut between two chunks is not removed: both pieces
    reach the channel as they are. *)
Theorem X4_split_control_sequence_survives (plain p1 p2 rest : string)
    (letter : ascii) :
  hasEscape plain = false ->
  allParams p1 = true ->
  hasEscape (p2 +:+ String letter rest) = false ->
  OutputManager.channel (OutAppend (plain +:+ String OutputManager.esc (String "["%char p1)))
  ++ OutputManager.channel (OutAppend (p2 +:+ String letter rest))
  = [OutputManager.ChannelAppend
       (plain +:+ String OutputManager.esc (String "["%char p1));
     OutputManager.ChannelAppend (p2 +:+ String letter rest)].
Proof.
  intros Hplain Hp1 Hrest. simpl.
  unfold OutputManager.append, OutputManager.stripAnsiCodes. simpl.
  rewrite (replaceAll_plain _ Hrest).
  rewrite replaceAll_plain_app by exact Hplain.
  do 3 f_equal.
  cbn [OutputManager.replaceAll]. unfold OutputManager.csiLength.
  rewrite Ascii.eqb_refl. simpl andb. cbv iota.
  rewrite paramRun_all by exact Hp1.
  f_equal.
  assert (Hno : hasEscape (String "["%char p1) = false).
  { simpl. clear - Hp1. induction p1 as [|c r IH]; [reflexivity|].
    simpl in *. apply andb_true_iff in Hp1 as [Hc Hr].
    apply orb_false_iff. split; [|apply IH, Hr].
    destruct (Ascii.eqb_spec c OutputManager.esc) as [->|]; [discriminate Hc|reflexivity]. }
  apply (replaceAll_plain _ Hno).
Qed.

Lemma params_plain (params : string) : allParams params = true -> hasEscape params = false.
Proof.
  induction params as [|c r IH]; [reflexivity|]. simpl. intros H.
  apply andb_true_iff in H as [Hc Hr]. rewrite (IH Hr), orb_false_r.
  destruct (Ascii.eqb_spec c OutputManager.esc) as [->|]; [discriminate Hc|reflexivity].
Qed.

Lemma letter_plain (c : ascii) :
  OutputManager.isLetter c = true -> Ascii.eqb c OutputManager.esc = false.
Proof.
  intros H. destruct (Ascii.eqb_spec c OutputManager.esc) as [->|];
    [discriminate H|reflexivity].
Qed.

Lemma hasEscape_append (a b : string) :
  hasEscape (a +:+ b) = hasEscape a || hasEscape b.
Proof.
  induction a as [|c r IH]; [reflexivity|]. rewrite append_cons. simpl.
  rewrite IH, orb_assoc. reflexivity.
Qed.

(** X5: the stripping is one pass from left to right and does not look at
    its result again: when a control sequence stands inside the start of
    another one, its removal leaves a control sequence in the text that goes
    to the channel, and a second stripping would remove that one too. *)
Theorem X5_strip_is_one_pass (params inner : string) (letter last : ascii) :
  allParams params = true ->
  allParams inner = true ->
  OutputManager.isLetter letter = true ->
  OutputManager.isLetter last = true ->
  let text :=
    String OutputManager.esc
      (String "["%char (controlSequence inner letter +:+ params +:+ String last "")) in
  OutputManager.append text = [OutputManager.ChannelAppend (controlSequence params last)]
  /\ OutputManager.stripAnsiCodes (OutputManager.stripAnsiCodes text) = "".
Proof.
  intros Hparams Hinner Hletter Hlast text.
  assert (Hstrip : OutputManager.stripAnsiCodes text = controlSequence params last).
  { unfold text, OutputManager.stripAnsiCodes.
    assert (Hhead : forall r,
              OutputManager.replaceAll 0
                (String OutputManager.esc (String "["%char (String OutputManager.esc r)))
              = String OutputManager.esc
                  (String "["%char (OutputManager.replaceAll 0 (String OutputManager.esc r)))).
    { intros r. reflexivity. }
    unfold controlSequence at 1. rewrite append_cons, Hhead.
    fold (controlSequence inner letter).
    pose proof (strip_sequence "" inner (params +:+ String last "") letter
                  eq_refl Hinner Hletter) as Hseq.
    unfold OutputManager.stripAnsiCodes in Hseq. rewrite !append_nil in Hseq.
    unfold controlSequence at 1 in Hseq. rewrite append_cons in Hseq.
    rewrite Hseq. rewrite replaceAll_plain; [reflexivity|].
    rewrite hasEscape_append, (params_plain _ Hparams). simpl.
    rewrite (letter_plain _ Hlast). reflexivity. }
  split; [unfold OutputManager.append; rewrite Hstrip; reflexivity|].
  rewrite Hstrip.
  pose proof (strip_sequence "" params "" last eq_refl Hparams Hlast) as Hseq.
  rewrite append_nil, append_empty in Hseq. exact Hseq.
Qed.

(** ** The command history *)

Lemma findIndex_Some {A} (f : A -> bool) (l : list A) (i : nat) :
  Tree.findIndex f l = Some i ->
  exists x, l !! i = Some x /\ f x = true
            /\ Forall (fun y => f y = false) (take i l).
Proof.
  revert i. induction l as [|x rest IH]; intros i; simpl; [discriminate|].
  destruct (f x) eqn:Hx.
  - intros [= <-]. exists x. simpl. auto.
  - destruct (Tree.findIndex f rest) as [j|] eqn:Hj; [|discriminate].
    simpl. intros [= <-]. destruct (IH j eq_refl) as (y & Hy & Hfy & Hbefore).
    exists y. simpl. repeat split; auto.
Qed.

Lemma findIndex_None {A} (f : A -> bool) (l : list A) :
  Tree.findIndex f l = None -> Forall (fun y => f y = false) l.
Proof.
  induction l as [|x rest IH]; simpl; [constructor|].
  destruct (f x) eqn:Hx; [discriminate|].
  destruct (Tree.findIndex f rest); [discriminate|].
  intros _. constructor; auto.
Qed.

Lemma sameText_eq (a b : option string) : Tree.sameText a b = true <-> a = b.
Proof.
  destruct a as [x|], b as [y|]; simpl; try (split; congruence).
  rewrite String.eqb_eq. split; congruence.
Qed.

(** The test of [addToHistory] is the equality of keys. *)
Lemma sameEntry_key (command : string) (cwd : option string) (item : Tree.HistoryItem) :
  String.eqb (Tree.hi_command item) command && Tree.sameText (Tree.hi_cwd item) cwd
  = bool_decide (historyKey item = (command, cwd)).
Proof.
  unfold historyKey. symmetry.
  destruct (String.eqb (Tree.hi_command item) command) eqn:E1;
    destruct (Tree.sameText (Tree.hi_cwd item) cwd) eqn:E2; simpl.
  - apply bool_decide_eq_true. apply String.eqb_eq in E1.
    apply sameText_eq in E2. congruence.
  - apply bool_decide_eq_false. intros [= H1 H2].
    apply sameText_eq in H2. congruence.
  - apply bool_decide_eq_false. intros [= H1 H2].
    apply String.eqb_neq in E1. congruence.
  - apply bool_decide_eq_false. intros [= H1 H2].
    apply String.eqb_neq in E1. congruence.
Qed.

Lemma sublist_map {A B} (f : A -> B) (l k : list A) :
  sublist l k -> sublist (map f l) (map f k).
Proof. induction 1; simpl; constructor; auto. Qed.

(** The history with the first entry of this key taken out. *)
Lemma removed_step (command : string) (cwd : option string)
    (x : Tree.HistoryItem) (rest : list Tree.HistoryItem) :
  let f := fun item => String.eqb (Tree.hi_command item) command
                       && Tree.sameText (Tree.hi_cwd item) cwd in
  match Tree.findIndex f (x :: rest) with
  | Some index => delete index (x :: rest)
  | None => x :: rest
  end
  = if f x then rest
    else x :: match Tree.findIndex f rest with
              | Some index => delete index rest
              | None => rest
              end.
Proof.
  intros f. simpl. destruct (f x); [reflexivity|].
  destruct (Tree.findIndex f rest); reflexivity.
Qed.

Lemma removed_spec (command : string) (cwd : option string)
    (history : list Tree.HistoryItem) :
  let removed :=
    match Tree.findIndex (fun item => String.eqb (Tree.hi_command item) command
                                      && Tree.sameText (Tree.hi_cwd item) cwd) history with
    | Some index => delete index history
    | None => history
    end in
  sublist removed history
  /\ (length history - 1 <= length removed)%nat
  /\ (NoDup (map historyKey history) -> (command, cwd) ∉ map historyKey removed).
Proof.
  induction history as [|x rest IH].
  - simpl. repeat split; [constructor|lia|]. intros _. apply not_elem_of_nil.
  - cbv zeta in *. rewrite removed_step.
    rewrite sameEntry_key.
    destruct (bool_decide_reflect (historyKey x = (command, cwd))) as [Hk|Hk].
    + repeat split.
      * apply sublist_cons. reflexivity.
      * simpl. lia.
      * simpl. intros Hnd. apply NoDup_cons in Hnd as [Hnot _]. congruence.
    + destruct IH as (Hs & Hl & Hn). repeat split.
      * apply sublist_skip. exact Hs.
      * simpl in *. lia.
      * simpl. intros Hnd. apply NoDup_cons in Hnd as [_ Hnd].
        apply not_elem_of_cons. split; [congruence|auto].
Qed.

(** What [addToHistory] leaves: the entries that stay, in their order, then
    the new entry. *)
Lemma added_snoc (now : Z) (command : string) (cwd : option string)
    (p : Tree.CommandTreeProvider) :
  exists kept,
    added now command cwd p = kept ++ [newEntry now command cwd]
    /\ sublist kept (Tree.commandHistory p)
    /\ (length kept <= Nat.max (Tree.maxHistorySize - 1) (length (Tree.commandHistory p) - 1))%nat
    /\ (NoDup (map historyKey (Tree.commandHistory p)) ->
        (command, cwd) ∉ map historyKey kept).
Proof.
  unfold added, Tree.addToHistory, Tree.saveHistory. cbv zeta. simpl.
  destruct (removed_spec command cwd (Tree.commandHistory p)) as (Hs & Hl & Hn).
  cbv zeta in *.
  set (removed := match Tree.findIndex _ _ with Some _ => _ | None => _ end) in *.
  fold (newEntry now command cwd).
  destruct (Tree.maxHistorySize <? length (removed ++ [newEntry now command cwd]))%nat eqn:Hmax.
  - apply Nat.ltb_lt in Hmax. rewrite length_app in Hmax. simpl in Hmax.
    destruct removed as [|y kept] eqn:Hr; [unfold Tree.maxHistorySize in Hmax; simpl in Hmax; lia|].
    exists kept. simpl. repeat split.
    + etrans; [|exact Hs]. apply sublist_cons. reflexivity.
    + apply sublist_length in Hs. simpl in Hs. lia.
    + intros Hnd. specialize (Hn Hnd). simpl in Hn.
      apply not_elem_of_cons in Hn as [_ Hn]. exact Hn.
  - apply Nat.ltb_ge in Hmax. rewrite length_app in Hmax. simpl in Hmax.
    exists removed. repeat split; auto. unfold Tree.maxHistorySize in *. lia.
Qed.

(** X6: the command just run is the last entry of the history and the
    first node under COMMAND HISTORY, with its command and directory. *)
Theorem X6_history_newest_first (now : Z) (command : string) (cwd : option string)
    (p : Tree.CommandTreeProvider) :
  last (Tree.commandHistory (Tree.addToHistory now command cwd p).1)
  = Some (newEntry now command cwd)
  /\ exists first nodes,
       Tree.getHistoryCommands (Tree.addToHistory now command cwd p).1
       = first :: nodes
       /\ Tree.label first = command
       /\ Tree.commandText first = Some command
       /\ Tree.cwd first = cwd.
Proof.
  destruct (added_snoc now command cwd p) as (kept & Ha & _).
  unfold added in Ha. split.
  - rewrite Ha. apply last_snoc.
  - unfold Tree.getHistoryCommands. rewrite Ha.
    destruct (kept ++ [newEntry now command cwd]) eqn:E.
    + destruct kept; discriminate E.
    + rewrite <- E. rewrite rev_app_distr. simpl. eexists _, _.
      split; [reflexivity|]. auto.
Qed.

(** X7: [addToHistory] never lets the history grow beyond ten entries: the
    history is at most as long as before, or ten; from an empty history any
    series of calls keeps it within ten. *)
Theorem X7_history_bounded (now : Z) (command : string) (cwd : option string)
    (p : Tree.CommandTreeProvider) (calls : list (Z * string * option string)) :
  (length (Tree.commandHistory (Tree.addToHistory now command cwd p).1)
   <= Nat.max Tree.maxHistorySize (length (Tree.commandHistory p)))%nat
  /\ (length (Tree.commandHistory (addAll calls (Tree.constructor Tree.Unset)))
      <= Tree.maxHistorySize)%nat.
Proof.
  assert (Hone : forall now command cwd p,
             (length (Tree.commandHistory (Tree.addToHistory now command cwd p).1)
              <= Nat.max Tree.maxHistorySize (length (Tree.commandHistory p)))%nat).
  { clear. intros now command cwd p.
    destruct (added_snoc now command cwd p) as (kept & Ha & _ & Hl & _).
    unfold added in Ha. rewrite Ha, length_app.
    change (length [newEntry now command cwd]) with 1%nat.
    unfold Tree.maxHistorySize in *. lia. }
  split; [apply Hone|].
  assert (Hall : forall calls q,
             (length (Tree.commandHistory q) <= Tree.maxHistorySize)%nat ->
             (length (Tree.commandHistory (addAll calls q)) <= Tree.maxHistorySize)%nat).
  { clear - Hone. induction calls as [|[[now command] cwd] rest IH]; intros q Hq.
    - exact Hq.
    - cbn [addAll]. apply IH. specialize (Hone now command cwd q).
      unfold Tree.maxHistorySize in *. lia. }
  apply Hall. simpl. unfold Tree.maxHistorySize. lia.
Qed.

(** X8: when no two entries of the history have the same command and
    directory, the same holds after [addToHistory]: running a command again
    moves its entry to the end instead of adding a second one. *)
Theorem X8_history_keeps_entries_distinct (now : Z) (command : string)
    (cwd : option string) (p : Tree.CommandTreeProvider) :
  NoDup (map historyKey (Tree.commandHistory p)) ->
  NoDup (map historyKey (Tree.commandHistory (Tree.addToHistory now command cwd p).1))
  /\ (length (List.filter (fun item => bool_decide (historyKey item = (command, cwd)))
                (Tree.commandHistory (Tree.addToHistory now command cwd p).1)) = 1)%nat.
Proof.
  intros Hnd.
  destruct (added_snoc now command cwd p) as (kept & Ha & Hs & _ & Hn).
  unfold added in Ha. rewrite Ha. specialize (Hn Hnd).
  split.
  - rewrite map_app. simpl. apply NoDup_app. repeat split.
    + eapply sublist_NoDup; [exact Hnd|apply sublist_map; exact Hs].
    + intros k Hk Hin. apply list_elem_of_singleton in Hin. subst k.
      exact (Hn Hk).
    + apply NoDup_singleton.
  - rewrite List.filter_app. simpl. rewrite bool_decide_eq_true_2 by reflexivity.
    rewrite length_app. simpl.
    assert (Hnone : List.filter
                      (fun item => bool_decide (historyKey item = (command, cwd))) kept = []).
    { clear - Hn. induction kept as [|x rest IH]; [reflexivity|].
      simpl in *. apply not_elem_of_cons in Hn as [Hx Hrest].
      rewrite bool_decide_eq_false_2 by congruence. apply IH, Hrest. }
    rewrite Hnone. reflexivity.
Qed.

(** X9: the history survives a restart: a provider constructed from the
    state that [addToHistory] or [clearHistory] saved has the same history;
    a saved array of plain strings, the old format, loads as entries with a
    command only; without a saved array the history starts empty. *)
Theorem X9_history_persists (now : Z) (command : string) (cwd : option string)
    (p : Tree.CommandTreeProvider) (texts : list string) :
  Tree.commandHistory
    (Tree.constructor (Tree.globalState (Tree.addToHistory now command cwd p).1))
  = Tree.commandHistory (Tree.addToHistory now command cwd p).1
  /\ Tree.commandHistory
       (Tree.constructor (Tree.globalState (Tree.clearHistory p).1)) = []
  /\ Tree.commandHistory (Tree.constructor (Tree.StoredArray (map Tree.OldFormat texts)))
     = map (fun text => {| Tree.hi_command := text; Tree.hi_cwd := None;
                           Tree.hi_timestamp := None |}) texts
  /\ Tree.commandHistory (Tree.constructor Tree.Unset) = []
  /\ Tree.commandHistory (Tree.constructor Tree.NotAnArray) = [].
Proof.
  repeat split.
  - unfold Tree.constructor, Tree.loadHistory, Tree.addToHistory, Tree.saveHistory.
    cbv zeta. simpl. rewrite map_map. simpl. apply map_id.
  - unfold Tree.constructor, Tree.loadHistory. simpl. rewrite map_map. reflexivity.
Qed.

(** ** The command tree *)

Lemma click_is_menu (label : string) (nodeType : Tree.CommandNodeType)
    (command : string) (cwd : option string) :
  nodeType = Tree.COMMAND_ITEM \/ nodeType = Tree.HISTORY_ITEM ->
  clickTarget (Tree.newCommandTreeItem label nodeType Tree.StateNone (Some command) cwd)
  = target command cwd
  /\ menuTarget (Tree.newCommandTreeItem label nodeType Tree.StateNone (Some command) cwd)
     = target command cwd.
Proof.
  intros [-> | ->]; unfold clickTarget, menuTarget, target,
    Extension.clickArguments, Extension.executeFromTreeTarget; simpl;
    destruct (JS.truthy command) eqn:E; rewrite ?E; auto.
Qed.

(** X10: a click on a node of a predefined command, and the context menu on
    it, make [executeFromTree] execute the command text of its entry (not the
    alias it shows) in the directory of the entry; an entry with an empty
    command text, and the node shown for an empty list, execute nothing. *)
Theorem X10_predefined_nodes_execute_their_entry (config : Configuration) :
  match predefined config with
  | [] =>
      map clickTarget (Tree.getPredefinedCommands config) = [None]
      /\ map menuTarget (Tree.getPredefinedCommands config) = [None]
  | commands =>
      map clickTarget (Tree.getPredefinedCommands config) = map entryTarget commands
      /\ map menuTarget (Tree.getPredefinedCommands config) = map entryTarget commands
  end.
Proof.
  unfold predefined, Tree.getPredefinedCommands.
  destruct (config_get (cfg_predefinedCommands config) []) as [|c rest] eqn:E.
  - split; reflexivity.
  - rewrite !map_map. split; apply map_ext; intros [text|command cwd alias e];
      apply (click_is_menu _ Tree.COMMAND_ITEM); auto.
Qed.

(** X11: the nodes of the history execute the commands of the history, the
    newest first, each in its directory; the node shown for an empty history
    executes nothing. *)
Theorem X11_history_nodes_execute_their_entry (p : Tree.CommandTreeProvider) :
  match Tree.commandHistory p with
  | [] =>
      map clickTarget (Tree.getHistoryCommands p) = [None]
      /\ map menuTarget (Tree.getHistoryCommands p) = [None]
  | history =>
      map clickTarget (Tree.getHistoryCommands p)
      = map (fun h => target (Tree.hi_command h) (Tree.hi_cwd h)) (rev history)
      /\ map menuTarget (Tree.getHistoryCommands p)
         = map (fun h => target (Tree.hi_command h) (Tree.hi_cwd h)) (rev history)
  end.
Proof.
  unfold Tree.getHistoryCommands.
  destruct (Tree.commandHistory p) as [|h rest] eqn:E.
  - split; reflexivity.
  - rewrite !map_map. split; apply map_ext; intros x;
      unfold clickTarget, menuTarget, target,
        Extension.clickArguments, Extension.executeFromTreeTarget; simpl;
      destruct (JS.truthy (Tree.hi_command x)) eqn:Ex; rewrite ?Ex; reflexivity.
Qed.

Lemma predefined_leaves (config : Configuration) :
  Forall (fun node => Tree.nodeType node = Tree.COMMAND_ITEM
                      /\ Tree.collapsibleState node = Tree.StateNone)
    (Tree.getPredefinedCommands config).
Proof.
  unfold Tree.getPredefinedCommands.
  destruct (config_get (cfg_predefinedCommands config) []) as [|c rest].
  - repeat constructor.
  - apply Forall_forall. intros x Hx.
    apply list_elem_of_In, in_map_iff in Hx as (cmd & <- & _).
    destruct cmd; split; reflexivity.
Qed.

Lemma history_leaves (p : Tree.CommandTreeProvider) :
  Forall (fun node => Tree.nodeType node = Tree.HISTORY_ITEM
                      /\ Tree.collapsibleState node = Tree.StateNone)
    (Tree.getHistoryCommands p).
Proof.
  unfold Tree.getHistoryCommands.
  destruct (Tree.commandHistory p) as [|h rest].
  - repeat constructor.
  - apply Forall_forall. intros x Hx.
    apply list_elem_of_In, in_map_iff in Hx as (item & <- & _).
    split; reflexivity.
Qed.

(** X12: the tree has two levels: the three root nodes are all collapsible,
    every node below them is not and has no children. *)
Theorem X12_tree_has_two_levels (config : Configuration)
    (p : Tree.CommandTreeProvider) :
  map Tree.nodeType (Tree.getChildren config p None)
  = [Tree.PREDEFINED_COMMANDS; Tree.CUSTOM_COMMAND; Tree.HISTORY]
  /\ Forall (fun root =>
               Tree.collapsibleState root <> Tree.StateNone
               /\ Forall (fun node =>
                            Tree.collapsibleState node = Tree.StateNone
                            /\ Tree.getChildren config p (Some node) = [])
                    (Tree.getChildren config p (Some root)))
       (Tree.getChildren config p None).
Proof.
  split; [reflexivity|].
  change (Tree.getChildren config p None) with
    [Tree.newCommandTreeItem "PREDEFINED COMMANDS" Tree.PREDEFINED_COMMANDS
       Tree.Expanded None None;
     Tree.newCommandTreeItem "EXECUTE CUSTOM COMMAND" Tree.CUSTOM_COMMAND
       Tree.Collapsed None None;
     Tree.newCommandTreeItem "COMMAND HISTORY" Tree.HISTORY Tree.Collapsed None None].
  apply Forall_cons. split; [|apply Forall_cons; split; [|apply Forall_cons; split]].
  - split; [discriminate|].
    match goal with |- Forall _ ?l => change l with (Tree.getPredefinedCommands config) end.
    eapply Forall_impl; [apply predefined_leaves|].
    intros node [Hn Hs]. split; [assumption|].
    unfold Tree.getChildren. rewrite Hn. reflexivity.
  - split; [discriminate|]. constructor.
  - split; [discriminate|].
    match goal with |- Forall _ ?l => change l with (Tree.getHistoryCommands p) end.
    eapply Forall_impl; [apply history_leaves|].
    intros node [Hn Hs]. split; [assumption|].
    unfold Tree.getChildren. rewrite Hn. reflexivity.
  - constructor.
Qed.

(** ** The handlers that edit the predefined commands *)

Lemma existsb_texts (command : string) (commands : list PredefinedCommand) :
  existsb (fun cmd => String.eqb (Extension.cmdText cmd) command) commands
  = bool_decide (command ∈ texts commands).
Proof.
  induction commands as [|c rest IH]; cbn [existsb].
  - symmetry. apply bool_decide_eq_false_2. apply not_elem_of_nil.
  - rewrite IH. destruct (String.eqb_spec (Extension.cmdText c) command) as [<-|Hne];
      cbn [orb].
    + symmetry. apply bool_decide_eq_true_2. unfold texts. simpl. apply elem_of_cons. auto.
    + apply bool_decide_ext. unfold texts. simpl. rewrite elem_of_cons.
      split; [auto|]. intros [H|H]; [congruence|assumption].
Qed.

Lemma findExecuteLocally_skip (cmd : PredefinedCommand)
    (rest : list PredefinedCommand) (command : string) :
  Extension.cmdText cmd <> command ->
  findExecuteLocally (cmd :: rest) command = findExecuteLocally rest command.
Proof.
  intros Hne. destruct cmd as [t|c d a e]; simpl; [reflexivity|].
  simpl in Hne. apply String.eqb_neq in Hne. rewrite Hne. reflexivity.
Qed.

Lemma findExecuteLocally_fresh (commands : list PredefinedCommand) (command : string) :
  command ∉ texts commands -> findExecuteLocally commands command = None.
Proof.
  induction commands as [|c rest IH]; intros Hnot; [reflexivity|].
  unfold texts in Hnot. simpl in Hnot. apply not_elem_of_cons in Hnot as [Hne Hrest].
  rewrite findExecuteLocally_skip by congruence. apply IH, Hrest.
Qed.

Lemma findExecuteLocally_app (l1 l2 : list PredefinedCommand) (command : string) :
  findExecuteLocally (l1 ++ l2) command
  = match findExecuteLocally l1 command with
    | Some b => Some b
    | None => findExecuteLocally l2 command
    end.
Proof.
  induction l1 as [|c rest IH]; [reflexivity|].
  destruct c as [t|c d a e]; simpl; [apply IH|].
  destruct (String.eqb c command); [reflexivity|apply IH].
Qed.

Lemma findExecuteLocally_filter (commands : list PredefinedCommand)
    (command other : string) :
  other <> command ->
  findExecuteLocally
    (List.filter (fun cmd => negb (String.eqb (Extension.cmdText cmd) command)) commands)
    other
  = findExecuteLocally commands other.
Proof.
  intros Hne. induction commands as [|c rest IH]; [reflexivity|]. simpl.
  destruct (String.eqb_spec (Extension.cmdText c) command) as [Heq|Hneq]; simpl.
  - rewrite IH. symmetry. apply findExecuteLocally_skip. congruence.
  - destruct c as [t|c d a e]; simpl; [apply IH|].
    destruct (String.eqb c other); [reflexivity|apply IH].
Qed.

Lemma filter_texts (commands : list PredefinedCommand) (command : string) :
  command ∉ texts
    (List.filter (fun cmd => negb (String.eqb (Extension.cmdText cmd) command)) commands).
Proof.
  induction commands as [|c rest IH]; simpl; [apply not_elem_of_nil|].
  destruct (String.eqb_spec (Extension.cmdText c) command) as [Heq|Hneq]; simpl;
    [assumption|].
  unfold texts. simpl. apply not_elem_of_cons. split; [congruence|assumption].
Qed.

Lemma filter_sublist {A} (f : A -> bool) (l : list A) : List.filter f l `sublist_of` l.
Proof.
  induction l as [|x l IH]; simpl; [constructor|].
  destruct (f x); [apply sublist_skip|apply sublist_cons]; assumption.
Qed.

Lemma filter_full {A} (f : A -> bool) (l : list A) :
  length l <= length (List.filter f l) -> List.filter f l = l.
Proof.
  induction l as [|x l IH]; simpl; [reflexivity|].
  destruct (f x); simpl; intros Hlen.
  - f_equal. apply IH. lia.
  - pose proof (List.filter_length_le f l). lia.
Qed.

Lemma filter_keeps {A} (f : A -> bool) (l : list A) (x : A) :
  x ∈ l -> f x = true -> x ∈ List.filter f l.
Proof.
  intros Hin Hf. apply list_elem_of_In, filter_In. split; [|assumption].
  apply list_elem_of_In, Hin.
Qed.

Lemma truthyFlag_isTrue (x : option bool) : Extension.truthyFlag x = isTrue x.
Proof. destruct x as [[]|]; reflexivity. Qed.

(** X13: the add command handler leaves the settings alone when no command
    was entered and when an entry with this command text exists; otherwise
    it appends one entry with this text, so that distinct command texts
    stay distinct, the lookups of the other commands are what they were, and
    the new command resolves to local execution exactly when the global
    switch is off and Local was picked. *)
Theorem X13_add_command (answers : Extension.AddAnswers)
    (workspaceRoot : option string) (config : Configuration) :
  let result := (Extension.addCommand answers workspaceRoot config).1 in
  match Extension.ans_command answers with
  | Some command =>
      if JS.truthy command && negb (bool_decide (command ∈ texts (predefined config)))
      then
        texts (predefined result) = texts (predefined config) ++ [command]
        /\ (NoDup (texts (predefined config)) -> NoDup (texts (predefined result)))
        /\ (forall other, other <> command ->
              findExecuteLocally (predefined result) other
              = findExecuteLocally (predefined config) other)
        /\ resolvesLocal (predefined result) command
           = negb (config_get (cfg_executeLocally config) false)
             && isTrue (Extension.ans_mode answers)
      else result = config
  | None => result = config
  end.
Proof.
  unfold Extension.addCommand, predefined.
  destruct (Extension.ans_command answers) as [command|]; [|reflexivity].
  destruct (JS.truthy command); simpl; [|reflexivity].
  rewrite existsb_texts.
  destruct (bool_decide (command ∈ texts _)) eqn:Hin; simpl; [reflexivity|].
  apply bool_decide_eq_false in Hin.
  set (commands := config_get (cfg_predefinedCommands config) []) in *.
  split; [|split; [|split]].
  - unfold texts. rewrite map_app. reflexivity.
  - intros Hnd. unfold texts. rewrite map_app. simpl.
    apply NoDup_app. split; [assumption|]. split.
    + intros x Hx Hx'. apply list_elem_of_singleton in Hx'. subst. auto.
    + apply NoDup_singleton.
  - intros other Hne. rewrite findExecuteLocally_app.
    destruct (findExecuteLocally commands other); [reflexivity|].
    simpl. apply String.eqb_neq in Hne. rewrite String.eqb_sym, Hne. reflexivity.
  - unfold resolvesLocal. rewrite findExecuteLocally_app.
    rewrite (findExecuteLocally_fresh _ _ Hin). simpl. rewrite String.eqb_refl.
    destruct (config_get (cfg_executeLocally config) false); simpl; [reflexivity|].
    destruct (Extension.ans_mode answers) as [[]|]; reflexivity.
Qed.

(** X14: the remove command handler changes the settings only after the
    answer Remove; then no entry with the command text of the item is left
    (duplicates go too), the other entries stay in their order, and the
    lookups of the other commands are what they were. *)
Theorem X14_remove_command (treeItem : option Tree.CommandTreeItem)
    (confirm : option string) (config : Configuration) :
  let result := (Extension.removeCommand treeItem confirm config).1 in
  match Extension.itemCommand treeItem with
  | Some command =>
      if bool_decide (confirm = Some "Remove") then
        (command ∉ texts (predefined result))
        /\ predefined result `sublist_of` predefined config
        /\ (forall cmd, cmd ∈ predefined config -> Extension.cmdText cmd <> command ->
              cmd ∈ predefined result)
        /\ (forall other, other <> command ->
              findExecuteLocally (predefined result) other
              = findExecuteLocally (predefined config) other)
      else result = config
  | None => result = config
  end.
Proof.
  unfold Extension.removeCommand, predefined.
  destruct (Extension.itemCommand treeItem) as [command|]; [|reflexivity].
  destruct (bool_decide (confirm = Some "Remove")); [|reflexivity].
  set (commands := config_get (cfg_predefinedCommands config) []).
  set (f := fun cmd => negb (String.eqb (Extension.cmdText cmd) command)).
  assert (Hsame : (length (List.filter f commands) <? length commands)%nat = false ->
                  List.filter f commands = commands).
  { intros Hlen. apply Nat.ltb_ge in Hlen. apply filter_full, Hlen. }
  destruct (length (List.filter f commands) <? length commands)%nat eqn:Hlen; simpl.
  - split; [apply filter_texts|]. split; [apply filter_sublist|]. split.
    + intros cmd Hin Hne. apply filter_keeps; [assumption|].
      unfold f. apply String.eqb_neq in Hne. rewrite Hne. reflexivity.
    + intros other Hne. apply findExecuteLocally_filter, Hne.
  - fold commands. pose proof (Hsame eq_refl) as Heq.
    split; [rewrite <- Heq; apply filter_texts|]. split; [reflexivity|].
    split; [intros cmd Hin Hne; assumption|reflexivity].
Qed.

Lemma sansAlias_withAlias (cmd : PredefinedCommand) (alias : option string) :
  sansAlias (Extension.withAlias cmd alias) = sansAlias cmd.
Proof. destruct cmd; reflexivity. Qed.

Lemma resolvesLocal_distinct (commands : list PredefinedCommand) (command : string) :
  NoDup (texts commands) ->
  resolvesLocal commands command
  = existsb (fun entry => String.eqb entry.1.1 command && entry.2)
      (map sansAlias commands).
Proof.
  unfold resolvesLocal. induction commands as [|c rest IH]; intros Hnd; [reflexivity|].
  unfold texts in Hnd. simpl in Hnd. apply NoDup_cons in Hnd as [Hnot Hnd].
  cbn [map existsb sansAlias fst snd].
  destruct (String.eqb_spec (Extension.cmdText c) command) as [Heq|Hne].
  - subst command.
    assert (Hrest : existsb (fun entry => String.eqb entry.1.1 (Extension.cmdText c) && entry.2)
                      (map sansAlias rest) = false).
    { rewrite <- IH by assumption. rewrite findExecuteLocally_fresh by assumption.
      reflexivity. }
    rewrite Hrest, orb_false_r.
    destruct c as [t|c d a e]; simpl.
    + rewrite findExecuteLocally_fresh by assumption. reflexivity.
    + rewrite String.eqb_refl. destruct e as [[]|]; reflexivity.
  - rewrite findExecuteLocally_skip by assumption. simpl. apply IH, Hnd.
Qed.

Lemma editCommandAlias_entries (treeItem : option Tree.CommandTreeItem)
    (newAlias : option string) (config : Configuration) :
  map sansAlias (predefined (Extension.editCommandAlias treeItem newAlias config).1)
  = map sansAlias (predefined config).
Proof.
  unfold Extension.editCommandAlias, predefined.
  destruct (Extension.itemCommand treeItem) as [command|]; [|reflexivity].
  destruct (Tree.findIndex _ _) as [index|]; [|reflexivity].
  destruct (config_get (cfg_predefinedCommands config) [] !! index) as [current|] eqn:Hat;
    [|reflexivity].
  destruct newAlias as [typed|]; [|reflexivity].
  simpl. rewrite list_fmap_insert, sansAlias_withAlias.
  apply list_insert_id. rewrite list_lookup_fmap, Hat. reflexivity.
Qed.

(** X15: the alias handler changes nothing but the alias: whatever the
    item and the answer, the entries keep their order, command texts,
    directories and switches (a bare string it turns into an object has no
    directory and no switch). *)
Theorem X15_edit_alias_keeps_entries (treeItem : option Tree.CommandTreeItem)
    (newAlias : option string) (config : Configuration) :
  let result := (Extension.editCommandAlias treeItem newAlias config).1 in
  map sansAlias (predefined result) = map sansAlias (predefined config)
  /\ texts (predefined result) = texts (predefined config)
  /\ cfg_executeLocally result = cfg_executeLocally config
  /\ cfg_dockerContainerName result = cfg_dockerContainerName config.
Proof.
  pose proof (editCommandAlias_entries treeItem newAlias config) as Hentries.
  split; [exact Hentries|]. split.
  - unfold texts.
    assert (Hfst : forall l, map Extension.cmdText l = map (fun e => e.1.1) (map sansAlias l))
      by (intros l; rewrite map_map; reflexivity).
    rewrite !Hfst, Hentries. reflexivity.
  - unfold Extension.editCommandAlias.
    destruct (Extension.itemCommand treeItem) as [command|]; [|auto].
    destruct (Tree.findIndex _ _) as [index|]; [|auto].
    destruct (config_get (cfg_predefinedCommands config) [] !! index); [|auto].
    destruct newAlias; auto.
Qed.

(** X16: when the command texts of the predefined commands are distinct,
    an alias edit leaves the execution mode of every command what it was:
    the lookup of [executeCommandInternal] says local for the same commands
    before and after. *)
Theorem X16_edit_alias_keeps_mode (treeItem : option Tree.CommandTreeItem)
    (newAlias : option string) (config : Configuration) (command : string) :
  NoDup (texts (predefined config)) ->
  resolvesLocal (predefined (Extension.editCommandAlias treeItem newAlias config).1) command
  = resolvesLocal (predefined config) command.
Proof.
  intros Hnd.
  pose proof (editCommandAlias_entries treeItem newAlias config) as Hentries.
  rewrite !resolvesLocal_distinct.
  - rewrite Hentries. reflexivity.
  - assumption.
  - unfold texts in *.
    assert (Hfst : forall l, map Extension.cmdText l = map (fun e => e.1.1) (map sansAlias l))
      by (intros l; rewrite map_map; reflexivity).
    rewrite Hfst, Hentries, <- Hfst. assumption.
Qed.

(** X17: without distinct command texts an alias edit can change the
    execution mode: when a bare string stands in front of an object entry
    with the same command text and the switch on, the command runs locally
    before the edit (the lookup passes over the string) and in the container
    after it (the string has become an object without switch, which now
    decides). *)
Theorem X17_edit_alias_of_shadowing_string (command typed : string)
    (cwd alias : option string) (rest : list PredefinedCommand)
    (config : Configuration) :
  JS.truthy command = true ->
  cfg_predefinedCommands config
  = Some (CmdString command :: CmdObject command cwd alias (Some true) :: rest) ->
  resolvesLocal (predefined config) command = true
  /\ resolvesLocal
       (predefined (Extension.editCommandAlias (menuItem command) (Some typed) config).1)
       command = false.
Proof.
  intros Htruthy Hcommands.
  unfold Extension.editCommandAlias, predefined, resolvesLocal, menuItem,
    Extension.itemCommand.
  cbn [Tree.commandText Tree.newCommandTreeItem]. rewrite Htruthy, Hcommands.
  cbn [config_get Tree.findIndex Extension.cmdText]. rewrite String.eqb_refl.
  simpl. rewrite String.eqb_refl. auto.
Qed.

Lemma toggled_text (text : string) (cmd : PredefinedCommand) :
  Extension.cmdText (Extension.toggled text cmd) = Extension.cmdText cmd.
Proof.
  destruct cmd as [s|c d a e]; simpl;
    [destruct (String.eqb s text)|destruct (String.eqb c text)]; reflexivity.
Qed.

Lemma toggled_other (text other : string) (commands : list PredefinedCommand) :
  other <> text ->
  findExecuteLocally (map (Extension.toggled text) commands) other
  = findExecuteLocally commands other.
Proof.
  intros Hne. induction commands as [|c rest IH]; [reflexivity|].
  cbn [map].
  destruct (String.eqb_spec (Extension.cmdText c) other) as [Heq|Hneq].
  - assert (Hsame : Extension.toggled text c = c).
    { destruct c as [s|c d a e]; simpl in *; subst.
      - apply String.eqb_neq in Hne. rewrite Hne. reflexivity.
      - apply String.eqb_neq in Hne. rewrite Hne. reflexivity. }
    rewrite Hsame. destruct c as [s|c d a e]; simpl; [apply IH|].
    simpl in Heq. subst. rewrite String.eqb_refl. reflexivity.
  - rewrite !findExecuteLocally_skip; [apply IH|assumption|].
    rewrite toggled_text. assumption.
Qed.

Lemma toggled_announced (text : string) (commands : list PredefinedCommand) :
  text ∈ texts commands ->
  findExecuteLocally (map (Extension.toggled text) commands) text
  = Some (Extension.announcedLocal text (map (Extension.toggled text) commands)).
Proof.
  induction commands as [|c rest IH]; intros Hin.
  - apply elem_of_nil in Hin. contradiction.
  - unfold texts in Hin. cbn [map] in Hin. apply elem_of_cons in Hin.
    cbn [map].
    destruct c as [s|c d a e]; cbn [Extension.toggled Extension.cmdText] in *.
    + destruct (String.eqb_spec s text) as [Heq|Hne].
      * subst. simpl. rewrite String.eqb_refl. reflexivity.
      * simpl. apply IH. destruct Hin as [Heq|Hin]; [congruence|assumption].
    + destruct (String.eqb_spec c text) as [Heq|Hne].
      * subst. simpl. rewrite String.eqb_refl. reflexivity.
      * simpl. apply String.eqb_neq in Hne. rewrite Hne.
        apply IH. apply String.eqb_neq in Hne.
        destruct Hin as [Heq|Hin]; [congruence|assumption].
Qed.

Lemma toggled_flips (text : string) (commands : list PredefinedCommand) :
  NoDup (texts commands) -> text ∈ texts commands ->
  resolvesLocal (map (Extension.toggled text) commands) text
  = negb (resolvesLocal commands text).
Proof.
  unfold resolvesLocal.
  induction commands as [|c rest IH]; intros Hnd Hin.
  - apply elem_of_nil in Hin. contradiction.
  - unfold texts in Hnd, Hin. cbn [map] in Hnd, Hin.
    apply NoDup_cons in Hnd as [Hnot Hnd]. apply elem_of_cons in Hin.
    cbn [map].
    destruct (String.eqb_spec (Extension.cmdText c) text) as [Heq|Hne].
    + subst text. destruct c as [s|c d a e]; simpl in *.
      * rewrite String.eqb_refl. simpl. rewrite String.eqb_refl.
        rewrite findExecuteLocally_fresh by assumption. reflexivity.
      * rewrite String.eqb_refl. simpl. rewrite String.eqb_refl.
        destruct e as [[]|]; reflexivity.
    + rewrite !findExecuteLocally_skip;
        [|assumption|rewrite toggled_text; assumption].
      apply IH; [assumption|]. destruct Hin as [Heq|Hin]; [congruence|assumption].
Qed.

(** X18: the per-command toggle keeps the entries' command texts and the
    lookups of all other commands; when the command is among the entries,
    the mode its message announces is the switch that the lookup of
    [executeCommandInternal] finds afterwards, so the command then runs
    locally exactly when the message said local or the global switch is on;
    without an entry of this text the settings stay as they are. *)
Theorem X18_toggle_command (treeItem : option Tree.CommandTreeItem)
    (config : Configuration) :
  let result := (Extension.toggleCommandExecuteLocally treeItem config).1 in
  match Extension.itemCommand treeItem with
  | Some text =>
      texts (predefined result) = texts (predefined config)
      /\ (forall other, other <> text ->
            findExecuteLocally (predefined result) other
            = findExecuteLocally (predefined config) other)
      /\ if bool_decide (text ∈ texts (predefined config)) then
           let announced := Extension.announcedLocal text (predefined result) in
           findExecuteLocally (predefined result) text = Some announced
           /\ shouldExecuteLocally (findExecuteLocally (predefined result) text) result
              = announced || config_get (cfg_executeLocally config) false
         else result = config
  | None => result = config
  end.
Proof.
  unfold Extension.toggleCommandExecuteLocally, predefined.
  destruct (Extension.itemCommand treeItem) as [text|]; [|reflexivity].
  rewrite existsb_texts.
  set (commands := config_get (cfg_predefinedCommands config) []).
  destruct (bool_decide (text ∈ texts commands)) eqn:Hin; simpl.
  - apply bool_decide_eq_true in Hin.
    split; [|split; [|split]].
    + unfold texts. rewrite map_map. apply map_ext. intros c. apply toggled_text.
    + intros other Hne. apply toggled_other, Hne.
    + apply toggled_announced, Hin.
    + rewrite (toggled_announced _ _ Hin). unfold shouldExecuteLocally. simpl.
      destruct (Extension.announcedLocal _ _); reflexivity.
  - auto.
Qed.

(** X19: when the command texts are distinct, the per-command toggle of a
    predefined command flips what the lookup of [executeCommandInternal]
    says about it: local becomes not local and the reverse. *)
Theorem X19_toggle_command_flips (treeItem : option Tree.CommandTreeItem)
    (config : Configuration) (text : string) :
  Extension.itemCommand treeItem = Some text ->
  NoDup (texts (predefined config)) ->
  text ∈ texts (predefined config) ->
  resolvesLocal (predefined (Extension.toggleCommandExecuteLocally treeItem config).1) text
  = negb (resolvesLocal (predefined config) text).
Proof.
  intros Hitem Hnd Hin.
  unfold Extension.toggleCommandExecuteLocally. rewrite Hitem.
  rewrite existsb_texts. fold (predefined config).
  rewrite (bool_decide_eq_true_2 _ Hin).
  unfold predefined at 1. simpl. apply toggled_flips; assumption.
Qed.

(** X20: the global toggle inverts the global switch and nothing else; after
    it a command without a per-command switch runs in the other mode, and
    two toggles give back the mode of every command. *)
Theorem X20_toggle_global (config : Configuration) (perCommand : option bool) :
  let once := (Extension.toggleGlobalExecutionMode config).1 in
  let twice := (Extension.toggleGlobalExecutionMode once).1 in
  shouldExecuteLocally None once = negb (shouldExecuteLocally None config)
  /\ shouldExecuteLocally perCommand twice = shouldExecuteLocally perCommand config
  /\ predefined once = predefined config
  /\ cfg_dockerContainerName once = cfg_dockerContainerName config.
Proof.
  unfold Extension.toggleGlobalExecutionMode, shouldExecuteLocally, predefined; simpl.
  rewrite negb_involutive. auto.
Qed.

(** ** Trimming *)

Lemma spaceWidth_length (s : string) : (JS.spaceWidth s <= String.length s)%nat.
Proof.
  destruct s as [|c [|d [|e r]]]; simpl; repeat case_match; lia.
Qed.

Lemma spaceWidth_app (s t : string) :
  JS.spaceWidth s <> 0%nat -> JS.spaceWidth (s +:+ t) = JS.spaceWidth s.
Proof.
  destruct s as [|c [|d [|e r]]]; rewrite ?append_cons, ?append_nil; simpl;
    repeat case_match; congruence.
Qed.

Lemma dropSpaces_clean (k : nat) (s : string) :
  JS.spaceWidth (JS.dropSpaces k s) = 0%nat.
Proof.
  revert k. induction s as [|c r IH]; intros k; [destruct k; reflexivity|].
  cbn [JS.dropSpaces]. destruct k as [|k]; [|apply IH].
  destruct (JS.spaceWidth (String c r)) eqn:E; [exact E|apply IH].
Qed.

Lemma trimStart_id (s : string) : JS.spaceWidth s = 0%nat -> JS.trimStart s = s.
Proof.
  intros H. destruct s as [|c r]; [reflexivity|].
  unfold JS.trimStart. cbn [JS.dropSpaces]. rewrite H. reflexivity.
Qed.

Lemma dropSpaces_app (k : nat) (a w : string) :
  (k <= String.length a)%nat -> JS.dropSpaces k a = "" ->
  JS.dropSpaces k (a +:+ w) = JS.dropSpaces 0 w.
Proof.
  revert k. induction a as [|c r IH]; intros k Hk Hempty.
  - simpl in Hk. replace k with 0%nat by lia. reflexivity.
  - rewrite append_cons. cbn [JS.dropSpaces] in *. destruct k as [|k].
    + pose proof (spaceWidth_length (String c r)) as Hlen.
      pose proof (spaceWidth_app (String c r) w) as Happ.
      rewrite append_cons in Happ.
      destruct (JS.spaceWidth (String c r)) as [|j] eqn:E; [discriminate|].
      rewrite Happ by discriminate. apply IH; [simpl in Hlen; lia|exact Hempty].
    + apply IH; [simpl in Hk; lia|exact Hempty].
Qed.

Lemma blank_spec (s : string) : JS.blank s = true <-> JS.trimStart s = "".
Proof. unfold JS.blank. apply String.eqb_eq. Qed.

Lemma blank_app (a w : string) :
  JS.blank a = true -> JS.blank w = true -> JS.blank (a +:+ w) = true.
Proof.
  rewrite !blank_spec. unfold JS.trimStart. intros Ha Hw.
  rewrite dropSpaces_app; [exact Hw|lia|exact Ha].
Qed.

Lemma trimEnd_split (t : string) :
  exists w, t = JS.trimEnd t +:+ w /\ JS.blank w = true.
Proof.
  induction t as [|c r (w & Hr & Hw)]; [exists ""; split; reflexivity|].
  cbn [JS.trimEnd]. destruct (JS.blank (String c r)) eqn:Hb.
  - exists (String c r). split; [reflexivity|exact Hb].
  - exists w. rewrite append_cons, <- Hr. split; [reflexivity|exact Hw].
Qed.

Lemma trimEnd_idempotent (t : string) : JS.trimEnd (JS.trimEnd t) = JS.trimEnd t.
Proof.
  induction t as [|c r IH]; [reflexivity|].
  cbn [JS.trimEnd]. destruct (JS.blank (String c r)) eqn:Hb; [reflexivity|].
  cbn [JS.trimEnd]. rewrite IH.
  destruct (JS.blank (String c (JS.trimEnd r))) eqn:Hb'; [|reflexivity].
  destruct (trimEnd_split r) as (w & Hr & Hw).
  pose proof (blank_app _ _ Hb' Hw) as Hall.
  rewrite append_cons, <- Hr, Hb in Hall. discriminate.
Qed.

Lemma trimEnd_clean (t : string) :
  JS.spaceWidth t = 0%nat -> JS.spaceWidth (JS.trimEnd t) = 0%nat.
Proof.
  intros H. destruct (trimEnd_split t) as (w & Ht & _).
  destruct (JS.spaceWidth (JS.trimEnd t)) as [|j] eqn:E; [reflexivity|].
  pose proof (spaceWidth_app (JS.trimEnd t) w) as Happ.
  rewrite <- Ht, H, E in Happ. discriminate Happ. discriminate.
Qed.

Lemma trim_idempotent (s : string) : JS.trim (JS.trim s) = JS.trim s.
Proof.
  unfold JS.trim.
  rewrite (trimStart_id (JS.trimEnd (JS.trimStart s)));
    [apply trimEnd_idempotent|].
  apply trimEnd_clean. apply dropSpaces_clean.
Qed.

(** ** The handlers that execute *)



(** ** The configured container *)

Section Configured.

Variable path_join : list string -> string.
Variable path_resolve : string -> string -> string.

(** X23: the container name the configure handler stores is the name the
    orchestrator then works with; the handler reports the container as
    configured exactly when [execute] accepts the stored name.  After a blank
    answer, which the handler reports as local execution of all commands, a
    command that is not local by its switch or the global switch is not
    executed locally: [execute] rejects it as not configured and starts no
    process. *)
Theorem X23_configured_container (typed command : string) (config : Configuration)
    (w : ExecWorld) (cwd : option string) (perCommand : option bool) (rt : Runtime) :
  w_config w = (Extension.configureDocker (Some typed) config).1 ->
  workspaceRootValid (this rt) = true ->
  shouldExecuteLocally perCommand (w_config w) = false ->
  let r := execute path_join path_resolve (R:=unit) w command cwd perCommand rt in
  if JS.truthy (JS.trim typed) then
    r = prepend [GetConfiguration]
          (executeInDocker path_join path_resolve (R:=unit) w (JS.trim typed)
             command cwd rt)
  else
    completion r = Normal tt /\ final r = rt
    /\ In notConfiguredMessage (trace r)
    /\ Forall (fun e => startsProcess e = false) (trace r).
Proof.
  intros Hconfig Hvalid Hmode r. subst r.
  assert (Hname : containerIdentity (w_config w) = JS.trim typed)
    by (rewrite Hconfig; reflexivity).
  destruct (JS.truthy (JS.trim typed)) eqn:Htruthy.
  - rewrite execute_container; try assumption.
    + rewrite Hname, trim_idempotent. reflexivity.
    + rewrite Hname. unfold containerNotConfigured.
      rewrite trim_idempotent, Htruthy. reflexivity.
  - destruct (execute_notConfigured path_join path_resolve w command cwd perCommand rt)
      as (H1 & H2 & H3 & H4 & _); auto.
    rewrite Hname. unfold containerNotConfigured. rewrite Htruthy. reflexivity.
Qed.

End Configured.

(** * Activations and runs of the orchestrator *)

(** ** One activation *)

Lemma lookup_snoc {A} (l : list A) (x : A) : (l ++ [x]) !! length l = Some x.
Proof. rewrite lookup_app_r by lia. rewrite Nat.sub_diag. reflexivity. Qed.

Lemma insert_snoc {A} (l : list A) (x y : A) : <[length l := y]> (l ++ [x]) = l ++ [y].
Proof.
  rewrite insert_app_r_alt by lia. rewrite Nat.sub_diag. reflexivity.
Qed.

Ltac snoc_lookup :=
  repeat match goal with
    | H : (?l ++ [?x]) !! length ?l = _ |- _ => rewrite lookup_snoc in H
    end.

Section Activation.

Variable path_join : list string -> string.
Variable path_resolve : string -> string -> string.

Lemma executeInDocker_outcome_idle (w : ExecWorld) (name command : string)
    (cwd : option string) (rt : Runtime) :
  currentProcess (this rt) = None ->
  let r := executeInDocker path_join path_resolve (R:=unit) w name command cwd rt in
  (final r = rt /\ Forall (fun e => isSpawn e = false) (trace r))
  \/ (exists user dir path,
        last (trace r)
        = Some (Spawn "docker" (dockerExec user name dir command)
                  {| so_cwd := workspaceRoot (this rt); so_env := None;
                     so_shell := ShellNone |} (length (procs rt)))
        /\ inSandbox dir
        /\ length (List.filter isSpawn (trace r)) = 1%nat
        /\ completion r = Normal tt
        /\ final r = started rt {| beforeStats := snapshot (w_before w);
                                   compileCommandsPath := path |}).
Proof.
  intros Hidle. destruct rt as [[cur root valid] ps]. simpl in Hidle. subst cur.
  unfold executeInDocker, stopCurrentIfAny, getFileStats. open_calls. open_monad.
  cbv zeta. simpl.
  run_cases; snoc_lookup; simplify_eq.
  all: try (left; split; [reflexivity|repeat constructor]).
  all: right; rewrite insert_snoc.
  all: eexists _, _, _; split; [reflexivity|].
  all: split; [first [left; reflexivity|right; eexists; reflexivity]|].
  all: split; [reflexivity|split; [reflexivity|]].
  all: unfold started, snapshot; simpl;
    repeat match goal with H : _ = _ |- _ => rewrite H end; reflexivity.
Qed.

Lemma executeLocally_outcome_idle (w : ExecWorld) (command : string)
    (cwd : option string) (rt : Runtime) :
  currentProcess (this rt) = None ->
  let r := executeLocally path_join path_resolve (R:=unit) w command cwd rt in
  Forall (fun e => isSyncChild e = false) (trace r)
  /\ ((final r = rt /\ Forall (fun e => isSpawn e = false) (trace r))
      \/ (exists opts path,
            last (trace r) = Some (Spawn command [] opts (length (procs rt)))
            /\ so_shell opts <> ShellNone
            /\ length (List.filter isSpawn (trace r)) = 1%nat
            /\ completion r = Normal tt
            /\ final r = started rt {| beforeStats := snapshot (w_before w);
                                       compileCommandsPath := path |})).
Proof.
  intros Hidle. destruct rt as [[cur root valid] ps]. simpl in Hidle. subst cur.
  unfold executeLocally, stopCurrentIfAny, getFileStats. open_calls. open_monad.
  cbv zeta. simpl.
  run_cases; snoc_lookup; simplify_eq.
  all: split; [repeat constructor|].
  all: try (left; split; [reflexivity|repeat constructor]).
  all: right; rewrite insert_snoc.
  all: eexists _, _; split; [reflexivity|].
  all: split; [simpl; destruct (JS.truthy _); discriminate|].
  all: split; [reflexivity|split; [reflexivity|]].
  all: unfold started, snapshot; simpl;
    repeat match goal with H : _ = _ |- _ => rewrite H end; reflexivity.
Qed.

Lemma activationFrom_prepend (w : ExecWorld) (base : Runtime) (pre : Trace)
    (r : Completion unit unit * Runtime * Trace) :
  Forall (fun e => isSpawn e = false) pre ->
  activationFrom w base r -> activationFrom w base (prepend pre r).
Proof.
  intros Hpre [[Hfinal Hquiet]|(cmd & args & opts & path & Hlast & Hone & Hc & Hfinal)].
  - left. split; [exact Hfinal|]. unfold prepend, trace. simpl.
    apply Forall_app. split; assumption.
  - right. exists cmd, args, opts, path. unfold prepend, trace, completion, final in *.
    simpl. split; [|split; [|split; assumption]].
    + destruct r.2 as [|e t] eqn:Ht using rev_ind; [discriminate|].
      rewrite app_assoc, last_snoc. rewrite last_snoc in Hlast. exact Hlast.
    + rewrite List.filter_app, length_app.
      assert (Hnone : List.filter isSpawn pre = []).
      { clear -Hpre. induction Hpre as [|e t He Ht IH]; simpl; [reflexivity|].
        rewrite He. exact IH. }
      rewrite Hnone. exact Hone.
Qed.

Lemma stop_procs (rt : Runtime) :
  length (procs (final (stop (R:=unit) rt))) = length (procs rt)
  /\ (Forall (fun cp => isSome (listeners cp) = true) (procs rt) ->
      Forall (fun cp => isSome (listeners cp) = true) (procs (final (stop (R:=unit) rt))))
  /\ currentProcess (this (final (stop (R:=unit) rt))) = None.
Proof.
  destruct rt as [[cur root valid] ps].
  unfold stop, kill. open_calls. open_monad. simpl.
  run_cases; simpl; try (split; [reflexivity|split; [auto|reflexivity]]).
  split; [apply length_insert|split; [|reflexivity]].
  intros Hall. apply Forall_insert; [assumption|].
  simpl. eapply (Forall_lookup_1 _ _ _ _ Hall). eassumption.
Qed.

Lemma executeInDocker_activation (w : ExecWorld) (name command : string)
    (cwd : option string) (rt : Runtime) :
  activation w rt (executeInDocker path_join path_resolve (R:=unit) w name command cwd rt).
Proof.
  destruct (currentProcess (this rt)) as [p|] eqn:Hcur.
  - destruct (decide (w_confirm w = Some stopAndExecute)) as [Hc|Hd].
    + right. rewrite (executeInDocker_replace _ _ _ _ _ _ _ p) by assumption.
      apply activationFrom_prepend; [repeat constructor|].
      destruct (stop_procs rt) as (_ & _ & Hidle).
      destruct (executeInDocker_outcome_idle w name command cwd _ Hidle) as [H|H].
      * left. exact H.
      * right. destruct H as (user & dir & path & H1 & _ & H2).
        eexists "docker", _, _, path. split; [exact H1|exact H2].
    + left. rewrite (executeInDocker_decline _ _ _ _ _ _ _ p) by assumption.
      left. split; [reflexivity|repeat constructor].
  - left. destruct (executeInDocker_outcome_idle w name command cwd _ Hcur) as [H|H].
    + left. exact H.
    + right. destruct H as (user & dir & path & H1 & _ & H2).
      eexists "docker", _, _, path. split; [exact H1|exact H2].
Qed.

Lemma executeLocally_activation (w : ExecWorld) (command : string)
    (cwd : option string) (rt : Runtime) :
  activation w rt (executeLocally path_join path_resolve (R:=unit) w command cwd rt).
Proof.
  assert (Hidle : forall base, currentProcess (this base) = None ->
            activationFrom w base
              (executeLocally path_join path_resolve (R:=unit) w command cwd base)).
  { intros base Hb.
    destruct (executeLocally_outcome_idle w command cwd _ Hb) as (_ & [H|H]).
    - left. exact H.
    - right. destruct H as (opts & path & H1 & _ & H2).
      exists command, [], opts, path. auto. }
  destruct (currentProcess (this rt)) as [p|] eqn:Hcur.
  - destruct (decide (w_confirm w = Some stopAndExecute)) as [Hc|Hd].
    + right. rewrite (executeLocally_replace _ _ _ _ _ _ p) by assumption.
      apply activationFrom_prepend; [repeat constructor|].
      apply Hidle. apply stop_procs.
    + left. rewrite (executeLocally_decline _ _ _ _ _ _ p) by assumption.
      left. split; [reflexivity|repeat constructor].
  - left. apply Hidle, Hcur.
Qed.

Lemma execute_activation (w : ExecWorld) (command : string) (cwd : option string)
    (perCommand : option bool) (rt : Runtime) :
  activation w rt (execute path_join path_resolve (R:=unit) w command cwd perCommand rt).
Proof.
  assert (Hpre : forall r, activation w rt r -> activation w rt (prepend [GetConfiguration] r)).
  { intros r [H|H]; [left|right]; apply activationFrom_prepend; auto;
      repeat constructor. }
  destruct (workspaceRootValid (this rt)) eqn:Hvalid.
  - destruct (shouldExecuteLocally perCommand (w_config w)) eqn:Hmode.
    + rewrite execute_local by assumption. apply Hpre, executeLocally_activation.
    + destruct (containerNotConfigured (containerIdentity (w_config w))) eqn:Hname.
      * destruct (execute_notConfigured path_join path_resolve w command cwd perCommand
                    rt Hvalid Hmode Hname) as (_ & Hfinal & Hquiet & _).
        left. left. split; [exact Hfinal|].
        eapply Forall_impl; [exact Hquiet|]. intros [] He; simpl in *; congruence.
      * rewrite execute_container by assumption. apply Hpre, executeInDocker_activation.
  - rewrite execute_invalid by assumption. left. left.
    split; [reflexivity|repeat constructor].
Qed.

End Activation.

Lemma filter_none_quiet (t : Trace) (e : Event) :
  List.filter isSpawn t = [] -> In e t -> isSpawn e = false.
Proof.
  induction t as [|x t IH]; simpl; [contradiction|].
  destruct (isSpawn x) eqn:Hx; [discriminate|].
  intros Hnone [<-|Hin]; auto.
Qed.

Lemma only_spawn (t : Trace) (s e : Event) :
  last t = Some s -> isSpawn s = true ->
  length (List.filter isSpawn t) = 1%nat ->
  In e t -> isSpawn e = true -> e = s.
Proof.
  intros Hlast Hs Hone Hin He.
  destruct t as [|x t] using rev_ind; [contradiction|].
  rewrite last_snoc in Hlast. injection Hlast as ->.
  rewrite List.filter_app in Hone. simpl in Hone. rewrite Hs in Hone.
  rewrite length_app in Hone. simpl in Hone.
  apply in_app_or in Hin as [Hin|[<-|[]]]; [|reflexivity].
  assert (Hnone : List.filter isSpawn t = [])
    by (destruct (List.filter isSpawn t); [reflexivity|simpl in Hone; lia]).
  rewrite (filter_none_quiet _ _ Hnone Hin) in He. discriminate.
Qed.

Lemma quiet_filter (t : Trace) :
  Forall (fun e => isSpawn e = false) t -> List.filter isSpawn t = [].
Proof.
  induction 1 as [|e t He Ht IH]; simpl; [reflexivity|]. rewrite He. exact IH.
Qed.

Section Activations.

Variable path_join : list string -> string.
Variable path_resolve : string -> string -> string.

(** X24: one activation of [execute] spawns at most one process, whatever
    the state and the answers of the world; when it spawns, the spawn is its
    last outside call, the call completes normally, and the new process is
    the handle of the object and has listeners that hold the snapshot of the
    artifact taken before the spawn. *)
Theorem X24_one_spawn_per_activation (w : ExecWorld) (command : string)
    (cwd : option string) (perCommand : option bool) (rt : Runtime) :
  let r := execute path_join path_resolve (R:=unit) w command cwd perCommand rt in
  (length (List.filter isSpawn (trace r)) <= 1)%nat
  /\ forall cmd args opts p,
       In (Spawn cmd args opts p) (trace r) ->
       completion r = Normal tt
       /\ last (trace r) = Some (Spawn cmd args opts p)
       /\ p = length (procs rt)
       /\ currentProcess (this (final r)) = Some p
       /\ exists path,
            procs (final r) !! p
            = Some {| killed := false; handle := true;
                      listeners := Some {| beforeStats := snapshot (w_before w);
                                           compileCommandsPath := path |} |}.
Proof.
  intros r.
  assert (Hfrom : forall base, length (procs base) = length (procs rt) ->
                    activationFrom w base r ->
                    (length (List.filter isSpawn (trace r)) <= 1)%nat
                    /\ forall cmd args opts p,
                         In (Spawn cmd args opts p) (trace r) ->
                         completion r = Normal tt
                         /\ last (trace r) = Some (Spawn cmd args opts p)
                         /\ p = length (procs rt)
                         /\ currentProcess (this (final r)) = Some p
                         /\ exists path,
                              procs (final r) !! p
                              = Some {| killed := false; handle := true;
                                        listeners :=
                                          Some {| beforeStats := snapshot (w_before w);
                                                  compileCommandsPath := path |} |}).
  { intros base Hlen [[Hfinal Hquiet]|(c & a & o & path & Hlast & Hone & Hc & Hfinal)].
    - rewrite (quiet_filter _ Hquiet). split; [simpl; lia|].
      intros cmd args opts p Hin.
      apply (filter_none_quiet _ _ (quiet_filter _ Hquiet)) in Hin. discriminate.
    - split; [lia|]. intros cmd args opts p Hin.
      pose proof (only_spawn _ _ _ Hlast eq_refl Hone Hin eq_refl) as Heq.
      injection Heq as -> -> -> ->.
      split; [exact Hc|]. split; [exact Hlast|]. split; [exact Hlen|].
      rewrite Hfinal. unfold started. simpl. split; [reflexivity|].
      exists path. apply lookup_snoc. }
  destruct (execute_activation path_join path_resolve w command cwd perCommand rt)
    as [H|H].
  - apply (Hfrom rt); [reflexivity|exact H].
  - apply (Hfrom (final (stop (R:=unit) rt))); [apply stop_procs|exact H].
Qed.

End Activations.

(** ** Runs *)

Lemma onClose_state (w : CloseWorld) (c : Closure) (code : option Z)
    (signal : option string) (rt : Runtime) :
  completion (onClose (R:=unit) w c code signal rt) = Normal tt
  /\ final (onClose (R:=unit) w c code signal rt) = cleared rt.
Proof.
  destruct rt as [[cur root valid] ps].
  unfold onClose, restartClangd, replaceCompileCommandsPath, getFileStats.
  open_calls. open_monad. simpl.
  run_cases; split; reflexivity.
Qed.

Lemma onError_state (message : string) (rt : Runtime) :
  completion (onError (R:=unit) message rt) = Normal tt
  /\ final (onError (R:=unit) message rt) = cleared rt.
Proof.
  destruct rt as [[cur root valid] ps]. split; reflexivity.
Qed.

Lemma sound_cleared (rt : Runtime) :
  sound rt -> sound (cleared rt) /\ (length (procs rt) <= length (procs (cleared rt)))%nat.
Proof. intros [_ H]. split; [split; [exact I|exact H]|reflexivity]. Qed.

Lemma sound_started (rt : Runtime) (c : Closure) :
  sound rt ->
  sound (started rt c) /\ (length (procs rt) <= length (procs (started rt c)))%nat.
Proof.
  intros [_ H]. split; [split|]; simpl.
  - rewrite length_app. simpl. lia.
  - apply Forall_app. split; [exact H|repeat constructor].
  - rewrite length_app. lia.
Qed.

Lemma sound_stop (rt : Runtime) :
  sound rt ->
  sound (final (stop (R:=unit) rt))
  /\ (length (procs rt) <= length (procs (final (stop (R:=unit) rt))))%nat.
Proof.
  intros [_ H]. destruct (stop_procs rt) as (Hlen & Hall & Hidle).
  split; [split; [rewrite Hidle; exact I|auto]|lia].
Qed.

Lemma sound_insert (rt : Runtime) (p : pid) (cp : ChildProcess) (k h : bool)
    (o : DeepRouteCompileCommands) :
  sound rt -> procs rt !! p = Some cp ->
  match currentProcess o with
  | Some q => (q < length (procs rt))%nat
  | None => True
  end ->
  let rt' :=
    {| this := o;
       procs := <[p := {| killed := k; handle := h; listeners := listeners cp |}]>
                  (procs rt) |} in
  sound rt' /\ (length (procs rt) <= length (procs rt'))%nat.
Proof.
  intros [_ Hall] Hat Hcur. split; [split|]; simpl.
  - destruct (currentProcess o); [rewrite length_insert|]; assumption.
  - apply Forall_insert; [assumption|]. simpl.
    apply (Forall_lookup_1 _ _ _ _ Hall Hat).
  - rewrite length_insert. reflexivity.
Qed.

Lemma stopTimeout_sound (rt : Runtime) :
  sound rt ->
  sound (final (stopTimeout (R:=unit) rt))
  /\ (length (procs rt) <= length (procs (final (stopTimeout (R:=unit) rt))))%nat.
Proof.
  intros Hs. destruct rt as [[cur root valid] ps].
  unfold stopTimeout, kill. open_monad. simpl.
  run_cases; try (split; [exact Hs|reflexivity]).
  apply (sound_insert _ _ _ _ _ _ Hs); [assumption|]. destruct Hs as [Hcur _].
  simpl in *. exact Hcur.
Qed.

Lemma dispose_sound (rt : Runtime) :
  sound rt ->
  sound (final (dispose (R:=unit) rt))
  /\ (length (procs rt) <= length (procs (final (dispose (R:=unit) rt))))%nat.
Proof.
  intros Hs. destruct rt as [[cur root valid] ps].
  unfold dispose, kill. open_monad. simpl.
  run_cases; try (split; [exact Hs|reflexivity]); try (apply (sound_cleared _ Hs)).
  apply (sound_insert _ _ _ _ _ _ Hs); [assumption|exact I].
Qed.

Section Runs.

Variable path_join : list string -> string.
Variable path_resolve : string -> string -> string.

Lemma execute_sound (w : ExecWorld) (command : string) (cwd : option string)
    (perCommand : option bool) (rt : Runtime) :
  sound rt ->
  let r := execute path_join path_resolve (R:=unit) w command cwd perCommand rt in
  sound (final r) /\ (length (procs rt) <= length (procs (final r)))%nat.
Proof.
  intros Hs r.
  assert (Hfrom : forall base,
            sound base /\ (length (procs rt) <= length (procs base))%nat ->
            activationFrom w base r ->
            sound (final r) /\ (length (procs rt) <= length (procs (final r)))%nat).
  { intros base [Hb Hlen] [[-> _]|(c & a & o & path & _ & _ & _ & ->)]; [auto|].
    destruct (sound_started base {| beforeStats := snapshot (w_before w);
                                    compileCommandsPath := path |} Hb) as [H1 H2].
    split; [exact H1|lia]. }
  destruct (execute_activation path_join path_resolve w command cwd perCommand rt)
    as [H|H].
  - apply (Hfrom rt); auto.
  - apply (Hfrom (final (stop (R:=unit) rt))); [apply sound_stop, Hs|exact H].
Qed.

Lemma step_sound (a : Action) (rt : Runtime) :
  sound rt ->
  sound (final (step path_join path_resolve a rt))
  /\ (length (procs rt) <= length (procs (final (step path_join path_resolve a rt))))%nat.
Proof.
  intros Hs. destruct a as [w command cwd perCommand|w command cwd| | | |p data
                            |p message|p code signal w| ]; cbn [step].
  - apply execute_sound, Hs.
  - rewrite executeCommandInternal_run. apply execute_sound, Hs.
  - apply sound_stop, Hs.
  - apply sound_stop, Hs.
  - apply stopTimeout_sound, Hs.
  - unfold withListeners, onData. open_calls. open_monad.
    destruct (procs rt !! p) as [[k h [c|]]|]; (split; [exact Hs|reflexivity]).
  - unfold withListeners, bind, getProcs. simpl.
    destruct (procs rt !! p) as [[k h [c|]]|] eqn:Hat;
      try (split; [exact Hs|reflexivity]).
    destruct (onError_state message rt) as [Hc Hf].
    unfold completion, final in *.
    destruct (onError message rt) as [[x rt2] t2]. simpl in *. subst.
    apply sound_cleared, Hs.
  - unfold released, withListeners. open_monad.
    destruct (procs rt !! p) as [cp|] eqn:Hat; simpl;
      [|rewrite Hat; split; [exact Hs|reflexivity]].
    rewrite list_lookup_insert_eq by (apply lookup_lt_Some in Hat; exact Hat).
    destruct (sound_insert rt p cp (killed cp) false (this rt) Hs Hat) as [Hs1 Hlen1];
      [apply Hs|].
    set (rt1 := {| this := this rt; procs := _ |}) in *.
    destruct (listeners cp) as [c|]; simpl; [|split; assumption].
    destruct (onClose_state w c code signal rt1) as [Hc Hf].
    unfold completion, final in Hc, Hf.
    destruct (onClose w c code signal rt1) as [[x rt2] t2]. simpl in *. subst.
    destruct (sound_cleared _ Hs1) as [H1 H2]. split; [exact H1|]. simpl in *. lia.
  - apply dispose_sound, Hs.
Qed.

Lemma run_sound (actions : list Action) (rt : Runtime) :
  sound rt ->
  sound (run path_join path_resolve actions rt).1
  /\ (length (procs rt) <= length (procs (run path_join path_resolve actions rt).1))%nat.
Proof.
  revert rt. induction actions as [|a rest IH]; intros rt Hs; [split; [exact Hs|simpl; lia]|].
  cbn [run fst].
  destruct (step_sound a rt Hs) as [Hs1 Hlen1].
  destruct (IH _ Hs1) as [H1 H2]. split; [exact H1|]. lia.
Qed.

(** X25: in every state the object reaches after its construction, through
    any sequence of calls and callbacks and whatever the world answers, the
    handle refers to a process the object has spawned, every spawned process
    has its listeners, and the object never forgets a process: the sequence
    of spawned processes only grows. *)
Theorem X25_handle_refers_to_spawned_process (homeDir root : string)
    (actions more : list Action) :
  let rt0 := final (constructor path_join homeDir root) in
  let rt := (run path_join path_resolve actions rt0).1 in
  sound rt
  /\ (forall p, currentProcess (this rt) = Some p ->
        exists cp c, procs rt !! p = Some cp /\ listeners cp = Some c)
  /\ (length (procs rt)
      <= length (procs (run path_join path_resolve more rt).1))%nat.
Proof.
  intros rt0 rt.
  assert (Hs0 : sound rt0).
  { unfold rt0. rewrite (proj1 (constructor_run path_join homeDir root)).
    split; simpl; auto. }
  destruct (run_sound actions rt0 Hs0) as [Hs _]. fold rt in Hs.
  split; [exact Hs|]. split; [|apply (run_sound more rt Hs)].
  intros p Hcur. destruct Hs as [Hvalid Hall]. rewrite Hcur in Hvalid.
  destruct (lookup_lt_is_Some_2 _ _ Hvalid) as [cp Hat]. exists cp.
  pose proof (Forall_lookup_1 _ _ _ _ Hall Hat) as Hl. simpl in Hl.
  destruct (listeners cp) as [c|]; [|discriminate]. eauto.
Qed.

End Runs.

(** ** Spawning by mode *)

Lemma spawn_behind (pre : Trace) (r : Completion unit unit * Runtime * Trace)
    (e : Event) :
  Forall (fun e => isSpawn e = false) pre -> isSpawn e = true ->
  In e (trace (prepend pre r)) -> In e (trace r).
Proof.
  intros Hpre He Hin. unfold prepend, trace in *. simpl in Hin.
  apply in_app_or in Hin as [Hin|Hin]; [|exact Hin].
  rewrite Forall_forall in Hpre. apply list_elem_of_In, Hpre in Hin. congruence.
Qed.

Section Modes.

Variable path_join : list string -> string.
Variable path_resolve : string -> string -> string.

Lemma executeLocally_spawns (w : ExecWorld) (command : string)
    (cwd : option string) (rt : Runtime) :
  let r := executeLocally path_join path_resolve (R:=unit) w command cwd rt in
  Forall (fun e => isSyncChild e = false) (trace r)
  /\ forall cmd args opts p,
       In (Spawn cmd args opts p) (trace r) ->
       cmd = command /\ args = [] /\ so_shell opts <> ShellNone.
Proof.
  assert (Hidle : forall base, currentProcess (this base) = None ->
            let r := executeLocally path_join path_resolve (R:=unit) w command cwd base in
            Forall (fun e => isSyncChild e = false) (trace r)
            /\ forall cmd args opts p,
                 In (Spawn cmd args opts p) (trace r) ->
                 cmd = command /\ args = [] /\ so_shell opts <> ShellNone).
  { intros base Hb r.
    destruct (executeLocally_outcome_idle path_join path_resolve w command cwd _ Hb)
      as (Hsync & [[_ Hquiet]|(o & path & Hlast & Hshell & Hone & _)]);
      (split; [exact Hsync|]); intros cmd args opts p Hin.
    - apply (filter_none_quiet _ _ (quiet_filter _ Hquiet)) in Hin. discriminate.
    - pose proof (only_spawn _ _ _ Hlast eq_refl Hone Hin eq_refl) as Heq.
      injection Heq as -> -> -> ->. auto. }
  destruct (currentProcess (this rt)) as [q|] eqn:Hcur; [|apply Hidle, Hcur].
  destruct (decide (w_confirm w = Some stopAndExecute)) as [Hc|Hd].
  - rewrite (executeLocally_replace _ _ _ _ _ _ q) by assumption.
    destruct (Hidle (final (stop (R:=unit) rt))) as [Hsync Hshape]; [apply stop_procs|].
    split.
    + unfold prepend, trace. simpl. repeat (constructor; [reflexivity|]). exact Hsync.
    + intros cmd args opts p Hin. apply (Hshape cmd args opts p).
      eapply spawn_behind; [|reflexivity|exact Hin]. repeat constructor.
  - rewrite (executeLocally_decline _ _ _ _ _ _ q) by assumption.
    split; [repeat constructor|]. intros cmd args opts p [Hin|[]]. discriminate.
Qed.

Lemma executeInDocker_spawns (w : ExecWorld) (name command : string)
    (cwd : option string) (rt : Runtime) :
  let r := executeInDocker path_join path_resolve (R:=unit) w name command cwd rt in
  forall cmd args opts p,
    In (Spawn cmd args opts p) (trace r) ->
    cmd = "docker" /\ so_shell opts = ShellNone
    /\ exists user dir, inSandbox dir /\ args = dockerExec user name dir command.
Proof.
  assert (Hidle : forall base, currentProcess (this base) = None ->
            let r := executeInDocker path_join path_resolve (R:=unit) w name command
                       cwd base in
            forall cmd args opts p,
              In (Spawn cmd args opts p) (trace r) ->
              cmd = "docker" /\ so_shell opts = ShellNone
              /\ exists user dir, inSandbox dir /\ args = dockerExec user name dir command).
  { intros base Hb r cmd args opts p Hin.
    destruct (executeInDocker_outcome_idle path_join path_resolve w name command cwd _ Hb)
      as [[_ Hquiet]|(user & dir & path & Hlast & Hdir & Hone & _)].
    - apply (filter_none_quiet _ _ (quiet_filter _ Hquiet)) in Hin. discriminate.
    - pose proof (only_spawn _ _ _ Hlast eq_refl Hone Hin eq_refl) as Heq.
      injection Heq as -> -> -> ->. eauto 6. }
  destruct (currentProcess (this rt)) as [q|] eqn:Hcur; [|apply Hidle, Hcur].
  destruct (decide (w_confirm w = Some stopAndExecute)) as [Hc|Hd].
  - rewrite (executeInDocker_replace _ _ _ _ _ _ _ q) by assumption.
    intros r cmd args opts p Hin.
    apply (Hidle (final (stop (R:=unit) rt)) (proj2 (proj2 (stop_procs rt)))
             cmd args opts p).
    eapply spawn_behind; [|reflexivity|exact Hin]. repeat constructor.
  - rewrite (executeInDocker_decline _ _ _ _ _ _ _ q) by assumption.
    intros r cmd args opts p [Hin|[]]. discriminate.
Qed.

(** X26: how a command is spawned depends on the mode alone.  In local
    mode the command text is given to a shell of the host, and the
    activation runs no synchronous child process: no [docker], no [id].  In
    container mode the only process spawned is [docker exec] without a host
    shell, as the calling user, with the command text as one argument of
    [bash -c] behind a [cd] to a directory written as [/sandbox] or below
    it. *)
Theorem X26_spawn_by_mode (w : ExecWorld) (command : string)
    (cwd : option string) (perCommand : option bool) (rt : Runtime) :
  let r := execute path_join path_resolve (R:=unit) w command cwd perCommand rt in
  if shouldExecuteLocally perCommand (w_config w) then
    Forall (fun e => isSyncChild e = false) (trace r)
    /\ forall cmd args opts p,
         In (Spawn cmd args opts p) (trace r) ->
         cmd = command /\ args = [] /\ so_shell opts <> ShellNone
  else
    forall cmd args opts p,
      In (Spawn cmd args opts p) (trace r) ->
      cmd = "docker" /\ so_shell opts = ShellNone
      /\ exists user dir,
           inSandbox dir
           /\ args = dockerExec user (JS.trim (containerIdentity (w_config w))) dir command.
Proof.
  intros r. subst r.
  destruct (workspaceRootValid (this rt)) eqn:Hvalid.
  - destruct (shouldExecuteLocally perCommand (w_config w)) eqn:Hmode.
    + rewrite execute_local by assumption.
      destruct (executeLocally_spawns w command cwd rt) as [Hsync Hshape]. split.
      * unfold prepend, trace. simpl. constructor; [reflexivity|exact Hsync].
      * intros cmd args opts p Hin. apply (Hshape cmd args opts p).
        eapply spawn_behind; [|reflexivity|exact Hin]. repeat constructor.
    + destruct (containerNotConfigured (containerIdentity (w_config w))) eqn:Hname.
      * destruct (execute_notConfigured path_join path_resolve w command cwd perCommand
                    rt Hvalid Hmode Hname) as (_ & _ & Hquiet & _).
        intros cmd args opts p Hin. rewrite Forall_forall in Hquiet.
        apply list_elem_of_In, Hquiet in Hin. discriminate.
      * rewrite execute_container by assumption.
        intros cmd args opts p Hin.
        apply (executeInDocker_spawns w _ command cwd rt cmd args opts p).
        eapply spawn_behind; [|reflexivity|exact Hin]. repeat constructor.
  - rewrite execute_invalid by assumption.
    destruct (shouldExecuteLocally perCommand (w_config w)).
    + split; [repeat constructor|].
      intros cmd args opts p Hin. simpl in Hin. intuition discriminate.
    + intros cmd args opts p Hin. simpl in Hin. intuition discriminate.
Qed.

(** X27: a local command whose directory does not exist is not started:
    the activation completes normally without a spawn and without a look at
    the artifact; on an idle object it does nothing but probe the directory
    and show the error.  The stop of a running command comes first: after
    the answer to stop and execute, the running command has got SIGTERM and
    the object is idle, although no command replaces it. *)
Theorem X27_local_directory_missing (w : ExecWorld) (command : string)
    (cwd : option string) (trimmed : string) (rt : Runtime) :
  cwdGiven cwd = Some trimmed ->
  w_cwdExists w = false ->
  let dir := path_resolve (workspaceRoot (this rt)) trimmed in
  let r := executeLocally path_join path_resolve (R:=unit) w command cwd rt in
  completion r = Normal tt
  /\ Forall (fun e => isSpawn e = false) (trace r)
  /\ match currentProcess (this rt) with
     | None =>
         final r = rt
         /\ trace r = [ExistsSync dir;
                       ShowErrorMessage ("Specified directory does not exist: " +:+ dir) []]
     | Some p =>
         if bool_decide (w_confirm w = Some stopAndExecute)
         then currentProcess (this (final r)) = None /\ In (Kill p SIGTERM) (trace r)
         else final r = rt /\ trace r = [confirmPrompt]
     end.
Proof.
  intros Hcwd Hmissing dir r.
  assert (Hidle : forall base, currentProcess (this base) = None ->
            executeLocally path_join path_resolve (R:=unit) w command cwd base
            = (Normal tt, base,
               [ExistsSync (path_resolve (workspaceRoot (this base)) trimmed);
                ShowErrorMessage
                  ("Specified directory does not exist: "
                   +:+ path_resolve (workspaceRoot (this base)) trimmed) []])).
  { intros [[cur root valid] ps] Hb. simpl in Hb. subst cur.
    unfold executeLocally, stopCurrentIfAny. open_calls. open_monad. cbv zeta. simpl.
    rewrite Hcwd, Hmissing. reflexivity. }
  subst r. destruct (currentProcess (this rt)) as [p|] eqn:Hcur.
  - destruct (bool_decide (w_confirm w = Some stopAndExecute)) eqn:Hc.
    + apply bool_decide_eq_true in Hc.
      rewrite (executeLocally_replace _ _ _ _ _ _ p) by assumption.
      destruct (stop_busy (R:=unit) rt p Hcur) as (_ & _ & Hnone & _).
      rewrite (Hidle _ Hnone). unfold prepend, completion, final, trace. simpl.
      split; [reflexivity|]. split; [repeat constructor|].
      split; [exact Hnone|auto 10].
    + apply bool_decide_eq_false in Hc.
      rewrite (executeLocally_decline _ _ _ _ _ _ p) by assumption.
      split; [reflexivity|]. split; [repeat constructor|]. split; reflexivity.
  - rewrite (Hidle _ Hcur). split; [reflexivity|]. split; [repeat constructor|].
    split; reflexivity.
Qed.

(** X28: the lookup of the calling user is not guarded: when the container
    runs but [id -u] or [id -g] fails, the exception of [execSync] leaves
    [executeInDocker], so the invocation ends as a rejected promise; nothing
    is spawned and the object stays idle. *)
Theorem X28_user_lookup_failure_escapes (w : ExecWorld)
    (name command message : string) (cwd : option string) (rt : Runtime) :
  currentProcess (this rt) = None ->
  error (w_inspect w) = None ->
  reportsRunning (w_inspect w) = true ->
  w_id_u w = Raised message
  \/ ((exists uid, w_id_u w = Value uid) /\ w_id_g w = Raised message) ->
  let r := executeInDocker path_join path_resolve (R:=unit) w name command cwd rt in
  completion r = Thrown message
  /\ final r = rt
  /\ Forall (fun e => isSpawn e = false) (trace r).
Proof.
  intros Hidle Herr Hrun Hid. destruct rt as [[cur root valid] ps].
  simpl in Hidle. subst cur.
  unfold reportsRunning in Hrun. apply andb_true_iff in Hrun as [Hstatus Hout].
  destruct (stdout (w_inspect w)) as [out|] eqn:Hstdout; [|discriminate].
  unfold executeInDocker, stopCurrentIfAny, getFileStats. open_calls. open_monad.
  cbv zeta. simpl. unfold statusNonZero. rewrite Herr, Hstatus, Hstdout. simpl.
  rewrite Hout. simpl.
  destruct Hid as [Hu|[[uid Hu] Hg]]; rewrite Hu; [|rewrite Hg];
    run_cases; (split; [reflexivity|split; [reflexivity|repeat constructor]]).
Qed.

Lemma hasNul_append (a b : string) : hasNul (a +:+ b) = hasNul a || hasNul b.
Proof.
  induction a as [|c r IH]; [reflexivity|].
  rewrite append_cons. simpl. rewrite IH, orb_assoc. reflexivity.
Qed.

(** X30: a command that [child_process.spawn] does not accept is not
    started, and the two modes differ in what the caller sees.  In local
    mode, where the progress is awaited, the exception leaves
    [executeLocally] and the invocation ends as a rejected promise; in
    container mode, where it is not awaited, [executeInDocker] completes
    normally after it announced the execution.  In both the object stays
    idle and no process exists. *)
Theorem X30_refused_spawn_starts_nothing (w : ExecWorld)
    (name command : string) (cwd : option string) (rt : Runtime) :
  currentProcess (this rt) = None ->
  (refused command [] = true ->
   cwdGiven cwd = None \/ w_cwdExists w = true ->
   let r := executeLocally path_join path_resolve (R:=unit) w command cwd rt in
   (exists message, completion r = Thrown message)
   /\ final r = rt
   /\ Forall (fun e => isSpawn e = false) (trace r))
  /\ (hasNul command = true ->
      error (w_inspect w) = None ->
      reportsRunning (w_inspect w) = true ->
      (exists uid gid, w_id_u w = Value uid /\ w_id_g w = Value gid) ->
      let r := executeInDocker path_join path_resolve (R:=unit) w name command cwd rt in
      completion r = Normal tt
      /\ final r = rt
      /\ Forall (fun e => isSpawn e = false) (trace r)
      /\ last (trace r) = Some (WithProgress ("Executing in container: " +:+ command))).
Proof.
  intros Hidle. destruct rt as [[cur root valid] ps]. simpl in Hidle. subst cur.
  split.
  - intros Hrefused Hcwd.
    unfold executeLocally, stopCurrentIfAny, getFileStats. open_calls. open_monad.
    cbv zeta. simpl.
    destruct Hcwd as [Hcwd|Hcwd]; rewrite Hcwd; simpl; rewrite ?Hrefused;
      run_cases; simplify_eq;
      (split; [eexists; reflexivity|split; [reflexivity|repeat constructor]]).
  - intros Hnul Herr Hrun (uid & gid & Hu & Hg).
    unfold reportsRunning in Hrun. apply andb_true_iff in Hrun as [Hstatus Hout].
    destruct (stdout (w_inspect w)) as [out|] eqn:Hstdout; [|discriminate].
    unfold executeInDocker, stopCurrentIfAny, getFileStats. open_calls. open_monad.
    cbv zeta. simpl. unfold statusNonZero. rewrite Herr, Hstatus, Hstdout. simpl.
    rewrite Hout, Hu, Hg. simpl.
    run_cases; snoc_lookup; simplify_eq.
    all: try (exfalso;
              match goal with
              | H : refused _ _ = false |- _ =>
                  unfold refused in H; cbn [existsb] in H;
                  rewrite !hasNul_append, Hnul, ?orb_true_r in H; discriminate H
              end).
    all: repeat split; try reflexivity; repeat constructor.
Qed.

End Modes.

(** ** The callbacks *)

Section Callbacks.

Variable path_join : list string -> string.
Variable path_resolve : string -> string -> string.

(** X29: the close and the error callback of a process end normally,
    whatever the rewrite and the refresh do, and leave the object without a
    handle, also when the process is not the current one: after the close
    of a process that was stopped and replaced, the object reports that no
    command is running while the replacement, which is left untouched, still
    runs. *)
Theorem X29_close_clears_any_handle (p : pid) (cp : ChildProcess) (c : Closure)
    (code : option Z) (signal : option string) (w : CloseWorld)
    (message : string) (rt : Runtime) :
  procs rt !! p = Some cp ->
  listeners cp = Some c ->
  let closed := step path_join path_resolve (CloseEvent p code signal w) rt in
  let failed := step path_join path_resolve (ErrorEvent p message) rt in
  completion closed = Normal tt
  /\ isRunning (this (final closed)) = false
  /\ completion failed = Normal tt
  /\ isRunning (this (final failed)) = false
  /\ forall q, q <> p ->
       procs (final closed) !! q = procs rt !! q
       /\ procs (final failed) !! q = procs rt !! q.
Proof.
  intros Hat Hl closed failed.
  assert (Hclosed : completion closed = Normal tt
                    /\ final closed
                       = cleared {| this := this rt;
                                    procs := <[p := {| killed := killed cp; handle := false;
                                                       listeners := listeners cp |}]>
                                               (procs rt) |}).
  { unfold closed. cbn [step]. unfold released, withListeners. open_monad.
    rewrite Hat. simpl.
    rewrite list_lookup_insert_eq by (apply lookup_lt_Some in Hat; exact Hat).
    rewrite Hl. simpl.
    set (rt1 := {| this := this rt; procs := _ |}).
    destruct (onClose_state w c code signal rt1) as [Hc Hf].
    unfold completion, final in Hc, Hf.
    destruct (onClose w c code signal rt1) as [[x rt2] t2]. simpl in *. subst.
    split; reflexivity. }
  assert (Hfailed : completion failed = Normal tt /\ final failed = cleared rt).
  { unfold failed. cbn [step]. unfold withListeners, bind, getProcs. simpl.
    rewrite Hat. destruct cp as [k h l]. simpl in Hl. subst l.
    destruct (onError_state message rt) as [Hc Hf].
    unfold completion, final in *.
    destruct (onError message rt) as [[x rt2] t2]. simpl in *. subst.
    split; reflexivity. }
  destruct Hclosed as [-> ->], Hfailed as [-> ->].
  repeat split; try reflexivity.
  simpl. apply list_lookup_insert_ne. congruence.
Qed.

End Callbacks.

(** ** The properties at sample inputs *)

Lemma X1_strip_keeps_plain_text_sample :
  OutputManager.stripAnsiCodes "make: done" = "make: done".
Proof. apply (X1_strip_keeps_plain_text "make: done"). reflexivity. Defined.

(** Red text between two plain words. *)
Lemma X2_strip_removes_control_sequence_sample :
  OutputManager.stripAnsiCodes ("ok " +:+ controlSequence "1;31" "m" +:+ "red")
  = "ok " +:+ OutputManager.stripAnsiCodes "red".
Proof.
  apply (X2_strip_removes_control_sequence "ok " "1;31" "red" "m"); reflexivity.
Defined.

(** The colour sequence is cut behind its first parameter. *)
Lemma X4_split_control_sequence_survives_sample :
  OutputManager.channel (OutAppend ("ok " +:+ String OutputManager.esc (String "["%char "1")))
  ++ OutputManager.channel (OutAppend (";31" +:+ String "m"%char "red"))
  = [OutputManager.ChannelAppend ("ok " +:+ String OutputManager.esc (String "["%char "1"));
     OutputManager.ChannelAppend (";31" +:+ String "m"%char "red")].
Proof.
  apply (X4_split_control_sequence_survives "ok " "1" ";31" "red" "m"); reflexivity.
Defined.

Lemma X5_strip_is_one_pass_sample :
  OutputManager.append
    (String OutputManager.esc
       (String "["%char (controlSequence "1" "m" +:+ "0" +:+ String "m"%char "")))
  = [OutputManager.ChannelAppend (controlSequence "0" "m")].
Proof.
  destruct (X5_strip_is_one_pass "0" "1" "m" "m" eq_refl eq_refl eq_refl eq_refl)
    as [H _].
  exact H.
Defined.

(** The command of the history is run again. *)
Lemma X8_history_keeps_entries_distinct_sample :
  NoDup (map historyKey
           (Tree.commandHistory (Tree.addToHistory 2 "make" None sampleHistory).1)).
Proof.
  apply (X8_history_keeps_entries_distinct 2 "make" None sampleHistory).
  apply NoDup_singleton.
Defined.

Lemma X16_edit_alias_keeps_mode_sample :
  resolvesLocal
    (predefined (Extension.editCommandAlias (menuItem "make") (Some "All") sampleConfig).1)
    "ninja"
  = resolvesLocal (predefined sampleConfig) "ninja".
Proof.
  apply (X16_edit_alias_keeps_mode (menuItem "make") (Some "All") sampleConfig "ninja").
  refine (bool_decide_unpack _ _); vm_compute; exact I.
Defined.

Lemma X17_edit_alias_of_shadowing_string_sample :
  resolvesLocal (predefined shadowed) "make" = true
  /\ resolvesLocal
       (predefined (Extension.editCommandAlias (menuItem "make") (Some "All") shadowed).1)
       "make" = false.
Proof.
  apply (X17_edit_alias_of_shadowing_string "make" "All" None None [] shadowed);
    reflexivity.
Defined.

Lemma X19_toggle_command_flips_sample :
  resolvesLocal
    (predefined (Extension.toggleCommandExecuteLocally (menuItem "ninja") sampleConfig).1)
    "ninja"
  = negb (resolvesLocal (predefined sampleConfig) "ninja").
Proof.
  apply (X19_toggle_command_flips (menuItem "ninja") sampleConfig "ninja").
  - reflexivity.
  - refine (bool_decide_unpack _ _); vm_compute; exact I.
  - refine (bool_decide_unpack _ _); vm_compute; exact I.
Defined.

(** A name with a blank and a no-break space around it, and an answer of
    white space only. *)
Lemma X23_configured_container_sample :
  execute posixJoin posixResolve (R:=unit) (configuredWith (" dev" +:+ nbsp)) "make"
    None None idle
  = prepend [GetConfiguration]
      (executeInDocker posixJoin posixResolve (R:=unit)
         (configuredWith (" dev" +:+ nbsp)) "dev" "make" None idle)
  /\ In notConfiguredMessage
       (trace (execute posixJoin posixResolve (R:=unit) (configuredWith (nbsp +:+ " "))
                 "make" None None idle)).
Proof.
  split.
  - exact (X23_configured_container posixJoin posixResolve (" dev" +:+ nbsp) "make"
             (config None None []) (configuredWith (" dev" +:+ nbsp)) None None idle
             eq_refl eq_refl eq_refl).
  - destruct (X23_configured_container posixJoin posixResolve (nbsp +:+ " ") "make"
                (config None None []) (configuredWith (nbsp +:+ " ")) None None idle
                eq_refl eq_refl eq_refl) as (_ & _ & H & _).
    exact H.
Defined.

Lemma X27_local_directory_missing_sample :
  Forall (fun e => isSpawn e = false)
    (trace (executeLocally posixJoin posixResolve (R:=unit) noDirectory "make"
              (Some "build") idle)).
Proof.
  destruct (X27_local_directory_missing posixJoin posixResolve noDirectory "make"
              (Some "build") "build" idle eq_refl eq_refl) as (_ & H & _).
  exact H.
Defined.

Lemma X28_user_lookup_failure_escapes_sample :
  completion (executeInDocker posixJoin posixResolve (R:=unit) userUnknown "dev"
                "make" None idle)
  = Thrown "Command failed: id -u".
Proof.
  destruct (X28_user_lookup_failure_escapes posixJoin posixResolve userUnknown "dev"
              "make" "Command failed: id -u" None idle eq_refl eq_refl eq_refl
              (or_introl eq_refl)) as (H & _).
  exact H.
Defined.

(** Process 0 was stopped and replaced by process 1, and closes. *)
Lemma X29_close_clears_any_handle_sample :
  isRunning
    (this (final (step posixJoin posixResolve
                    (CloseEvent 0 None (Some "SIGTERM")
                       (artifactAppeared sedFails clangdInstalled)) replaced)))
  = false
  /\ handle <$> (procs (final (step posixJoin posixResolve
                                 (CloseEvent 0 None (Some "SIGTERM")
                                    (artifactAppeared sedFails clangdInstalled)) replaced))
                 !! 1)
     = Some true.
Proof.
  destruct (X29_close_clears_any_handle posixJoin posixResolve 0
              {| killed := true; handle := true; listeners := Some sampleClosure |}
              sampleClosure None (Some "SIGTERM")
              (artifactAppeared sedFails clangdInstalled) "" replaced eq_refl eq_refl)
    as (_ & H & _ & _ & Hother).
  split; [exact H|].
  destruct (Hother 1) as [Hq _]; [discriminate|].
  exact (f_equal (fmap handle) Hq).
Defined.

(** An empty command in local mode, a command with a NUL byte in container
    mode. *)
Lemma X30_refused_spawn_starts_nothing_sample :
  (exists message,
     completion (executeLocally posixJoin posixResolve (R:=unit) (containerUp None)
                   "" None idle) = Thrown message)
  /\ completion (executeInDocker posixJoin posixResolve (R:=unit) (containerUp None)
                   "dev" ("make" +:+ String "000" "") None idle) = Normal tt.
Proof.
  destruct (X30_refused_spawn_starts_nothing posixJoin posixResolve (containerUp None)
              "dev" "" None idle eq_refl) as [Hlocal _].
  destruct (X30_refused_spawn_starts_nothing posixJoin posixResolve (containerUp None)
              "dev" ("make" +:+ String "000" "") None idle eq_refl) as [_ Hcontainer].
  split.
  - apply Hlocal; [reflexivity|left; reflexivity].
  - apply Hcontainer; [reflexivity|reflexivity|reflexivity|].
    eexists _, _. split; reflexivity.
Defined.
